(** * Correlation significance pipeline of the Vietnam enterprise-survey scripts

    A shallow embedding of the numerical and tabular core of
    [correlation_significance.py], [analyze_data.py] and [analysis.py].

    Numbers are IEEE-754 binary64 values, as Python's [float] and numpy's
    [float64] are: the kernel's primitive floats give the same bits for every
    operation used here ([+ - * / sqrt abs] and the comparisons), so the
    definitions can be run on a table.  Missing values are NaN, as pandas
    represents them in a numeric column.  What the scripts call in pandas and
    numpy ([pivot], [dropna], [corr], [sort_values], [round]) is embedded as
    those libraries compute it; scipy's Student-t distribution and Python's
    float formatting are parameters. *)

From Stdlib Require Import ZArith Floats String List Bool Lia.
From Stdlib Require Import Sorting.Sorted Sorting.Permutation.
Import ListNotations.

Set Warnings "-inexact-float".

Open Scope float_scope.

(** ** Numbers *)

Module Num.

(** A Python [int] turned into a [float64], as happens when an int meets a
    [float64] in an arithmetic operation: the nearest float, ties to even
    (exact below [2^53], as every [len()] of a table is). *)
Definition float_of_int (z : Z) : float :=
  SF2Prim (binary_normalize prec emax z 0 false).

(** [np.isinf]. *)
Definition isinf (x : float) : bool := abs x =? infinity.

(** [np.isnan], [pd.isna] on a float. *)
Definition isnan (x : float) : bool := negb (x =? x).

(** [np.isfinite]. *)
Definition isfinite (x : float) : bool := negb (isnan x || isinf x).

Definition two52 : float := 4503599627370496.

(** C's [rint] under the default rounding mode (to nearest, ties to even):
    below [2^52] in magnitude, adding and subtracting [2^52] leaves the
    nearest integer; from [2^52] on every float is an integer already. *)
Definition rint (x : float) : float :=
  if abs x <? two52 then
    if x =? 0 then x
    else if x <? 0 then - ((- x + two52) - two52)
    else (x + two52) - two52
  else x.

(** [round(x, 2)] on a [float64]: numpy scales by [10**2], rounds to the
    nearest integer with [rint] and scales back. *)
Definition round2 (x : float) : float := rint (x * 100) / 100.

End Num.

(** ** The significance functions of [correlation_significance.py] *)

(** [calculate_t_statistic(r, n)], lines 97-114 (the [print] left out).
    [r**2] is the power of the C library, [pow(r, 2.0)], which Python's and
    numpy's floats call and which is not correctly rounded: [pow] stands for
    it. *)
Definition calculate_t_statistic_pow (pow : float -> float -> float)
    (r : float) (n : Z) : float :=
  if abs r =? 1 then
    if 0 <? r then infinity else neg_infinity
  else
    r * sqrt (Num.float_of_int (n - 2) / (1 - pow r 2)).

(** The function with the square as one rounded multiplication: the scripts
    call it on coefficients rounded to two decimals only. *)
Definition calculate_t_statistic (r : float) (n : Z) : float :=
  calculate_t_statistic_pow (fun x _ => x * x) r n.

(** [get_significance(p)], lines 136-147. *)
Definition get_significance (p : float) : string :=
  if p <? 0.001 then "***"%string
  else if p <? 0.01 then "**"%string
  else if p <? 0.05 then "*"%string
  else "ns"%string.

(** [get_strength_description(r, p)], lines 150-195. *)
Definition get_strength_description (r p : float) : string :=
  let abs_r := abs r in
  let strength :=
    if 0.70 <? abs_r then "Very strong"%string
    else if 0.50 <? abs_r then "Strong"%string
    else if 0.30 <? abs_r then "Moderate"%string
    else "Weak"%string in
  let direction :=
    if 0 <? r then "positive"%string else "negative"%string in
  let significance :=
    if p <? 0.001 then "highly significant"%string
    else if p <? 0.01 then "significant"%string
    else if p <? 0.05 then "marginally significant"%string
    else "not significant"%string in
  (strength ++ " " ++ direction ++ " correlation, " ++ significance)%string.

Section Distribution.

(** The Student-t distribution comes from scipy: [t_cdf x df] stands for
    [stats.t.cdf(x, df)] (and, further down, [t_ppf q df] for
    [stats.t.ppf(q, df)]). *)
Variable t_cdf : float -> Z -> float.

(** [get_p_value(t, df)], lines 117-133. *)
Definition get_p_value (t : float) (df : Z) : float :=
  if Num.isinf t then 0
  else 2 * (1 - t_cdf (abs t) df).

End Distribution.


(** ** Errors raised by pandas *)

Inductive error : Type :=
| ValueError (msg : string)
| KeyError (label : string)
| IndexError.

Definition result (A : Type) : Type := (error + A)%type.

Definition ok {A : Type} (a : A) : result A := inr a.
Definition raise {A : Type} (e : error) : result A := inl e.

Definition bind {A B : Type} (c : result A) (k : A -> result B) : result B :=
  match c with
  | inl e => inl e
  | inr a => k a
  end.

Notation "x <- c ;; k" := (bind c (fun x => k))
  (at level 61, c at next level, right associativity).

Fixpoint mapM {A B : Type} (f : A -> result B) (l : list A) : result (list B) :=
  match l with
  | [] => ok []
  | a :: l' => b <- f a ;; bs <- mapM f l' ;; ok (b :: bs)
  end.

(** ** The long table *)

(** One row of the indicator table, after the numeric coercion of
    [value], [se] and [N]; the columns no computation reads are left out.
    [sample_N] is the column [N]. *)
Record IndicatorRecord : Type := {
  cut : string;
  subcut : string;
  indicator : string;
  value : float;
  se : float;
  sample_N : float
}.

(** [series.isin(labels)] on one label. *)
Definition isin (label : string) (labels : list string) : bool :=
  existsb (String.eqb label) labels.

(** *** [analysis.py] *)

(** [get_value(cut, subcut, indicator)], lines 7-19, with the module's [df]
    as a parameter. [None] is Python's [None]. *)
Definition get_value (df : list IndicatorRecord) (cut_ subcut_ indicator_ : string)
  : option float :=
  let row :=
    if ((cut_ =? "All") && (subcut_ =? "All"))%string then
      filter (fun x => ((cut x =? "All") && (subcut x =? "All")
                        && (indicator x =? indicator_))%string) df
    else
      filter (fun x => ((cut x =? cut_) && (subcut x =? subcut_)
                        && (indicator x =? indicator_))%string) df in
  match row with
  | x :: _ => Some (value x)
  | [] => None
  end.

(** *** [analyze_data.py] *)

(** A row of the frame [extract_metrics] returns: the columns
    [indicator], [value], [se], [N]. *)
Record Metric : Type := {
  m_indicator : string;
  m_value : float;
  m_se : float;
  m_N : float
}.

(** [extract_metrics(df, indicators, cut, subcut)], lines 15-17. *)
Definition extract_metrics (df : list IndicatorRecord) (indicators : list string)
    (cut_ subcut_ : string) : list Metric :=
  let filtered :=
    filter (fun x => ((cut x =? cut_) && (subcut x =? subcut_))%string
                     && isin (indicator x) indicators) df in
  map (fun x => {| m_indicator := indicator x; m_value := value x;
                   m_se := se x; m_N := sample_N x |}) filtered.

(** ** Pivoting *)

Definition Segment : Type := (string * string)%type.

Definition segment_of (x : IndicatorRecord) : Segment := (cut x, subcut x).

Definition segment_eqb (a b : Segment) : bool :=
  ((fst a =? fst b) && (snd a =? snd b))%string.

(** The key of [drop_duplicates(subset=['cut', 'subcut', 'indicator'])]. *)
Definition key_eqb (x y : IndicatorRecord) : bool :=
  segment_eqb (segment_of x) (segment_of y) && (indicator x =? indicator y)%string.

(** [drop_duplicates(subset=..., keep='first')]: a row goes when a row with its
    key came before it. *)
Fixpoint drop_duplicates_from (seen rows : list IndicatorRecord)
  : list IndicatorRecord :=
  match rows with
  | [] => []
  | x :: rest =>
      if existsb (key_eqb x) seen then drop_duplicates_from seen rest
      else x :: drop_duplicates_from (x :: seen) rest
  end.

Definition drop_duplicates (rows : list IndicatorRecord) : list IndicatorRecord :=
  drop_duplicates_from [] rows.

(** Whether some key occurs twice. *)
Fixpoint has_duplicates (rows : list IndicatorRecord) : bool :=
  match rows with
  | [] => false
  | x :: rest => existsb (key_eqb x) rest || has_duplicates rest
  end.

(** The labels of an axis after a pivot: each once, in sorted order. *)
Section SortedLabels.

Context {A : Type} (compare : A -> A -> comparison).

Fixpoint insert_label (a : A) (l : list A) : list A :=
  match l with
  | [] => [a]
  | b :: l' =>
      match compare a b with
      | Lt => a :: l
      | Eq => l
      | Gt => b :: insert_label a l'
      end
  end.

Definition sorted_labels (l : list A) : list A :=
  fold_right insert_label [] l.

End SortedLabels.

Definition segment_compare (a b : Segment) : comparison :=
  match String.compare (fst a) (fst b) with
  | Eq => String.compare (snd a) (snd b)
  | c => c
  end.

(** A row of the wide table: the segment and one value per indicator column,
    in the order of the table's columns. *)
Record WideRow : Type := {
  w_cut : string;
  w_subcut : string;
  w_values : list float
}.

(** The wide table: the indicator columns' labels and the rows. *)
Record Wide : Type := {
  w_columns : list string;
  w_rows : list WideRow
}.

(** Whether a row belongs to a segment and an indicator. *)
Definition matches (seg : Segment) (label : string) (x : IndicatorRecord) : bool :=
  segment_eqb (segment_of x) seg && (indicator x =? label)%string.

(** The value the long table holds for a segment and an indicator: that of the
    first matching row, NaN when there is none. *)
Definition lookup_value (rows : list IndicatorRecord) (seg : Segment) (label : string)
  : float :=
  match find (matches seg label) rows with
  | Some x => value x
  | None => nan
  end.

(** [df.pivot(index=['cut', 'subcut'], columns='indicator', values='value')
    .reset_index()]: refuses duplicate keys; otherwise one row per segment and
    one column per indicator present, both sorted, NaN where the long table
    has no row. *)
Definition pivot (rows : list IndicatorRecord) : result Wide :=
  if has_duplicates rows then
    raise (ValueError "Index contains duplicate entries, cannot reshape")
  else
    let columns := sorted_labels String.compare (map indicator rows) in
    let segments := sorted_labels segment_compare (map segment_of rows) in
    ok {| w_columns := columns;
          w_rows :=
            map (fun seg =>
                   {| w_cut := fst seg; w_subcut := snd seg;
                      w_values := map (lookup_value rows seg) columns |})
                segments |}.

(** Position of a label among the columns. *)
Fixpoint index_of (label : string) (columns : list string) : option nat :=
  match columns with
  | [] => None
  | c :: columns' =>
      if (c =? label)%string then Some O
      else option_map S (index_of label columns')
  end.

(** The cell of a row under a column label; [None] when the table has no such
    column. *)
Definition cell (w : Wide) (row : WideRow) (label : string) : option float :=
  match index_of label (w_columns w) with
  | Some i => Some (nth i (w_values row) nan)
  | None => None
  end.

(** The first of the labels the table does not have. *)
Definition missing_label (w : Wide) (labels : list string) : option string :=
  find (fun l => match index_of l (w_columns w) with
                 | Some _ => false
                 | None => true
                 end) labels.

(** Whether a row has a number under one of the labels. *)
Definition has_value (w : Wide) (labels : list string) (row : WideRow) : bool :=
  existsb (fun l => match cell w row l with
                    | Some v => negb (Num.isnan v)
                    | None => false
                    end) labels.

(** [w.dropna(how='all', subset=labels)]. *)
Definition dropna_all (w : Wide) (labels : list string) : result Wide :=
  match missing_label w labels with
  | Some l => raise (KeyError l)
  | None =>
      ok {| w_columns := w_columns w;
            w_rows := filter (has_value w labels) (w_rows w) |}
  end.

(** [all_groups[all_groups['indicator'].isin(corr_indicators)]]: the rows with
    a subcut and a requested indicator, before deduplication. *)
Definition requested (data : list IndicatorRecord) (corr_indicators : list string)
  : list IndicatorRecord :=
  let all_groups := filter (fun x => negb (subcut x =? "")%string) data in
  filter (fun x => isin (indicator x) corr_indicators) all_groups.

(** Lines 84-96 of [analyze_data.py] and 56-66 of
    [correlation_significance.py]: from the long table to [pivoted]. *)
Definition make_pivoted (data : list IndicatorRecord) (corr_indicators : list string)
  : result Wide :=
  let filtered := drop_duplicates (requested data corr_indicators) in
  pivoted <- pivot filtered ;;
  dropna_all pivoted corr_indicators.

(** The values of the column at a position. *)
Definition column (w : Wide) (i : nat) : list float :=
  map (fun row => nth i (w_values row) nan) (w_rows w).

(** [w[labels]] as a matrix, one list per column. *)
Definition select_columns (w : Wide) (labels : list string)
  : result (list (list float)) :=
  mapM (fun l => match index_of l (w_columns w) with
                 | Some i => ok (column w i)
                 | None => raise (KeyError l)
                 end) labels.

(** ** Pearson correlation, as [DataFrame.corr()] computes it

    pandas' [nancorr]: for a pair of columns, one pass of Welford's update
    over the rows where both values are finite; the result is NaN with no
    such row or a zero divisor, and is clipped to [[-1, 1]] otherwise. *)

Record Welford : Type := {
  nobs : Z;
  meanx : float;
  meany : float;
  ssqdm_x : float;
  ssqdm_y : float;
  covxy : float
}.

Definition welford_init : Welford :=
  {| nobs := 0; meanx := 0; meany := 0; ssqdm_x := 0; ssqdm_y := 0; covxy := 0 |}.

Definition welford_step (st : Welford) (v : float * float) : Welford :=
  let '(vx, vy) := v in
  if Num.isfinite vx && Num.isfinite vy then
    let nobs' := (nobs st + 1)%Z in
    let dx := vx - meanx st in
    let dy := vy - meany st in
    let meanx' := meanx st + 1 / Num.float_of_int nobs' * dx in
    let meany' := meany st + 1 / Num.float_of_int nobs' * dy in
    {| nobs := nobs'; meanx := meanx'; meany := meany';
       ssqdm_x := ssqdm_x st + (vx - meanx') * dx;
       ssqdm_y := ssqdm_y st + (vy - meany') * dy;
       covxy := covxy st + (vx - meanx') * dy |}
  else st.

Definition clip (val : float) : float :=
  if 1 <? val then 1
  else if val <? -1 then -1
  else val.

Definition nancorr_pair (xs ys : list float) : float :=
  let st := fold_left welford_step (combine xs ys) welford_init in
  if (nobs st <? 1)%Z then nan
  else
    let divisor := sqrt (ssqdm_x st * ssqdm_y st) in
    if negb (divisor =? 0) then clip (covxy st / divisor)
    else nan.

(** The matrix: the entry of columns [xi >= yi] is computed once and stored
    at [(xi, yi)] and at [(yi, xi)]. *)
Definition nancorr (mat : list (list float)) : list (list float) :=
  let K := seq 0 (length mat) in
  map (fun i =>
         map (fun j =>
                nancorr_pair (nth (Nat.max i j) mat []) (nth (Nat.min i j) mat []))
             K)
      K.

(** A correlation frame: the labels of both axes and the entries. *)
Record CorrMatrix : Type := {
  c_labels : list string;
  c_entries : list (list float)
}.

(** [w[labels].corr()]. *)
Definition corr (w : Wide) (labels : list string) : result CorrMatrix :=
  mat <- select_columns w labels ;;
  ok {| c_labels := labels; c_entries := nancorr mat |}.

(** The entry at a row and a column position. *)
Definition entry (entries : list (list float)) (i j : nat) : float :=
  nth j (nth i entries []) nan.

(** [m.loc[a, b]]. *)
Definition loc (m : CorrMatrix) (a b : string) : result float :=
  match index_of a (c_labels m), index_of b (c_labels m) with
  | Some i, Some j => ok (entry (c_entries m) i j)
  | None, _ => raise (KeyError a)
  | _, None => raise (KeyError b)
  end.



(** ** Sorting a frame by a float column *)

(** [l[mask]]: the elements under a true flag. *)
Fixpoint select_mask {A : Type} (mask : list bool) (l : list A) : list A :=
  match mask, l with
  | b :: mask', a :: l' =>
      if b then a :: select_mask mask' l' else select_mask mask' l'
  | _, _ => []
  end.

(** [l[indexer]]: the elements at the given positions. *)
Definition take {A : Type} (l : list A) (indexer : list nat) : result (list A) :=
  mapM (fun i => match nth_error l i with
                 | Some a => ok a
                 | None => raise IndexError
                 end) indexer.

Section Sorting.

(** [items.argsort(kind='quicksort')], numpy's sort: the positions of the
    items in ascending order.  The kind the scripts leave at its default
    promises no order among equal items. *)
Variable argsort : list float -> list nat.

(** pandas' [nargsort(items, kind, ascending, na_position='last')]. *)
Definition nargsort (items : list float) (ascending : bool) : result (list nat) :=
  let idx := seq 0 (length items) in
  let mask := map Num.isnan items in
  let non_nans := select_mask (map negb mask) items in
  let non_nan_idx := select_mask (map negb mask) idx in
  let nan_idx := select_mask mask idx in
  let non_nans := if ascending then non_nans else rev non_nans in
  let non_nan_idx := if ascending then non_nan_idx else rev non_nan_idx in
  indexer <- take non_nan_idx (argsort non_nans) ;;
  let indexer := if ascending then indexer else rev indexer in
  ok (indexer ++ nan_idx).

(** [frame.sort_values(column, ascending=...)], the column given by [key]. *)
Definition sort_values {A : Type} (key : A -> float) (ascending : bool)
    (frame : list A) : result (list A) :=
  indexer <- nargsort (map key frame) ascending ;;
  take frame indexer.

End Sorting.

(** ** numpy's [argsort] of kind [quicksort]

    The generic (not vectorised) routine of [npysort]: an introsort over an
    array of positions, with median-of-three partitions down to ranges of at
    most 17 positions, which are sorted by insertion, and a heap sort for a
    range whose partition depth is used up. *)

Module Numpy.

(** [Tag::less] on doubles: NaN sorts last. *)
Definition less (a b : float) : bool :=
  (a <? b) || (Num.isnan b && negb (Num.isnan a)).

Definition get (a : list nat) (i : nat) : nat := nth i a O.

Fixpoint set (a : list nat) (i x : nat) : list nat :=
  match a, i with
  | [], _ => []
  | _ :: a', O => x :: a'
  | y :: a', S i' => y :: set a' i' x
  end.

Definition swap (a : list nat) (i j : nat) : list nat :=
  set (set a i (get a j)) j (get a i).

Section Kernel.

Variable v : list float.

(** [v[*p]]. *)
Definition at_ (a : list nat) (p : nat) : float := nth (get a p) v nan.

(** [do ++pi; while (less(v[*pi], vp));] *)
Fixpoint scan_up (fuel : nat) (a : list nat) (vp : float) (pi : nat) : nat :=
  match fuel with
  | O => pi
  | S fuel' =>
      let pi := S pi in
      if less (at_ a pi) vp then scan_up fuel' a vp pi else pi
  end.

(** [do --pj; while (less(vp, v[*pj]));] *)
Fixpoint scan_down (fuel : nat) (a : list nat) (vp : float) (pj : nat) : nat :=
  match fuel with
  | O => pj
  | S fuel' =>
      let pj := Nat.pred pj in
      if less vp (at_ a pj) then scan_down fuel' a vp pj else pj
  end.

(** The [for (;;)] loop of the partition. *)
Fixpoint exchange (fuel : nat) (a : list nat) (vp : float) (pi pj : nat)
  : list nat * nat :=
  match fuel with
  | O => (a, pi)
  | S fuel' =>
      let pi := scan_up (length a) a vp pi in
      let pj := scan_down (length a) a vp pj in
      if (pj <=? pi)%nat then (a, pi)
      else exchange fuel' (swap a pi pj) vp pi pj
  end.

(** One partition of the range [pl .. pr]: the array after it and the
    position of the pivot. *)
Definition partition (a : list nat) (pl pr : nat) : list nat * nat :=
  let pm := (pl + Nat.div2 (pr - pl))%nat in
  let a := if less (at_ a pm) (at_ a pl) then swap a pm pl else a in
  let a := if less (at_ a pr) (at_ a pm) then swap a pr pm else a in
  let a := if less (at_ a pm) (at_ a pl) then swap a pm pl else a in
  let vp := at_ a pm in
  let pj := (pr - 1)%nat in
  let a := swap a pm pj in
  let '(a, pi) := exchange (length a) a vp pl pj in
  (swap a pi (pr - 1)%nat, pi).

(** The [while] loop of the insertion sort: the position where [vi] goes,
    the positions above it shifted up. *)
Fixpoint shift_up (fuel : nat) (a : list nat) (pl pj : nat) (vp : float)
  : list nat * nat :=
  match fuel with
  | O => (a, pj)
  | S fuel' =>
      if (pl <? pj)%nat && less vp (at_ a (pj - 1)%nat)
      then shift_up fuel' (set a pj (get a (pj - 1)%nat)) pl (pj - 1)%nat vp
      else (a, pj)
  end.

Definition insertion_sort (a : list nat) (pl pr : nat) : list nat :=
  fold_left (fun a pi =>
               let vi := get a pi in
               let '(a, pj) := shift_up (length a) a pl pi (nth vi v nan) in
               set a pj vi)
            (seq (S pl) (pr - pl)) a.

(** [aheapsort_] on the [n] positions from [pl]: the heap is indexed from
    one, [h k] being the position of its [k]-th cell. *)
Fixpoint sift (fuel : nat) (a : list nat) (h : nat -> nat) (tmp i j n : nat)
  : list nat :=
  match fuel with
  | O => set a (h i) tmp
  | S fuel' =>
      if (j <=? n)%nat then
        let j :=
          if (j <? n)%nat && less (at_ a (h j)) (at_ a (h (S j))) then S j else j in
        if less (nth tmp v nan) (at_ a (h j))
        then sift fuel' (set a (h i) (get a (h j))) h tmp j (j + j)%nat n
        else set a (h i) tmp
      else set a (h i) tmp
  end.

Definition heapsort (a : list nat) (pl n : nat) : list nat :=
  let h := fun k => (pl + k - 1)%nat in
  let a :=
    fold_left (fun a l => sift (length a) a h (get a (h l)) l (l + l)%nat n)
              (rev (seq 1 (Nat.div2 n))) a in
  fold_left (fun a m =>
               let tmp := get a (h m) in
               let a := set a (h m) (get a (h 1%nat)) in
               sift (length a) a h tmp 1%nat 2%nat (m - 1)%nat)
            (rev (seq 2 (n - 1))) a.

(** The outer loop: a range popped from the stack is heap-sorted when its
    depth is used up; otherwise it is partitioned while it has more than 17
    positions, the larger side pushed and the smaller one carried on with,
    and sorted by insertion at the end. *)
Fixpoint quicksort_range (fuel : nat) (checked : bool) (a : list nat)
    (pl pr : nat) (cdepth : Z) : list nat :=
  match fuel with
  | O => a
  | S fuel' =>
      if checked && (cdepth <? 0)%Z then heapsort a pl (pr - pl + 1)%nat
      else if (16 <? pr - pl)%nat then
        let '(a, pi) := partition a pl pr in
        let cdepth := (cdepth - 1)%Z in
        if (pi - pl <? pr - pi)%nat then
          let a := quicksort_range fuel' false a pl (pi - 1)%nat cdepth in
          quicksort_range fuel' true a (pi + 1)%nat pr cdepth
        else
          let a := quicksort_range fuel' false a (pi + 1)%nat pr cdepth in
          quicksort_range fuel' true a pl (pi - 1)%nat cdepth
      else insertion_sort a pl pr
  end.

End Kernel.

(** [items.argsort(kind='quicksort')]. *)
Definition argsort (items : list float) : list nat :=
  let num := length items in
  quicksort_range items (S num) true (seq 0 num) 0 (num - 1)%nat
                  (2 * Z.of_nat (Nat.log2 num))%Z.

End Numpy.

(** ** The analysis of [correlation_significance.py] *)

(** The constants of the script, lines 73-88 and 211-229. *)
Definition corr_indicators : list string :=
  ["t5"; "t7"; "t9"; "perf1"; "perf2"; "perf3";
   "bready_t1"; "fin14"; "bready_fin28"; "bready_fin31"]%string.

Definition indicator_names : list (string * string) :=
  [("t5", "Website adoption");
   ("t7", "Product innovation");
   ("t9", "Process innovation");
   ("perf1", "Sales growth");
   ("perf2", "Employment growth");
   ("perf3", "Productivity growth");
   ("bready_t1", "Quality certification");
   ("fin14", "Bank loan access");
   ("bready_fin28", "E-payment sales");
   ("bready_fin31", "E-payment purchases")]%string.

Definition key_relationships : list (string * string * string) :=
  [("bready_fin28", "perf3", "E-payment sales ↔ Productivity growth");
   ("bready_fin31", "perf3", "E-payment purchases ↔ Productivity growth");
   ("perf1", "perf3", "Sales growth ↔ Productivity growth");
   ("bready_fin28", "bready_fin31", "E-payment sales ↔ E-payment purchases");
   ("bready_fin28", "perf1", "E-payment sales ↔ Sales growth");
   ("t7", "t9", "Product innovation ↔ Process innovation");
   ("t9", "fin14", "Process innovation ↔ Bank loan access");
   ("t5", "bready_t1", "Website ↔ Quality certification");
   ("bready_fin31", "perf1", "E-payment purchases ↔ Sales growth");
   ("t5", "perf3", "Website ↔ Productivity growth");
   ("t5", "bready_fin28", "Website ↔ E-payment sales");
   ("t5", "perf2", "Website ↔ Employment growth");
   ("perf2", "perf3", "Employment growth ↔ Productivity growth");
   ("bready_fin31", "perf2", "E-payment purchases ↔ Employment growth");
   ("t7", "perf3", "Product innovation ↔ Productivity growth");
   ("t7", "perf1", "Product innovation ↔ Sales growth");
   ("t5", "t7", "Website ↔ Product innovation")]%string.

(** [d[k]] on a dict. *)
Fixpoint dict_get (d : list (string * string)) (k : string) : result string :=
  match d with
  | [] => raise (KeyError k)
  | (k', v) :: d' => if (k' =? k)%string then ok v else dict_get d' k
  end.

(** A row of [results], lines 256-264. *)
Record ResultRow : Type := {
  Relationship : string;
  res_r : float;
  t_value : float;
  p_value : string;
  p_numeric : float;
  Significance : string;
  Interpretation : string
}.

(** A row of [detailed_results], lines 412-422. *)
Record DetailedRow : Type := {
  Indicator_1 : string;
  Name_1 : string;
  Indicator_2 : string;
  Name_2 : string;
  det_r : float;
  det_t : float;
  det_p : float;
  det_sig : string;
  det_significant : string
}.

(** [enumerate(l)]. *)
Definition enumerate {A : Type} (l : list A) : list (nat * A) :=
  combine (seq 0 (length l)) l.

(** The pairs the nested loops of lines 403-405 reach: [i < j]. *)
Definition upper_pairs (labels : list string) : list (string * string) :=
  flat_map (fun '(i, ind1) =>
              flat_map (fun '(j, ind2) =>
                          if (i <? j)%nat then [(ind1, ind2)] else [])
                       (enumerate labels))
           (enumerate labels).

Section Analysis.

Variable t_cdf : float -> Z -> float.
Variable t_ppf : float -> Z -> float.

(** [f'{p:.3f}']. *)
Variable format_3f : float -> string.

Variable argsort : list float -> list nat.

(** The script with its three constants as parameters. *)
Variable indicators : list string.
Variable names : list (string * string).
Variable relationships : list (string * string * string).

(** The body of the loop of lines 232-264. *)
Definition result_row (corr_matrix : CorrMatrix) (n df : Z)
    (rel : string * string * string) : result ResultRow :=
  let '(ind1, ind2, description) := rel in
  r <- loc corr_matrix ind1 ind2 ;;
  let r := Num.round2 r in
  let t := calculate_t_statistic r n in
  let p := get_p_value t_cdf t df in
  let sig := get_significance p in
  let interpretation := get_strength_description r p in
  let p_display :=
    if p <? 0.001 then "<0.001"%string
    else if p <? 0.01 then "<0.01"%string
    else if p <? 0.05 then "<0.05"%string
    else format_3f p in
  ok {| Relationship := description;
        res_r := Num.round2 r;
        t_value := Num.round2 t;
        p_value := p_display;
        p_numeric := p;
        Significance := sig;
        Interpretation := interpretation |}.

(** The body of the loop of lines 403-422. *)
Definition detailed_row (corr_matrix : CorrMatrix) (n df : Z) (critical_t : float)
    (pair : string * string) : result DetailedRow :=
  let '(ind1, ind2) := pair in
  r <- loc corr_matrix ind1 ind2 ;;
  let r := Num.round2 r in
  let t := calculate_t_statistic r n in
  let p := get_p_value t_cdf t df in
  let sig := get_significance p in
  name1 <- dict_get names ind1 ;;
  name2 <- dict_get names ind2 ;;
  ok {| Indicator_1 := ind1;
        Name_1 := name1;
        Indicator_2 := ind2;
        Name_2 := name2;
        det_r := Num.round2 r;
        det_t := Num.round2 t;
        det_p := p;
        det_sig := sig;
        det_significant :=
          if critical_t <? abs t then "Yes"%string else "No"%string |}.

(** What the script computes from [pivoted]. *)
Record Report : Type := {
  corr_matrix : CorrMatrix;
  n : Z;
  df : Z;
  critical_t : float;
  results : list ResultRow;
  results_df : list ResultRow;
  detailed_results : list DetailedRow;
  detailed_df : list DetailedRow
}.

(** [pd.DataFrame(rows)] followed by a sort on one of its columns: a frame
    made from no row has no column to sort on. *)
Definition sort_frame {A : Type} (column : string) (key : A -> float)
    (rows : list A) : result (list A) :=
  match rows with
  | [] => raise (KeyError column)
  | _ :: _ => sort_values argsort key false rows
  end.

(** Lines 90-91, 197-204, 231-272 and 401-425. *)
Definition analysis (pivoted : Wide) : result Report :=
  corr_matrix <- corr pivoted indicators ;;
  let n := Z.of_nat (length (w_rows pivoted)) in
  let df := (n - 2)%Z in
  let critical_t := t_ppf 0.975 df in
  results <- mapM (result_row corr_matrix n df) relationships ;;
  results_df <- sort_frame "t-value" (fun row => abs (t_value row)) results ;;
  detailed_results <-
    mapM (detailed_row corr_matrix n df critical_t) (upper_pairs indicators) ;;
  detailed_df <- sort_frame "t" (fun row => abs (det_t row)) detailed_results ;;
  ok {| corr_matrix := corr_matrix; n := n; df := df; critical_t := critical_t;
        results := results; results_df := results_df;
        detailed_results := detailed_results; detailed_df := detailed_df |}.

End Analysis.

(** The script as it stands, on its own constants. *)
Definition correlation_significance (t_cdf t_ppf : float -> Z -> float)
    (format_3f : float -> string) (argsort : list float -> list nat)
    (pivoted : Wide) : result Report :=
  analysis t_cdf t_ppf format_3f argsort
           corr_indicators indicator_names key_relationships pivoted.

(** ** The claims' vocabulary *)

(** The strength tier in the words of the docstring: by intervals of [|r|]. *)
Definition strength_tier (r : float) : string :=
  if 0.70 <? abs r then "Very strong"%string
  else if (0.50 <? abs r) && (abs r <=? 0.70) then "Strong"%string
  else if (0.30 <? abs r) && (abs r <=? 0.50) then "Moderate"%string
  else "Weak"%string.

Definition direction_word (r : float) : string :=
  if 0 <? r then "positive"%string else "negative"%string.

Definition significance_phrase (p : float) : string :=
  if p <? 0.001 then "highly significant"%string
  else if p <? 0.01 then "significant"%string
  else if p <? 0.05 then "marginally significant"%string
  else "not significant"%string.

(** The number of rows with a finite value in both columns: the sample a
    pair's correlation is computed on. *)
Definition complete_count (xs ys : list float) : Z :=
  Z.of_nat (length (filter (fun v => Num.isfinite (fst v) && Num.isfinite (snd v))
                           (combine xs ys))).



(** Descending order of a float column, missing values last: no number is
    followed by a larger number, and nothing but NaN follows a NaN. *)
Inductive descending_nan_last : list float -> Prop :=
| desc_nil : descending_nan_last []
| desc_number k l :
    Num.isnan k = false ->
    Forall (fun k' => Num.isnan k' = true \/ (k' <=? k) = true) l ->
    descending_nan_last l ->
    descending_nan_last (k :: l)
| desc_nan k l :
    Num.isnan k = true ->
    Forall (fun k' => Num.isnan k' = true) l ->
    descending_nan_last (k :: l).

(** A sort keeps ties in input order when, for every key, the rows with
    that key come out in the order they went in. *)
Definition ties_in_input_order {A : Type} (key : A -> float) (input output : list A) : Prop :=
  forall k, filter (fun a => key a =? k) output = filter (fun a => key a =? k) input.

(** What numpy promises of [argsort] on the items it is given: a permutation
    of the positions that puts the items in ascending order. *)
Definition sorts (argsort : list float -> list nat) (items : list float) : Prop :=
  Permutation (argsort items) (seq 0 (length items)) /\
  StronglySorted (fun i j => (nth i items nan <=? nth j items nan) = true)
                 (argsort items).

(** The same as a test, to run on given items. *)
Fixpoint ascending_from (items : list float) (k : float) (positions : list nat) : bool :=
  match positions with
  | [] => true
  | j :: positions' =>
      (k <=? nth j items nan) && ascending_from items k positions'
  end.

Fixpoint ascending (items : list float) (positions : list nat) : bool :=
  match positions with
  | [] => true
  | i :: positions' =>
      ascending_from items (nth i items nan) positions'
      && ascending items positions'
  end.

Definition sortsb (argsort : list float -> list nat) (items : list float) : bool :=
  let positions := argsort items in
  (length positions =? length items)%nat
  && forallb (fun i => existsb (Nat.eqb i) positions) (seq 0 (length items))
  && ascending items positions.

(** ** Tables for the examples *)

(** The scenario of the specification: no row for [bready_t1] in the segment
    of large firms. *)
Definition scenario_table : list IndicatorRecord :=
  [ {| cut := "Size"; subcut := "Large (100+)"; indicator := "t5";
       value := 90; se := 2.5; sample_N := 120 |};
    {| cut := "Size"; subcut := "Small (5-19)"; indicator := "bready_t1";
       value := 12.5; se := 1.5; sample_N := 300 |};
    {| cut := "All"; subcut := "All"; indicator := "bready_t1";
       value := 20; se := 1; sample_N := 1000 |} ]%string.

(** Two rows with one key. *)
Definition duplicate_table : list IndicatorRecord :=
  [ {| cut := "A"; subcut := "B"; indicator := "X";
       value := 1; se := nan; sample_N := nan |};
    {| cut := "A"; subcut := "B"; indicator := "X";
       value := 2; se := nan; sample_N := nan |} ]%string.

(** A key that comes twice after another segment. *)
Definition later_duplicate_table : list IndicatorRecord :=
  [ {| cut := "A"; subcut := "B"; indicator := "X";
       value := 1; se := nan; sample_N := nan |};
    {| cut := "A"; subcut := "C"; indicator := "X";
       value := 2; se := nan; sample_N := nan |};
    {| cut := "A"; subcut := "C"; indicator := "X";
       value := 3; se := nan; sample_N := nan |} ]%string.

(** A segment with numbers and a segment with none. *)
Definition missing_table : list IndicatorRecord :=
  [ {| cut := "Size"; subcut := "Small (5-19)"; indicator := "t5";
       value := 40; se := 1; sample_N := 300 |};
    {| cut := "Size"; subcut := "Large (100+)"; indicator := "t5";
       value := nan; se := nan; sample_N := nan |};
    {| cut := "Size"; subcut := "Small (5-19)"; indicator := "perf3";
       value := 3; se := 1; sample_N := 300 |};
    {| cut := "Size"; subcut := "Large (100+)"; indicator := "perf3";
       value := nan; se := nan; sample_N := nan |} ]%string.

(** A wide table whose column [t5] is constant. *)
Definition constant_wide : Wide :=
  {| w_columns := ["perf3"; "t5"]%string;
     w_rows :=
       [ {| w_cut := "Size"; w_subcut := "Large (100+)"; w_values := [9; 50] |};
         {| w_cut := "Size"; w_subcut := "Medium (20-99)"; w_values := [6; 50] |};
         {| w_cut := "Size"; w_subcut := "Small (5-19)"; w_values := [3; 50] |} ] |}.

(** Five segments, one of them without a value for [perf3]. *)
Definition gappy_wide : Wide :=
  {| w_columns := ["perf3"; "t5"]%string;
     w_rows :=
       [ {| w_cut := "Exporter Type"; w_subcut := "Non-exporter";
            w_values := [5; 60] |};
         {| w_cut := "Ownership"; w_subcut := "Foreign";
            w_values := [nan; 55] |};
         {| w_cut := "Size"; w_subcut := "Large (100+)"; w_values := [9; 90] |};
         {| w_cut := "Size"; w_subcut := "Medium (20-99)"; w_values := [6; 70] |};
         {| w_cut := "Size"; w_subcut := "Small (5-19)"; w_values := [3; 40] |} ] |}.

(** The script's constants cut down to the two indicators of [gappy_wide]. *)
Definition two_indicators : list string := ["t5"; "perf3"]%string.

Definition two_names : list (string * string) :=
  [("t5", "Website adoption"); ("perf3", "Productivity growth")]%string.

Definition one_relationship : list (string * string * string) :=
  [("t5", "perf3", "Website and productivity growth")]%string.

(** A pivoted table of two segments and the ten indicators of the script:
    every pair of columns is two points, hence perfectly correlated. *)
Definition two_segment_wide : Wide :=
  {| w_columns :=
       ["bready_fin28"; "bready_fin31"; "bready_t1"; "fin14"; "perf1"; "perf2";
        "perf3"; "t5"; "t7"; "t9"]%string;
     w_rows :=
       [ {| w_cut := "Exporter Type";
            w_subcut := "Direct exports are 10% or more of sales";
            w_values := [35; 30; 25; 40; 12; 6; 9; 80; 45; 50] |};
         {| w_cut := "Exporter Type"; w_subcut := "Non-exporter";
            w_values := [20; 18; 10; 33; 8; 4; 5; 55; 30; 28] |} ] |}.

(** A pivoted table of six segments and the ten indicators of the script,
    with correlations of all strengths and both signs. *)
Definition varied_wide : Wide :=
  {| w_columns :=
       ["bready_fin28"; "bready_fin31"; "bready_t1"; "fin14"; "perf1"; "perf2";
        "perf3"; "t5"; "t7"; "t9"]%string;
     w_rows :=
       [ {| w_cut := "Exporter Type";
            w_subcut := "Direct exports are 10% or more of sales";
            w_values := [35; 30; 25; 40; 12; 6; 9; 80; 45; 50] |};
         {| w_cut := "Exporter Type"; w_subcut := "Non-exporter";
            w_values := [20; 18; 10; 33; 8; 4; 5; 55; 30; 28] |};
         {| w_cut := "Ownership"; w_subcut := "Foreign";
            w_values := [41; 22; 31; 27; 3; 9; 2; 91; 38; 61] |};
         {| w_cut := "Size"; w_subcut := "Large (100+)";
            w_values := [38; 35; 40; 52; 5; 1; 7; 90; 52; 47] |};
         {| w_cut := "Size"; w_subcut := "Medium (20-99)";
            w_values := [27; 29; 19; 36; 9; 7; 11; 70; 33; 44] |};
         {| w_cut := "Size"; w_subcut := "Small (5-19)";
            w_values := [15; 24; 8; 30; 14; 3; 4; 40; 36; 25] |} ] |}.

(** Four segments and three indicators, [fin14] the same in all segments. *)
Definition mixed_wide : Wide :=
  {| w_columns := ["fin14"; "perf3"; "t5"]%string;
     w_rows :=
       [ {| w_cut := "All"; w_subcut := "All"; w_values := [33; 6; 65] |};
         {| w_cut := "Size"; w_subcut := "Large (100+)"; w_values := [33; 9; 90] |};
         {| w_cut := "Size"; w_subcut := "Medium (20-99)"; w_values := [33; 4; 70] |};
         {| w_cut := "Size"; w_subcut := "Small (5-19)"; w_values := [33; 5; 40] |} ] |}.

Definition three_indicators : list string := ["t5"; "fin14"; "perf3"]%string.

Definition three_names : list (string * string) :=
  [("t5", "Website adoption"); ("fin14", "Bank loan access");
   ("perf3", "Productivity growth")]%string.

Definition two_relationships : list (string * string * string) :=
  [("t5", "fin14", "Website and bank loan access");
   ("t5", "perf3", "Website and productivity growth")]%string.

(** The rows a run produced, none when it failed. *)
Definition rows_of {A : Type} (project : Report -> list A) (run : result Report)
  : list A :=
  match run with
  | inr report => project report
  | inl _ => []
  end.

Definition mixed_run : result Report :=
  analysis (fun _ _ => 0.5) (fun _ _ => 2) (fun _ => "0.500"%string) Numpy.argsort
           three_indicators three_names two_relationships mixed_wide.

(** ** Table 1 of [analyze_data.py] *)

(** The constants of lines 20-26. *)
Definition inn_indicators : list string :=
  ["t5"; "t7"; "t9"; "bready_t1"]%string.

Definition descriptions : list (string * string) :=
  [("t5", "Firms with own website");
   ("t7", "New product/service in last 3 years");
   ("t9", "Process innovation in last 3 years");
   ("bready_t1", "Quality certification")]%string.

(** [d.get(k, default)]. *)
Fixpoint dict_get_default (d : list (string * string)) (k default : string) : string :=
  match d with
  | [] => default
  | (k', v) :: d' => if (k' =? k)%string then v else dict_get_default d' k default
  end.

(** [round(x, 1)] on a [float64]. *)
Definition round_1 (x : float) : float := Num.rint (x * 10) / 10.

(** A cell of the table: a number, or the empty string. *)
Inductive Cell : Type :=
| Number (x : float)
| Blank.

(** [frame[frame['indicator'] == ind].iloc[0] if ind in
    frame['indicator'].values else pd.Series([np.nan]*4)]: the first row of
    the indicator, or a series of four NaN that has no labels. *)
Definition first_metric (frame : list Metric) (ind : string) : option Metric :=
  find (fun m => (m_indicator m =? ind)%string) frame.

(** [row[label]]: the series of NaN is indexed by position, not by label. *)
Definition field (project : Metric -> float) (label : string)
    (row : option Metric) : result float :=
  match row with
  | Some m => ok (project m)
  | None => raise (KeyError label)
  end.

(** A row of [table1_data], lines 61-73. *)
Record Table1Row : Type := {
  t1_indicator : string;
  t1_description : string;
  small_value : Cell;
  small_se : Cell;
  small_N : Cell;
  medium_value : Cell;
  medium_se : Cell;
  medium_N : Cell;
  large_value : Cell;
  large_se : Cell;
  large_N : Cell
}.

(** [round(x, 1) if not np.isnan(x) else '']. *)
Definition rounded_cell (x : float) : Cell :=
  if negb (Num.isnan x) then Number (round_1 x) else Blank.

(** [x if not np.isnan(x) else '']. *)
Definition number_cell (x : float) : Cell :=
  if negb (Num.isnan x) then Number x else Blank.

(** The body of the loop of lines 45-73 (the [print] left out: it reads the
    fields the assignments before it have read). *)
Definition table1_row (small_inn medium_inn large_inn : list Metric) (ind : string)
  : result Table1Row :=
  let s_row := first_metric small_inn ind in
  let m_row := first_metric medium_inn ind in
  let l_row := first_metric large_inn ind in
  s_value <- field m_value "value" s_row ;;
  m_value_ <- field m_value "value" m_row ;;
  l_value <- field m_value "value" l_row ;;
  s_se <- field m_se "se" s_row ;;
  m_se_ <- field m_se "se" m_row ;;
  s_se_again <- field m_se "se" s_row ;;
  l_se <- (if negb (Num.isnan s_se_again)
           then (x <- field m_se "se" l_row ;; ok (Number (round_1 x)))
           else ok Blank) ;;
  s_N <- field m_N "N" s_row ;;
  m_N_ <- field m_N "N" m_row ;;
  l_N <- field m_N "N" l_row ;;
  ok {| t1_indicator := ind;
        t1_description := dict_get_default descriptions ind ind;
        small_value := rounded_cell s_value;
        small_se := rounded_cell s_se;
        small_N := number_cell s_N;
        medium_value := rounded_cell m_value_;
        medium_se := rounded_cell m_se_;
        medium_N := number_cell m_N_;
        large_value := rounded_cell l_value;
        large_se := l_se;
        large_N := number_cell l_N |}.

(** Lines 28-36: the metrics of one size group, from the rows already cut
    down to the group. *)
Definition size_metrics (data : list IndicatorRecord) (size : string) : list Metric :=
  let sizes := filter (fun x => (cut x =? "Size")%string) data in
  let group := filter (fun x => (subcut x =? size)%string) sizes in
  extract_metrics group inn_indicators "Size" size.

(** Lines 28-73: [table1_data]. *)
Definition table1 (data : list IndicatorRecord) : result (list Table1Row) :=
  let small_inn := size_metrics data "Small (5-19)" in
  let medium_inn := size_metrics data "Medium (20-99)" in
  let large_inn := size_metrics data "Large (100+)" in
  mapM (table1_row small_inn medium_inn large_inn) inn_indicators.

(** ** The summaries of [correlation_significance.py] *)

(** [len(detailed_df[detailed_df['sig'] == tier])], lines 437-440. *)
Definition count_sig (tier : string) (rows : list DetailedRow) : nat :=
  length (filter (fun row => (det_sig row =? tier)%string) rows).

(** [strength_counts], lines 444-455. *)
Record StrengthCounts : Type := {
  very_strong : nat;
  strong : nat;
  moderate : nat;
  weak : nat
}.

Definition count_strength (counts : StrengthCounts) (row : ResultRow)
  : StrengthCounts :=
  let r_val := res_r row in
  let abs_r := abs r_val in
  if 0.70 <? abs_r then
    {| very_strong := S (very_strong counts); strong := strong counts;
       moderate := moderate counts; weak := weak counts |}
  else if 0.50 <? abs_r then
    {| very_strong := very_strong counts; strong := S (strong counts);
       moderate := moderate counts; weak := weak counts |}
  else if 0.30 <? abs_r then
    {| very_strong := very_strong counts; strong := strong counts;
       moderate := S (moderate counts); weak := weak counts |}
  else
    {| very_strong := very_strong counts; strong := strong counts;
       moderate := moderate counts; weak := S (weak counts) |}.

Definition strength_counts (rows : list ResultRow) : StrengthCounts :=
  fold_left count_strength rows
            {| very_strong := 0; strong := 0; moderate := 0; weak := 0 |}.

(** [detailed_df.head(10)], line 464. *)
Definition top10 (rows : list DetailedRow) : list DetailedRow := firstn 10 rows.

(** ** Tables for the examples of the properties *)

(** The three size groups with the four indicators of Table 1; the small
    firms have no standard error for [t7]. *)
Definition size_table : list IndicatorRecord :=
  flat_map (fun ind =>
              [ {| cut := "Size"; subcut := "Small (5-19)"; indicator := ind;
                   value := 41.26;
                   se := if (ind =? "t7")%string then nan else 2.14;
                   sample_N := 300 |};
                {| cut := "Size"; subcut := "Medium (20-99)"; indicator := ind;
                   value := 68.55; se := 3.05; sample_N := 250 |};
                {| cut := "Size"; subcut := "Large (100+)"; indicator := ind;
                   value := 90.5; se := 1.75; sample_N := 120 |} ]%string)
           inn_indicators.

(** The script on its own constants, over [two_segment_wide]. *)
Definition two_segment_run : result Report :=
  correlation_significance (fun _ _ => 0.5) (fun _ _ => nan)
                           (fun _ => "0.500"%string) Numpy.argsort
                           two_segment_wide.

(** The script on its own constants, over [varied_wide]. *)
Definition varied_run : result Report :=
  correlation_significance (fun _ _ => 0.5) (fun _ _ => 2)
                           (fun _ => "0.500"%string) Numpy.argsort
                           varied_wide.
(** * Properties

    ** Facts about binary64 comparisons

    Derived from the specification of the primitive operations
    ([FloatAxioms]): each comparison is the one of [SpecFloat]. *)

Module FloatFacts.

Lemma SFcompare_swap (x y : spec_float) :
  SFcompare y x = option_map CompOpp (SFcompare x y).
Proof.
  destruct x as [sx | sx | | sx mx ex], y as [sy | sy | | sy my ey];
    try reflexivity;
    try (destruct sx; reflexivity);
    try (destruct sy; reflexivity);
    try (destruct sx, sy; reflexivity).
  cbn [SFcompare option_map].
  destruct sx, sy; try reflexivity;
    rewrite (Z.compare_antisym ex ey);
    destruct (ex ?= ey)%Z; cbn [CompOpp]; try reflexivity;
    change (Pos.compare_cont Eq) with Pos.compare;
    rewrite (Pos.compare_antisym mx my); reflexivity.
Qed.

(** On numbers (no NaN on either side), [<] and [<=] are complementary. *)
Lemma ltb_false_leb (x y : float) :
  (x =? x) = true -> (y =? y) = true -> (x <? y) = false -> (y <=? x) = true.
Proof.
  rewrite !FloatAxioms.eqb_spec, FloatAxioms.ltb_spec, FloatAxioms.leb_spec.
  unfold SFeqb, SFltb, SFleb.
  rewrite (SFcompare_swap (Prim2SF x) (Prim2SF y)).
  intros Hx Hy.
  destruct (SFcompare (Prim2SF x) (Prim2SF y)) as [[ | | ] | ] eqn:E;
    cbn; try congruence.
  exfalso.
  destruct (Prim2SF x) as [sx | sx | | sx mx ex], (Prim2SF y) as [sy | sy | | sy my ey];
    cbn in *; congruence.
Qed.

Lemma SFeqb_refl (x : spec_float) : x <> S754_nan -> SFeqb x x = true.
Proof.
  unfold SFeqb.
  destruct x as [sx | sx | | sx mx ex]; cbn; try congruence;
    try (destruct sx; reflexivity).
  intros _. rewrite Z.compare_refl.
  change (Pos.compare_cont Eq) with Pos.compare.
  rewrite Pos.compare_refl. destruct sx; reflexivity.
Qed.

(** A comparison that succeeds has numbers on both sides. *)
Lemma ltb_true_not_nan (x y : float) :
  (x <? y) = true -> (x =? x) = true /\ (y =? y) = true.
Proof.
  rewrite !FloatAxioms.eqb_spec, FloatAxioms.ltb_spec. unfold SFltb.
  intros H; split; apply SFeqb_refl; intros E; rewrite E in H;
    destruct (Prim2SF x), (Prim2SF y); discriminate.
Qed.

(** [lo < a] and not [hi < a] place [a] in the half-open interval. *)
Lemma between (lo hi a : float) :
  (hi =? hi) = true -> (lo <? a) = true -> (hi <? a) = false -> (a <=? hi) = true.
Proof.
  intros Hhi Hlo Hnot.
  apply ltb_false_leb; auto.
  apply (ltb_true_not_nan lo a Hlo).
Qed.

Lemma SFeqb_finite_inv (x : spec_float) (s : bool) (m : positive) (e : Z) :
  SFeqb x (S754_finite s m e) = true -> x = S754_finite s m e.
Proof.
  unfold SFeqb.
  destruct x as [sx | sx | | sx mx ex]; cbn;
    try discriminate; try (destruct sx; discriminate);
    try (destruct s; discriminate).
  destruct sx, s; try discriminate;
    destruct (ex ?= e)%Z eqn:E; try discriminate;
    apply Z.compare_eq in E; subst ex;
    change (Pos.compare_cont Eq) with Pos.compare;
    destruct (mx ?= m)%positive eqn:E'; try discriminate;
    apply Pos.compare_eq in E'; subst mx; reflexivity.
Qed.

(** [==] against a non-zero finite constant decides Leibniz equality. *)
Lemma eqb_one_inv (r : float) : (r =? 1) = true -> r = 1.
Proof.
  rewrite FloatAxioms.eqb_spec. intros H. apply Prim2SF_inj.
  change (Prim2SF 1) with (S754_finite false 4503599627370496 (-52)) in *.
  now apply SFeqb_finite_inv.
Qed.

Lemma eqb_minus_one_inv (r : float) : (r =? -1) = true -> r = (-1).
Proof.
  rewrite FloatAxioms.eqb_spec. intros H. apply Prim2SF_inj.
  change (Prim2SF (-1)) with (S754_finite true 4503599627370496 (-52)) in *.
  now apply SFeqb_finite_inv.
Qed.

(** [abs(r) == 1] is [r == 1 or r == -1]. *)
Lemma abs_eqb_one (r : float) :
  (abs r =? 1) = ((r =? 1) || (r =? -1))%bool.
Proof.
  destruct (r =? 1) eqn:H1.
  { apply eqb_one_inv in H1. subst r. reflexivity. }
  destruct (r =? -1) eqn:H2.
  { apply eqb_minus_one_inv in H2. subst r. reflexivity. }
  cbn. destruct (abs r =? 1) eqn:H; [exfalso | reflexivity].
  rewrite FloatAxioms.eqb_spec, FloatAxioms.abs_spec in H.
  change (Prim2SF 1) with (S754_finite false 4503599627370496 (-52)) in H.
  apply SFeqb_finite_inv in H.
  destruct (Prim2SF r) as [sx | sx | | sx mx ex] eqn:E; cbn in H; try discriminate.
  injection H as -> ->.
  destruct sx.
  - assert (r = (-1)) as ->; [ | discriminate H2].
    apply Prim2SF_inj. rewrite E. reflexivity.
  - assert (r = 1) as ->; [ | discriminate H1].
    apply Prim2SF_inj. rewrite E. reflexivity.
Qed.

(** [np.isinf] holds of the two infinities only. *)
Lemma isinf_inv (t : float) :
  Num.isinf t = true -> t = infinity \/ t = neg_infinity.
Proof.
  unfold Num.isinf. rewrite FloatAxioms.eqb_spec, FloatAxioms.abs_spec.
  change (Prim2SF infinity) with (S754_infinity false).
  intros H.
  destruct (Prim2SF t) as [sx | sx | | sx mx ex] eqn:E; cbn in H; try discriminate.
  destruct sx; [right | left]; apply Prim2SF_inj; rewrite E; reflexivity.
Qed.

End FloatFacts.

(** ** The t-statistic *)

(** C1: for every coefficient [r] and sample size [n],
    [calculate_t_statistic] returns positive infinity when [r == 1], negative
    infinity when [r == -1], and [r * sqrt((n-2) / (1 - r**2))] otherwise
    (a NaN coefficient included: it takes the formula and yields NaN), [r**2]
    being what the power of the C library returns, whatever that is; where
    the power is the rounded product [r * r], the function is the
    [calculate_t_statistic] of the pipeline. *)
Theorem calculate_t_statistic_cases (pow : float -> float -> float)
    (r : float) (n : Z) :
  ((r =? 1) = true -> calculate_t_statistic_pow pow r n = infinity) /\
  ((r =? -1) = true -> calculate_t_statistic_pow pow r n = neg_infinity) /\
  ((r =? 1) = false -> (r =? -1) = false ->
     calculate_t_statistic_pow pow r n
     = r * sqrt (Num.float_of_int (n - 2) / (1 - pow r 2))) /\
  (pow r 2 = r * r ->
     calculate_t_statistic_pow pow r n = calculate_t_statistic r n).
Proof.
  unfold calculate_t_statistic, calculate_t_statistic_pow.
  rewrite FloatFacts.abs_eqb_one.
  split; [ | split; [ | split]].
  - intros H. rewrite H. apply FloatFacts.eqb_one_inv in H. subst r. reflexivity.
  - intros H. rewrite H, orb_true_r.
    apply FloatFacts.eqb_minus_one_inv in H. subst r. reflexivity.
  - intros -> ->. reflexivity.
  - intros ->. reflexivity.
Qed.

(** ** The p-value and the significance tier *)

Lemma isinf_t_statistic (r : float) (n : Z) :
  (r =? 1) = true \/ (r =? -1) = true ->
  Num.isinf (calculate_t_statistic r n) = true.
Proof.
  intros [H | H].
  - apply FloatFacts.eqb_one_inv in H. subst r. reflexivity.
  - apply FloatFacts.eqb_minus_one_inv in H. subst r. reflexivity.
Qed.

(** C3: with [df = n - 2], the p-value of a t-statistic that is not infinite
    is [2 * (1 - cdf(|t|, df))]; that of an infinite one is exactly [0.0], with
    tier ["***"]; and [r == 1.0] or [r == -1.0] gives such a t-statistic. *)
Theorem p_value_two_tailed (t_cdf : float -> Z -> float) (t : float) (n : Z) :
  let df := (n - 2)%Z in
  (Num.isinf t = false ->
     get_p_value t_cdf t df = 2 * (1 - t_cdf (abs t) df)) /\
  (Num.isinf t = true ->
     get_p_value t_cdf t df = 0 /\
     get_significance (get_p_value t_cdf t df) = "***"%string) /\
  (forall r, (r =? 1) = true \/ (r =? -1) = true ->
     let t := calculate_t_statistic r n in
     Num.isinf t = true /\
     get_p_value t_cdf t df = 0 /\
     get_significance (get_p_value t_cdf t df) = "***"%string).
Proof.
  intros df. unfold get_p_value. split; [ | split].
  - intros ->. reflexivity.
  - intros ->. split; reflexivity.
  - intros r H. cbv zeta. rewrite (isinf_t_statistic r n H).
    repeat split; reflexivity.
Qed.

(** ** The interpretation string *)

Lemma strength_ladder (a : float) :
  (if 0.70 <? a then "Very strong"%string
   else if 0.50 <? a then "Strong"%string
   else if 0.30 <? a then "Moderate"%string
   else "Weak"%string)
  = (if 0.70 <? a then "Very strong"%string
     else if (0.50 <? a) && (a <=? 0.70) then "Strong"%string
     else if (0.30 <? a) && (a <=? 0.50) then "Moderate"%string
     else "Weak"%string).
Proof.
  destruct (0.70 <? a) eqn:H7; [reflexivity | ].
  destruct (0.50 <? a) eqn:H5.
  { rewrite (FloatFacts.between 0.50 0.70 a eq_refl H5 H7). reflexivity. }
  cbn [andb].
  destruct (0.30 <? a) eqn:H3; [ | reflexivity].
  rewrite (FloatFacts.between 0.30 0.50 a eq_refl H3 H5). reflexivity.
Qed.

(** C6: the interpretation is ["{strength} {direction} correlation,
    {phrase}"], the strength by the intervals of [|r|] ([> 0.70],
    [(0.50, 0.70]], [(0.30, 0.50]], else weak), the direction positive for
    [r > 0] and negative otherwise, the phrase by the p-value ladder. *)
Theorem interpretation_string (r p : float) :
  get_strength_description r p
  = (strength_tier r ++ " " ++ direction_word r ++ " correlation, "
       ++ significance_phrase p)%string.
Proof.
  unfold get_strength_description, strength_tier, direction_word,
    significance_phrase.
  cbv zeta. rewrite (strength_ladder (abs r)). reflexivity.
Qed.

(** The boundaries fall on the weaker side, and zero counts as negative. *)
Example interpretation_at_boundaries :
  get_strength_description 0.70 0.0005
    = "Strong positive correlation, highly significant"%string /\
  get_strength_description (-0.71) 0.001
    = "Very strong negative correlation, significant"%string /\
  get_strength_description 0 0.05
    = "Weak negative correlation, not significant"%string /\
  get_strength_description 0.31 0.049
    = "Moderate positive correlation, marginally significant"%string.
Proof. repeat split; reflexivity. Qed.

(** ** Lookups in the long table *)

Lemma filter_none {A : Type} (f : A -> bool) (l : list A) :
  (forall x, In x l -> f x = false) -> filter f l = [].
Proof.
  induction l as [ | a l IH]; cbn; intros H; [reflexivity | ].
  rewrite (H a (or_introl eq_refl)). apply IH. intros x Hx. apply H. now right.
Qed.

Lemma row_test_iff (x : IndicatorRecord) (c s i : string) :
  ((cut x =? c) && (subcut x =? s) && (indicator x =? i))%string = true
  <-> cut x = c /\ subcut x = s /\ indicator x = i.
Proof.
  rewrite !andb_true_iff, !String.eqb_eq. tauto.
Qed.

(** The two branches of [get_value] filter alike. *)
Lemma get_value_filter (df : list IndicatorRecord) (c s i : string) :
  get_value df c s i
  = match filter (fun x => ((cut x =? c) && (subcut x =? s)
                            && (indicator x =? i))%string) df with
    | x :: _ => Some (value x)
    | [] => None
    end.
Proof.
  unfold get_value.
  destruct ((c =? "All") && (s =? "All"))%string eqn:E; [ | reflexivity].
  apply andb_true_iff in E. destruct E as [Ec Es].
  apply String.eqb_eq in Ec, Es. subst c s. reflexivity.
Qed.

(** Whatever [get_value] returns is the value of a matching row of the
    table: it makes up no number. *)
Lemma get_value_from_table (df : list IndicatorRecord) (c s i : string) (v : float) :
  get_value df c s i = Some v ->
  exists x, In x df /\ cut x = c /\ subcut x = s /\ indicator x = i /\ value x = v.
Proof.
  rewrite get_value_filter.
  destruct (filter _ df) as [ | x rest] eqn:E; [discriminate | ].
  intros [= <-].
  assert (Hin : In x (filter (fun x => ((cut x =? c) && (subcut x =? s)
                                        && (indicator x =? i))%string) df))
    by (rewrite E; now left).
  apply filter_In in Hin. destruct Hin as [Hin Ht].
  apply row_test_iff in Ht. exists x. tauto.
Qed.

(** Every row [extract_metrics] returns copies a matching row of the table. *)
Lemma extract_metrics_from_table (df : list IndicatorRecord) (inds : list string)
    (c s : string) (m : Metric) :
  In m (extract_metrics df inds c s) ->
  exists x, In x df /\ cut x = c /\ subcut x = s /\ indicator x = m_indicator m
            /\ value x = m_value m.
Proof.
  unfold extract_metrics. rewrite in_map_iff.
  intros [x [<- Hin]]. apply filter_In in Hin. destruct Hin as [Hin Ht].
  rewrite !andb_true_iff, !String.eqb_eq in Ht.
  exists x. cbn. tauto.
Qed.

(** C9: when the table has no row for the requested cut, subcut and
    indicator, [get_value] returns [None] and the frame of [extract_metrics]
    has no row for the indicator; both are total, so nothing is raised, and
    no value is made up. *)
Theorem absent_indicator_is_missing (df : list IndicatorRecord)
    (inds : list string) (c s i : string) :
  (forall x, In x df -> ~ (cut x = c /\ subcut x = s /\ indicator x = i)) ->
  get_value df c s i = None /\
  ~ In i (map m_indicator (extract_metrics df inds c s)).
Proof.
  intros Habsent. split.
  - rewrite get_value_filter, filter_none; [reflexivity | ].
    intros x Hx. specialize (Habsent x Hx).
    destruct (_ && _ && _)%bool eqn:E; [ | reflexivity].
    apply row_test_iff in E. contradiction.
  - rewrite in_map_iff. intros [m [Hm Hin]].
    apply extract_metrics_from_table in Hin.
    destruct Hin as [x [Hx [Hc [Hs [Hi _]]]]].
    apply (Habsent x Hx). rewrite Hi, Hm. auto.
Qed.

Lemma absent_indicator_is_missing_witness :
  get_value scenario_table "Size" "Large (100+)" "bready_t1" = None /\
  ~ In "bready_t1"%string
       (map m_indicator
            (extract_metrics scenario_table ["t5"; "bready_t1"]%string
                             "Size" "Large (100+)")).
Proof.
  apply (absent_indicator_is_missing scenario_table).
  intros x Hx [Hc [Hs Hi]].
  cbn in Hx.
  destruct Hx as [<- | [<- | [<- | []]]]; cbn in *; discriminate.
Defined.

(** ** Deduplication and the pivot *)

Section PivotFacts.

Lemma segment_eqb_eq (a b : Segment) : segment_eqb a b = true <-> a = b.
Proof.
  unfold segment_eqb. rewrite andb_true_iff, !String.eqb_eq.
  destruct a, b; cbn. split; [intros [-> ->]; reflexivity | intros [= -> ->]; auto].
Qed.

Lemma matches_iff (seg : Segment) (label : string) (x : IndicatorRecord) :
  matches seg label x = true <-> segment_of x = seg /\ indicator x = label.
Proof.
  unfold matches. now rewrite andb_true_iff, segment_eqb_eq, String.eqb_eq.
Qed.

Lemma key_eqb_iff (x y : IndicatorRecord) :
  key_eqb x y = true <-> segment_of x = segment_of y /\ indicator x = indicator y.
Proof.
  unfold key_eqb. now rewrite andb_true_iff, segment_eqb_eq, String.eqb_eq.
Qed.

Lemma key_eqb_sym (x y : IndicatorRecord) : key_eqb x y = key_eqb y x.
Proof.
  apply eq_true_iff_eq. rewrite !key_eqb_iff. intuition congruence.
Qed.

(** A row that matches a key has met that key before exactly when the key
    was met before. *)
Lemma seen_matches (seg : Segment) (label : string) (x : IndicatorRecord)
    (seen : list IndicatorRecord) :
  matches seg label x = true ->
  existsb (key_eqb x) seen = existsb (matches seg label) seen.
Proof.
  intros Hx. apply matches_iff in Hx. destruct Hx as [Hs Hi].
  induction seen as [ | y seen IH]; cbn; [reflexivity | ].
  rewrite IH. f_equal.
  apply eq_true_iff_eq. rewrite key_eqb_iff, matches_iff.
  intuition congruence.
Qed.

Lemma find_drop_duplicates_from (seg : Segment) (label : string)
    (rows seen : list IndicatorRecord) :
  find (matches seg label) (drop_duplicates_from seen rows)
  = if existsb (matches seg label) seen then None
    else find (matches seg label) rows.
Proof.
  revert seen. induction rows as [ | x rest IH]; intros seen.
  - cbn. now destruct (existsb _ seen).
  - cbn [drop_duplicates_from find].
    destruct (existsb (key_eqb x) seen) eqn:Eseen.
    + rewrite IH. destruct (matches seg label x) eqn:Ex; [ | reflexivity].
      rewrite <- (seen_matches seg label x seen Ex), Eseen. reflexivity.
    + cbn [find]. destruct (matches seg label x) eqn:Ex.
      * rewrite <- (seen_matches seg label x seen Ex), Eseen. reflexivity.
      * rewrite IH. cbn [existsb]. rewrite Ex. reflexivity.
Qed.

(** Deduplication changes no lookup: the first row of a key stays first. *)
Lemma lookup_value_drop_duplicates (rows : list IndicatorRecord)
    (seg : Segment) (label : string) :
  lookup_value (drop_duplicates rows) seg label = lookup_value rows seg label.
Proof.
  unfold lookup_value, drop_duplicates.
  rewrite find_drop_duplicates_from. reflexivity.
Qed.

Lemma drop_duplicates_from_unseen (rows seen : list IndicatorRecord)
    (y : IndicatorRecord) :
  In y (drop_duplicates_from seen rows) -> existsb (key_eqb y) seen = false.
Proof.
  revert seen. induction rows as [ | x rest IH]; intros seen; cbn; [tauto | ].
  destruct (existsb (key_eqb x) seen) eqn:Eseen.
  - apply IH.
  - intros [<- | Hin]; [assumption | ].
    specialize (IH _ Hin). cbn in IH.
    apply orb_false_iff in IH. tauto.
Qed.

Lemma has_duplicates_drop_from (rows seen : list IndicatorRecord) :
  has_duplicates (drop_duplicates_from seen rows) = false.
Proof.
  revert seen. induction rows as [ | x rest IH]; intros seen; cbn; [reflexivity | ].
  destruct (existsb (key_eqb x) seen); [apply IH | ].
  cbn. rewrite IH, orb_false_r.
  destruct (existsb (key_eqb x) (drop_duplicates_from (x :: seen) rest)) eqn:E;
    [ | reflexivity].
  apply existsb_exists in E. destruct E as [y [Hin Hy]].
  apply drop_duplicates_from_unseen in Hin. cbn in Hin.
  apply orb_false_iff in Hin. rewrite key_eqb_sym in Hy. destruct Hin. congruence.
Qed.

(** After [drop_duplicates] the pivot has no duplicate key to refuse. *)
Lemma pivot_drop_duplicates (rows : list IndicatorRecord) :
  exists w, pivot (drop_duplicates rows) = ok w.
Proof.
  unfold pivot, drop_duplicates. rewrite has_duplicates_drop_from. eauto.
Qed.

Lemma index_of_nth {B : Type} (f : string -> B) (d : B) (label : string)
    (columns : list string) (i : nat) :
  index_of label columns = Some i -> nth i (map f columns) d = f label.
Proof.
  revert i. induction columns as [ | c columns IH]; intros i; cbn; [discriminate | ].
  destruct (String.eqb_spec c label) as [-> | _].
  - intros [= <-]. reflexivity.
  - destruct (index_of label columns) as [k | ]; cbn; [ | discriminate].
    intros [= <-]. now apply IH.
Qed.

Lemma index_of_In (label : string) (columns : list string) :
  In label columns -> exists i, index_of label columns = Some i.
Proof.
  induction columns as [ | c columns IH]; cbn; [tauto | ].
  destruct (String.eqb_spec c label) as [-> | Hne]; [eauto | ].
  intros [-> | Hin]; [congruence | ].
  destruct (IH Hin) as [i ->]. cbn. eauto.
Qed.

(** The cells of a pivoted table are the lookups in the long table. *)
Lemma pivot_cell (rows : list IndicatorRecord) (w : Wide) (row : WideRow)
    (label : string) (i : nat) :
  pivot rows = ok w -> In row (w_rows w) ->
  index_of label (w_columns w) = Some i ->
  cell w row label = Some (lookup_value rows (w_cut row, w_subcut row) label).
Proof.
  unfold pivot. destruct (has_duplicates rows); [discriminate | ].
  intros [= <-]. cbn [w_rows w_columns]. intros Hrow Hi.
  apply in_map_iff in Hrow. destruct Hrow as [seg [<- _]].
  unfold cell. cbn [w_columns w_values w_cut w_subcut]. rewrite Hi.
  rewrite (index_of_nth _ _ _ _ _ Hi). now destruct seg.
Qed.

Lemma dropna_all_inv (w w' : Wide) (labels : list string) :
  dropna_all w labels = ok w' ->
  w_columns w' = w_columns w /\
  w_rows w' = filter (has_value w labels) (w_rows w) /\
  forall l, In l labels -> exists i, index_of l (w_columns w) = Some i.
Proof.
  unfold dropna_all. destruct (missing_label w labels) as [l | ] eqn:E; [discriminate | ].
  intros [= <-]. cbn. repeat split.
  intros l Hl. unfold missing_label in E.
  pose proof (find_none _ _ E l Hl) as H. cbn in H.
  destruct (index_of l (w_columns w)); [eauto | discriminate].
Qed.

Lemma cell_same_columns (w w' : Wide) (row : WideRow) (label : string) :
  w_columns w' = w_columns w -> cell w' row label = cell w row label.
Proof. unfold cell. now intros ->. Qed.

Lemma make_pivoted_inv (data : list IndicatorRecord) (inds : list string)
    (pivoted : Wide) :
  make_pivoted data inds = ok pivoted ->
  exists w, pivot (drop_duplicates (requested data inds)) = ok w /\
            dropna_all w inds = ok pivoted.
Proof.
  unfold make_pivoted. cbv zeta.
  destruct (pivot (drop_duplicates (requested data inds))) as [e | w] eqn:E;
    cbn; [discriminate | eauto].
Qed.

(** Every cell of [pivoted] is the value of the first row of its key. *)
Lemma make_pivoted_cell (data : list IndicatorRecord) (inds : list string)
    (pivoted : Wide) (row : WideRow) (label : string) (i : nat) :
  make_pivoted data inds = ok pivoted ->
  In row (w_rows pivoted) ->
  index_of label (w_columns pivoted) = Some i ->
  cell pivoted row label
  = Some (lookup_value (requested data inds) (w_cut row, w_subcut row) label).
Proof.
  intros H Hrow Hi.
  destruct (make_pivoted_inv _ _ _ H) as [w [Hp Hd]].
  destruct (dropna_all_inv _ _ _ Hd) as [Hc [Hr _]].
  rewrite (cell_same_columns w pivoted row label Hc).
  rewrite <- (lookup_value_drop_duplicates (requested data inds)).
  apply (pivot_cell _ w row label i Hp).
  - rewrite Hr in Hrow. now apply filter_In in Hrow.
  - now rewrite <- Hc.
Qed.

End PivotFacts.
(** C5: every row of [pivoted] has a number under at least one requested
    indicator, and a segment whose values are missing for all the requested
    indicators has no row in it. *)
Theorem pivot_drops_all_missing (data : list IndicatorRecord) (inds : list string)
    (pivoted : Wide) :
  make_pivoted data inds = ok pivoted ->
  (forall row, In row (w_rows pivoted) ->
     exists label v, In label inds /\ cell pivoted row label = Some v
                     /\ Num.isnan v = false) /\
  (forall seg,
     (forall label, In label inds ->
        Num.isnan (lookup_value (requested data inds) seg label) = true) ->
     forall row, In row (w_rows pivoted) -> (w_cut row, w_subcut row) <> seg).
Proof.
  intros H.
  destruct (make_pivoted_inv _ _ _ H) as [w [Hp Hd]].
  destruct (dropna_all_inv _ _ _ Hd) as [Hc [Hr Hlabels]].
  assert (Hfirst : forall row, In row (w_rows pivoted) ->
            exists label v, In label inds /\ cell pivoted row label = Some v
                            /\ Num.isnan v = false).
  { intros row Hrow. rewrite Hr in Hrow. apply filter_In in Hrow.
    destruct Hrow as [_ Hv]. unfold has_value in Hv.
    apply existsb_exists in Hv. destruct Hv as [label [Hl Hv]].
    rewrite <- (cell_same_columns w pivoted row label Hc) in Hv.
    destruct (cell pivoted row label) as [v | ] eqn:Ecell; [ | discriminate].
    exists label, v.
    split; [exact Hl | split; [exact Ecell | now apply negb_true_iff in Hv]]. }
  split; [exact Hfirst | ].
  intros seg Hmissing row Hrow <-.
  destruct (Hfirst row Hrow) as [label [v [Hl [Hcell Hv]]]].
  destruct (Hlabels label Hl) as [i Hi]. rewrite <- Hc in Hi.
  rewrite (make_pivoted_cell data inds pivoted row label i H Hrow Hi) in Hcell.
  injection Hcell as <-. rewrite (Hmissing label Hl) in Hv. discriminate.
Qed.

Lemma pivot_drops_all_missing_witness :
  let pivoted :=
    {| w_columns := ["perf3"; "t5"]%string;
       w_rows := [ {| w_cut := "Size"; w_subcut := "Small (5-19)";
                      w_values := [3; 40] |} ] |} in
  make_pivoted missing_table ["t5"; "perf3"]%string = ok pivoted /\
  (forall row, In row (w_rows pivoted) ->
     exists label v, In label ["t5"; "perf3"]%string
                     /\ cell pivoted row label = Some v /\ Num.isnan v = false) /\
  (forall seg,
     (forall label, In label ["t5"; "perf3"]%string ->
        Num.isnan (lookup_value (requested missing_table ["t5"; "perf3"]%string)
                                seg label) = true) ->
     forall row, In row (w_rows pivoted) -> (w_cut row, w_subcut row) <> seg).
Proof.
  split; [reflexivity | ].
  apply (pivot_drops_all_missing missing_table ["t5"; "perf3"]%string).
  reflexivity.
Defined.

(** ** The correlation matrix *)

Lemma mapM_nth_error {A B : Type} (f : A -> result B) (l : list A) (l' : list B)
    (k : nat) (a : A) :
  mapM f l = ok l' -> nth_error l k = Some a ->
  exists b, f a = ok b /\ nth_error l' k = Some b.
Proof.
  revert l' k. induction l as [ | x l IH]; intros l' k; cbn.
  - intros _ H. destruct k; discriminate.
  - destruct (f x) as [e | b] eqn:Efx; cbn; [discriminate | ].
    destruct (mapM f l) as [e | bs] eqn:Em; cbn; [discriminate | ].
    intros [= <-]. destruct k as [ | k]; cbn.
    + intros [= <-]. eauto.
    + intros Hk. apply (IH bs k eq_refl Hk).
Qed.

Lemma mapM_Forall2 {A B : Type} (f : A -> result B) (l : list A) (l' : list B) :
  mapM f l = ok l' -> Forall2 (fun a b => f a = ok b) l l'.
Proof.
  revert l'. induction l as [ | x l IH]; intros l'; cbn.
  - intros [= <-]. constructor.
  - destruct (f x) as [e | b] eqn:Efx; cbn; [discriminate | ].
    destruct (mapM f l) as [e | bs]; cbn; [discriminate | ].
    intros [= <-]. constructor; auto.
Qed.

Lemma index_of_nth_error (label : string) (columns : list string) (i : nat) :
  index_of label columns = Some i -> nth_error columns i = Some label.
Proof.
  revert i. induction columns as [ | c columns IH]; intros i; cbn; [discriminate | ].
  destruct (String.eqb_spec c label) as [-> | _].
  - intros [= <-]. reflexivity.
  - destruct (index_of label columns) as [k | ]; cbn; [ | discriminate].
    intros [= <-]. now apply IH.
Qed.

Lemma nth_map_seq {B : Type} (f : nat -> B) (d : B) (K i : nat) :
  i < K -> nth i (map f (seq 0%nat K)) d = f i.
Proof.
  intros H. rewrite (nth_indep _ d (f 0%nat)) by now rewrite length_map, length_seq.
  rewrite map_nth. now rewrite seq_nth.
Qed.

Lemma nancorr_entry (mat : list (list float)) (i j : nat) :
  entry (nancorr mat) i j
  = if (i <? length mat)%nat && (j <? length mat)%nat
    then nancorr_pair (nth (Nat.max i j) mat []) (nth (Nat.min i j) mat [])
    else nan.
Proof.
  unfold entry, nancorr.
  destruct (Nat.ltb_spec i (length mat)) as [Hi | Hi].
  - rewrite nth_map_seq by assumption.
    destruct (Nat.ltb_spec j (length mat)) as [Hj | Hj]; cbn [andb].
    + now rewrite nth_map_seq.
    + apply nth_overflow. now rewrite length_map, length_seq.
  - cbn [andb]. rewrite (nth_overflow (map _ _))
      by now rewrite length_map, length_seq.
    now destruct j.
Qed.




Lemma welford_nobs (l : list (float * float)) (st : Welford) :
  nobs (fold_left welford_step l st)
  = (nobs st
     + Z.of_nat (length (filter (fun v => Num.isfinite (fst v) && Num.isfinite (snd v))
                                l)))%Z.
Proof.
  revert st. induction l as [ | [vx vy] l IH]; intros st; cbn [fold_left filter].
  - cbn. lia.
  - rewrite IH. unfold welford_step. cbn [fst snd].
    destruct (Num.isfinite vx && Num.isfinite vy); cbn [nobs length]; lia.
Qed.




Lemma corr_inv (w : Wide) (labels : list string) (m : CorrMatrix) :
  corr w labels = ok m ->
  exists mat, select_columns w labels = ok mat /\
              m = {| c_labels := labels; c_entries := nancorr mat |}.
Proof.
  unfold corr. destruct (select_columns w labels) as [e | mat]; cbn; [discriminate | ].
  intros [= <-]. eauto.
Qed.







(** The quotient is [1.0] in the usual range of values, and is not where the
    square of the spread leaves the range of the floats: a column of tiny
    values falls short of one, a column of huge values gives zero. *)
Example diagonal_out_of_range :
  nancorr [[0; 5e-80]; [1; 2]] = [[0.99999924236925275; 1]; [1; 1]] /\
  nancorr [[0; 1e78]; [1; 2]] = [[0; 1]; [1; 1]].
Proof. split; vm_compute; reflexivity. Qed.

(** On the three segments of the specification's scenario the matrix is
    symmetric with ones on the diagonal; the two columns are not collinear,
    and their correlation falls short of one. *)
Example scenario_matrix :
  nancorr [[40; 70; 90]; [3; 6; 9]]
  = [[1; 0.99339926779878296]; [0.99339926779878296; 1]].
Proof. vm_compute. reflexivity. Qed.

(** ** The analysis loops *)

Lemma bind_ok {A B : Type} (c : result A) (k : A -> result B) (b : B) :
  bind c k = ok b -> exists a, c = ok a /\ k a = ok b.
Proof. destruct c as [e | a]; cbn; [discriminate | eauto]. Qed.

Lemma bind_ok_l {A B : Type} (a : A) (k : A -> result B) : bind (ok a) k = k a.
Proof. reflexivity. Qed.

Lemma take_In {A : Type} (l : list A) (indexer : list nat) (l' : list A) (x : A) :
  take l indexer = ok l' -> In x l' -> In x l.
Proof.
  intros H Hx. apply mapM_Forall2 in H.
  induction H as [ | i y indexer l' Hi _ IH]; [contradiction | ].
  destruct Hx as [<- | Hx]; [ | now apply IH].
  destruct (nth_error l i) as [a | ] eqn:E; [ | discriminate].
  injection Hi as <-. now apply nth_error_In in E.
Qed.

Lemma mapM_In {A B : Type} (f : A -> result B) (l : list A) (l' : list B) (b : B) :
  mapM f l = ok l' -> In b l' -> exists a, In a l /\ f a = ok b.
Proof.
  intros H. apply mapM_Forall2 in H.
  induction H as [ | a b' l l' Hab _ IH]; [contradiction | ].
  intros [<- | Hin].
  - exists a. split; [now left | assumption].
  - destruct (IH Hin) as [a' [Hin' Ha']]. exists a'. split; [now right | assumption].
Qed.

(** Sorting invents no row. *)
Lemma sort_values_In {A : Type} (argsort : list float -> list nat)
    (key : A -> float) (ascending : bool) (frame out : list A) (x : A) :
  sort_values argsort key ascending frame = ok out -> In x out -> In x frame.
Proof.
  unfold sort_values. intros H.
  apply bind_ok in H. destruct H as [indexer [_ H]].
  now apply (take_In frame indexer).
Qed.

Lemma sort_frame_inv {A : Type} (argsort : list float -> list nat)
    (column : string) (key : A -> float) (rows out : list A) :
  sort_frame argsort column key rows = ok out ->
  sort_values argsort key false rows = ok out.
Proof. destruct rows; [discriminate | auto]. Qed.

Section AnalysisFacts.

Variable t_cdf : float -> Z -> float.
Variable t_ppf : float -> Z -> float.
Variable format_3f : float -> string.
Variable argsort : list float -> list nat.
Variable indicators : list string.
Variable names : list (string * string).
Variable relationships : list (string * string * string).

(** What one pass of the loop over [key_relationships] stores. *)
Lemma result_row_inv (cm : CorrMatrix) (n df : Z) (rel : string * string * string)
    (row : ResultRow) :
  result_row t_cdf format_3f cm n df rel = ok row ->
  exists r, loc cm (fst (fst rel)) (snd (fst rel)) = ok r /\
    let r2 := Num.round2 r in
    let t := calculate_t_statistic r2 n in
    let p := get_p_value t_cdf t df in
    Relationship row = snd rel /\
    res_r row = Num.round2 r2 /\
    t_value row = Num.round2 t /\
    p_numeric row = p /\
    Significance row = get_significance p /\
    Interpretation row = get_strength_description r2 p.
Proof.
  destruct rel as [[ind1 ind2] description]. unfold result_row.
  intros H. apply bind_ok in H. destruct H as [r [Hr H]].
  injection H as <-. exists r. cbn. repeat split; auto.
Qed.

(** What one pass of the loop over the pairs [i < j] stores. *)
Lemma detailed_row_inv (cm : CorrMatrix) (n df : Z) (critical_t : float)
    (pair : string * string) (row : DetailedRow) :
  detailed_row t_cdf names cm n df critical_t pair = ok row ->
  exists r, loc cm (fst pair) (snd pair) = ok r /\
    let r2 := Num.round2 r in
    let t := calculate_t_statistic r2 n in
    let p := get_p_value t_cdf t df in
    Indicator_1 row = fst pair /\
    Indicator_2 row = snd pair /\
    det_r row = Num.round2 r2 /\
    det_t row = Num.round2 t /\
    det_p row = p /\
    det_sig row = get_significance p /\
    det_significant row
    = (if critical_t <? abs t then "Yes"%string else "No"%string).
Proof.
  destruct pair as [ind1 ind2]. unfold detailed_row.
  intros H. apply bind_ok in H. destruct H as [r [Hr H]].
  apply bind_ok in H. destruct H as [name1 [_ H]].
  apply bind_ok in H. destruct H as [name2 [_ H]].
  injection H as <-. exists r. cbn. repeat split; auto.
Qed.

Lemma analysis_inv (pivoted : Wide) (report : Report) :
  analysis t_cdf t_ppf format_3f argsort indicators names relationships pivoted
  = ok report ->
  let size := Z.of_nat (length (w_rows pivoted)) in
  corr pivoted indicators = ok (corr_matrix report) /\
  n report = size /\
  df report = (size - 2)%Z /\
  critical_t report = t_ppf 0.975 (size - 2)%Z /\
  mapM (result_row t_cdf format_3f (corr_matrix report) size (size - 2)%Z)
       relationships = ok (results report) /\
  sort_values argsort (fun row => abs (t_value row)) false (results report)
  = ok (results_df report) /\
  mapM (detailed_row t_cdf names (corr_matrix report) size (size - 2)%Z
                     (t_ppf 0.975 (size - 2)%Z))
       (upper_pairs indicators) = ok (detailed_results report) /\
  sort_values argsort (fun row => abs (det_t row)) false (detailed_results report)
  = ok (detailed_df report).
Proof.
  unfold analysis. intros H.
  apply bind_ok in H. destruct H as [cm [Hcm H]].
  apply bind_ok in H. destruct H as [res [Hres H]].
  apply bind_ok in H. destruct H as [res_df [Hres_df H]].
  apply bind_ok in H. destruct H as [det [Hdet H]].
  apply bind_ok in H. destruct H as [det_df [Hdet_df H]].
  apply sort_frame_inv in Hres_df, Hdet_df.
  injection H as <-. cbn. repeat split; assumption.
Qed.

(** Every row of [results], sorted or not, comes from a pass of its loop. *)
Lemma results_rows (pivoted : Wide) (report : Report) (row : ResultRow) :
  analysis t_cdf t_ppf format_3f argsort indicators names relationships pivoted
  = ok report ->
  In row (results report) \/ In row (results_df report) ->
  exists rel, In rel relationships /\
    result_row t_cdf format_3f (corr_matrix report) (n report) (df report) rel
    = ok row.
Proof.
  intros H Hrow. apply analysis_inv in H. cbv zeta in H.
  destruct H as [_ [Hn [Hdf [_ [Hres [Hsort _]]]]]].
  assert (Hin : In row (results report)).
  { destruct Hrow as [Hin | Hin]; [assumption | ].
    apply (sort_values_In _ _ _ _ _ _ Hsort Hin). }
  rewrite Hn, Hdf. apply (mapM_In _ _ _ _ Hres Hin).
Qed.

(** Every row of [detailed_results], sorted or not, comes from a pass of its
    loop. *)
Lemma detailed_rows (pivoted : Wide) (report : Report) (row : DetailedRow) :
  analysis t_cdf t_ppf format_3f argsort indicators names relationships pivoted
  = ok report ->
  In row (detailed_results report) \/ In row (detailed_df report) ->
  exists pair, In pair (upper_pairs indicators) /\
    detailed_row t_cdf names (corr_matrix report) (n report) (df report)
                 (critical_t report) pair = ok row.
Proof.
  intros H Hrow. apply analysis_inv in H. cbv zeta in H.
  destruct H as [_ [Hn [Hdf [Hcrit [_ [_ [Hdet Hsort]]]]]]].
  assert (Hin : In row (detailed_results report)).
  { destruct Hrow as [Hin | Hin]; [assumption | ].
    apply (sort_values_In _ _ _ _ _ _ Hsort Hin). }
  rewrite Hn, Hdf, Hcrit. apply (mapM_In _ _ _ _ Hdet Hin).
Qed.

End AnalysisFacts.

(** C2: the sample size of every t-statistic is the number of rows of
    [pivoted], whatever the pair: each row of [results] and of
    [detailed_results], before and after sorting, holds the rounded
    t-statistic of its pair's coefficient at [n = len(pivoted)], with
    [df = n - 2]; and where a pair has fewer complete rows than that, it is
    still the row count that is used (on [gappy_wide] four rows are complete
    for the pair, [n] is five, and the t-statistic is not the one of four). *)
Theorem sample_size_is_row_count (t_cdf t_ppf : float -> Z -> float)
    (format_3f : float -> string) :
  (forall (argsort : list float -> list nat) (indicators : list string)
          (names : list (string * string))
          (relationships : list (string * string * string))
          (pivoted : Wide) (report : Report),
      analysis t_cdf t_ppf format_3f argsort indicators names relationships pivoted
      = ok report ->
      let size := Z.of_nat (length (w_rows pivoted)) in
      n report = size /\ df report = (size - 2)%Z /\
      (forall row, In row (results report) \/ In row (results_df report) ->
         exists rel r, In rel relationships /\
           loc (corr_matrix report) (fst (fst rel)) (snd (fst rel)) = ok r /\
           t_value row = Num.round2 (calculate_t_statistic (Num.round2 r) size)) /\
      (forall row, In row (detailed_results report) \/ In row (detailed_df report) ->
         exists r,
           loc (corr_matrix report) (Indicator_1 row) (Indicator_2 row) = ok r /\
           det_t row = Num.round2 (calculate_t_statistic (Num.round2 r) size))) /\
  (exists report row r,
      analysis t_cdf t_ppf format_3f Numpy.argsort
               two_indicators two_names one_relationship gappy_wide = ok report /\
      In row (detailed_df report) /\
      loc (corr_matrix report) "t5" "perf3" = ok r /\
      complete_count (column gappy_wide 1) (column gappy_wide 0) = 4%Z /\
      n report = 5%Z /\
      det_t row = Num.round2 (calculate_t_statistic (Num.round2 r) 5) /\
      (det_t row =? Num.round2 (calculate_t_statistic (Num.round2 r) 4)) = false).
Proof.
  split.
  - intros argsort indicators names relationships pivoted report H size.
    pose proof (analysis_inv _ _ _ _ _ _ _ _ _ H) as Hinv. cbv zeta in Hinv.
    destruct Hinv as [_ [Hn [Hdf _]]]. fold size in Hn, Hdf.
    split; [exact Hn | split; [exact Hdf | split]].
    + intros row Hrow.
      destruct (results_rows _ _ _ _ _ _ _ _ _ _ H Hrow) as [rel [Hrel Hpass]].
      apply result_row_inv in Hpass. destruct Hpass as [r [Hr Hfields]].
      cbv zeta in Hfields. destruct Hfields as [_ [_ [Ht _]]].
      exists rel, r. rewrite <- Hn. auto.
    + intros row Hrow.
      destruct (detailed_rows _ _ _ _ _ _ _ _ _ _ H Hrow) as [pair [_ Hpass]].
      apply detailed_row_inv in Hpass. destruct Hpass as [r [Hr Hfields]].
      cbv zeta in Hfields. destruct Hfields as [H1 [H2 [_ [Ht _]]]].
      exists r. rewrite H1, H2, <- Hn. auto.
  - eexists. eexists. eexists.
    split; [lazy; reflexivity | ].
    split; [cbn [detailed_df]; left; reflexivity | ].
    split; [reflexivity | ].
    repeat split; vm_compute; reflexivity.
Qed.

Lemma sample_size_is_row_count_witness :
  exists report,
    analysis (fun _ _ => 0.5) (fun _ _ => 2) (fun _ => "0.500"%string) Numpy.argsort
             two_indicators two_names one_relationship gappy_wide = ok report /\
    n report = 5%Z /\ df report = 3%Z /\
    (forall row, In row (results report) \/ In row (results_df report) ->
       exists rel r, In rel one_relationship /\
         loc (corr_matrix report) (fst (fst rel)) (snd (fst rel)) = ok r /\
         t_value row = Num.round2 (calculate_t_statistic (Num.round2 r) 5)) /\
    (forall row, In row (detailed_results report) \/ In row (detailed_df report) ->
       exists r,
         loc (corr_matrix report) (Indicator_1 row) (Indicator_2 row) = ok r /\
         det_t row = Num.round2 (calculate_t_statistic (Num.round2 r) 5)).
Proof.
  eexists. split; [vm_compute; reflexivity | ].
  apply (proj1 (sample_size_is_row_count (fun _ _ => 0.5) (fun _ _ => 2)
                                         (fun _ => "0.500"%string))
               Numpy.argsort two_indicators two_names one_relationship gappy_wide).
  vm_compute. reflexivity.
Defined.

(** C10: the coefficient is rounded to two decimals before anything is
    derived from it: in every row of [results] and [detailed_results] the
    t-statistic, the p-value, the tier and the interpretation are those of
    [round(r, 2)]; and on [gappy_wide] the t-statistic reported differs from
    the one of the coefficient as the matrix holds it. *)
Theorem statistics_of_rounded_coefficient (t_cdf t_ppf : float -> Z -> float)
    (format_3f : float -> string) :
  (forall (argsort : list float -> list nat) (indicators : list string)
          (names : list (string * string))
          (relationships : list (string * string * string))
          (pivoted : Wide) (report : Report),
      analysis t_cdf t_ppf format_3f argsort indicators names relationships pivoted
      = ok report ->
      (forall row, In row (results report) \/ In row (results_df report) ->
         exists rel r, In rel relationships /\
           loc (corr_matrix report) (fst (fst rel)) (snd (fst rel)) = ok r /\
           let r2 := Num.round2 r in
           let t := calculate_t_statistic r2 (n report) in
           let p := get_p_value t_cdf t (df report) in
           res_r row = Num.round2 r2 /\
           t_value row = Num.round2 t /\
           p_numeric row = p /\
           Significance row = get_significance p /\
           Interpretation row = get_strength_description r2 p) /\
      (forall row, In row (detailed_results report) \/ In row (detailed_df report) ->
         exists r,
           loc (corr_matrix report) (Indicator_1 row) (Indicator_2 row) = ok r /\
           let r2 := Num.round2 r in
           let t := calculate_t_statistic r2 (n report) in
           let p := get_p_value t_cdf t (df report) in
           det_r row = Num.round2 r2 /\
           det_t row = Num.round2 t /\
           det_p row = p /\
           det_sig row = get_significance p /\
           det_significant row
           = (if critical_t report <? abs t then "Yes"%string else "No"%string))) /\
  (exists report row r,
      analysis t_cdf t_ppf format_3f Numpy.argsort
               two_indicators two_names one_relationship gappy_wide = ok report /\
      In row (detailed_df report) /\
      loc (corr_matrix report) "t5" "perf3" = ok r /\
      (Num.round2 r =? r) = false /\
      (calculate_t_statistic (Num.round2 r) (n report)
       =? calculate_t_statistic r (n report)) = false /\
      det_t row = 12.16 /\
      Num.round2 (calculate_t_statistic r (n report)) = 14.35).
Proof.
  split.
  - intros argsort indicators names relationships pivoted report H. split.
    + intros row Hrow.
      destruct (results_rows _ _ _ _ _ _ _ _ _ _ H Hrow) as [rel [Hrel Hpass]].
      apply result_row_inv in Hpass. destruct Hpass as [r [Hr Hfields]].
      exists rel, r. cbv zeta in *. tauto.
    + intros row Hrow.
      destruct (detailed_rows _ _ _ _ _ _ _ _ _ _ H Hrow) as [pair [_ Hpass]].
      apply detailed_row_inv in Hpass. destruct Hpass as [r [Hr Hfields]].
      cbv zeta in Hfields. destruct Hfields as [H1 [H2 Hrest]].
      exists r. rewrite H1, H2. cbv zeta. tauto.
  - eexists. eexists. eexists.
    split; [lazy; reflexivity | ].
    split; [cbn [detailed_df]; left; reflexivity | ].
    split; [reflexivity | ].
    repeat split; vm_compute; reflexivity.
Qed.

Lemma statistics_of_rounded_coefficient_witness :
  exists report,
    analysis (fun _ _ => 0.5) (fun _ _ => 2) (fun _ => "0.500"%string) Numpy.argsort
             two_indicators two_names one_relationship gappy_wide = ok report /\
    (forall row, In row (results report) \/ In row (results_df report) ->
       exists rel r, In rel one_relationship /\
         loc (corr_matrix report) (fst (fst rel)) (snd (fst rel)) = ok r /\
         let r2 := Num.round2 r in
         let t := calculate_t_statistic r2 (n report) in
         let p := get_p_value (fun _ _ => 0.5) t (df report) in
         res_r row = Num.round2 r2 /\
         t_value row = Num.round2 t /\
         p_numeric row = p /\
         Significance row = get_significance p /\
         Interpretation row = get_strength_description r2 p) /\
    (forall row, In row (detailed_results report) \/ In row (detailed_df report) ->
       exists r,
         loc (corr_matrix report) (Indicator_1 row) (Indicator_2 row) = ok r /\
         let r2 := Num.round2 r in
         let t := calculate_t_statistic r2 (n report) in
         let p := get_p_value (fun _ _ => 0.5) t (df report) in
         det_r row = Num.round2 r2 /\
         det_t row = Num.round2 t /\
         det_p row = p /\
         det_sig row = get_significance p /\
         det_significant row
         = (if critical_t report <? abs t then "Yes"%string else "No"%string)).
Proof.
  eexists. split; [vm_compute; reflexivity | ].
  apply (proj1 (statistics_of_rounded_coefficient
                  (fun _ _ => 0.5) (fun _ _ => 2) (fun _ => "0.500"%string))
               Numpy.argsort two_indicators two_names one_relationship gappy_wide).
  vm_compute. reflexivity.
Defined.

(** ** Sorting *)

Section SelectFacts.

Context {B : Type}.

(** The selected and the rejected elements make up the list. *)
Lemma select_mask_split (mask : list bool) (l : list B) :
  length mask = length l ->
  Permutation (select_mask (map negb mask) l ++ select_mask mask l) l.
Proof.
  revert l. induction mask as [ | b mask IH]; intros [ | a l]; cbn;
    try discriminate; intros H; [constructor | ].
  injection H as H. destruct b; cbn.
  - apply Permutation_sym, Permutation_cons_app, Permutation_sym. now apply IH.
  - constructor. now apply IH.
Qed.

(** A mask computed from the list selects the elements that pass the test. *)
Lemma select_mask_test (p : B -> bool) (l : list B) :
  select_mask (map p l) l = filter p l.
Proof.
  induction l as [ | a l IH]; cbn; [reflexivity | ].
  rewrite IH. reflexivity.
Qed.

(** Selecting positions and reading the list there is selecting from the
    list. *)
Lemma select_mask_positions (d : B) (mask : list bool) (pre l : list B) :
  length mask = length l ->
  map (fun i => nth i (pre ++ l) d)
      (select_mask mask (seq (length pre) (length l)))
  = select_mask mask l.
Proof.
  revert pre mask. induction l as [ | a l IH]; intros pre [ | b mask]; cbn;
    try discriminate; try reflexivity.
  intros [= H].
  assert (Hrest : map (fun i => nth i (pre ++ a :: l) d)
                      (select_mask mask (seq (S (length pre)) (length l)))
                  = select_mask mask l).
  { specialize (IH (pre ++ [a]) mask H).
    rewrite <- app_assoc, length_app in IH. cbn in IH.
    now rewrite Nat.add_1_r in IH. }
  destruct b; cbn; rewrite Hrest; [ | reflexivity].
  now rewrite nth_middle.
Qed.

Lemma select_mask_read (d : B) (mask : list bool) (l : list B) :
  length mask = length l ->
  map (fun i => nth i l d) (select_mask mask (seq 0 (length l)))
  = select_mask mask l.
Proof. apply (select_mask_positions d mask [] l). Qed.

Lemma map_nth_seq_from (d : B) (pre l : list B) :
  map (fun i => nth i (pre ++ l) d) (seq (length pre) (length l)) = l.
Proof.
  revert pre. induction l as [ | a l IH]; intros pre; cbn; [reflexivity | ].
  rewrite nth_middle. f_equal.
  specialize (IH (pre ++ [a])).
  rewrite <- app_assoc, length_app in IH. cbn in IH.
  now rewrite Nat.add_1_r in IH.
Qed.

Lemma map_nth_seq (d : B) (l : list B) :
  map (fun i => nth i l d) (seq 0 (length l)) = l.
Proof. apply (map_nth_seq_from d [] l). Qed.

(** Reading a list along a permutation of its positions permutes it. *)
Lemma permuted_positions (d : B) (l : list B) (positions : list nat) :
  Permutation positions (seq 0 (length l)) ->
  Permutation (map (fun i => nth i l d) positions) l.
Proof.
  intros H. apply (Permutation_map (fun i => nth i l d)) in H.
  now rewrite map_nth_seq in H.
Qed.

(** [take] succeeds on positions within the list. *)
Lemma take_within (d : B) (l : list B) (positions : list nat) :
  Forall (fun i => (i < length l)%nat) positions ->
  take l positions = ok (map (fun i => nth i l d) positions).
Proof.
  unfold take. induction 1 as [ | i positions Hi _ IH]; cbn; [reflexivity | ].
  rewrite (nth_error_nth' l d Hi). cbn. rewrite IH. reflexivity.
Qed.

End SelectFacts.

Lemma nth_map_within {B C : Type} (f : B -> C) (l : list B) (i : nat) (d : B) (d' : C) :
  (i < length l)%nat -> nth i (map f l) d' = f (nth i l d).
Proof.
  intros H. rewrite (nth_indep (map f l) d' (f d)) by now rewrite length_map.
  apply map_nth.
Qed.

Lemma permutation_within (positions : list nat) (size : nat) :
  Permutation positions (seq 0 size) ->
  Forall (fun i => (i < size)%nat) positions.
Proof.
  intros H. apply Forall_forall. intros i Hi.
  apply (Permutation_in _ H) in Hi. apply in_seq in Hi. lia.
Qed.

Section SortedFacts.

Context {B : Type} (R : B -> B -> Prop).

Lemma StronglySorted_map {C : Type} (f : C -> B) (l : list C) :
  StronglySorted (fun x y => R (f x) (f y)) l -> StronglySorted R (map f l).
Proof.
  induction 1 as [ | a l _ IH Ha]; cbn; constructor; [assumption | ].
  apply Forall_map. exact Ha.
Qed.

Lemma StronglySorted_snoc (l : list B) (a : B) :
  StronglySorted R l -> Forall (fun x => R x a) l -> StronglySorted R (l ++ [a]).
Proof.
  induction 1 as [ | b l _ IH Hb]; cbn; intros Ha.
  - repeat constructor.
  - inversion Ha as [ | ? ? Hba Hla]; subst.
    constructor; [now apply IH | ].
    apply Forall_app. split; [assumption | now constructor].
Qed.

Lemma StronglySorted_rev (l : list B) :
  StronglySorted (fun x y => R y x) l -> StronglySorted R (rev l).
Proof.
  induction 1 as [ | a l _ IH Ha]; cbn; [constructor | ].
  apply StronglySorted_snoc; [assumption | ].
  now apply Forall_rev.
Qed.

End SortedFacts.

(** Numbers in descending order followed by NaNs are in the order of
    [descending_nan_last]. *)
Lemma descending_then_nan (numbers nans : list float) :
  StronglySorted (fun x y => (y <=? x) = true) numbers ->
  Forall (fun k => Num.isnan k = false) numbers ->
  Forall (fun k => Num.isnan k = true) nans ->
  descending_nan_last (numbers ++ nans).
Proof.
  intros Hsorted Hnum Hnan.
  induction Hsorted as [ | k numbers _ IH Hk]; cbn.
  - destruct Hnan as [ | k nans Hk Hnans]; [constructor | ].
    now apply desc_nan.
  - inversion Hnum as [ | ? ? Hk' Hnum']; subst.
    apply desc_number; [assumption | | now apply IH].
    apply Forall_app. split.
    + eapply Forall_impl; [ | exact Hk]. cbn. auto.
    + eapply Forall_impl; [ | exact Hnan]. cbn. auto.
Qed.

Section SortValues.

Variable argsort : list float -> list nat.

(** The positions [nargsort] returns for a descending sort, when [argsort]
    sorts what it is given: a permutation of the positions, whose items are
    in descending order with the NaNs last. *)
Lemma nargsort_descending (items : list float) :
  sorts argsort (rev (filter (fun k => negb (Num.isnan k)) items)) ->
  exists indexer,
    nargsort argsort items false = ok indexer /\
    Permutation indexer (seq 0 (length items)) /\
    descending_nan_last (map (fun i => nth i items nan) indexer).
Proof.
  intros [Hperm Hsorted].
  unfold nargsort. cbv zeta.
  set (mask := map Num.isnan items).
  set (idx := seq 0 (length items)).
  assert (Hlen : length mask = length items) by apply length_map.
  assert (Hlen' : length (map negb mask) = length items)
    by now rewrite length_map.
  assert (Hnn : select_mask (map negb mask) items
                = filter (fun k => negb (Num.isnan k)) items).
  { unfold mask. rewrite map_map. apply select_mask_test. }
  rewrite Hnn.
  set (numbers := filter (fun k => negb (Num.isnan k)) items) in *.
  set (positions := argsort (rev numbers)) in *.
  assert (Hread : map (fun i => nth i items nan) (select_mask (map negb mask) idx)
                  = numbers).
  { unfold idx. rewrite (select_mask_read nan (map negb mask) items Hlen').
    exact Hnn. }
  assert (Hread_nan : map (fun i => nth i items nan) (select_mask mask idx)
                      = filter Num.isnan items).
  { unfold idx. rewrite (select_mask_read nan mask items Hlen).
    apply select_mask_test. }
  assert (Hcount : length (rev (select_mask (map negb mask) idx))
                   = length (rev numbers)).
  { rewrite !length_rev, <- Hread, length_map. reflexivity. }
  assert (Hin : Forall (fun i => (i < length (rev (select_mask (map negb mask) idx)))%nat)
                       positions).
  { rewrite Hcount. now apply permutation_within. }
  rewrite (take_within O _ _ Hin), bind_ok_l.
  eexists. split; [reflexivity | ]. split.
  - apply Permutation_trans
      with (select_mask (map negb mask) idx ++ select_mask mask idx);
      [ | apply select_mask_split; unfold idx; now rewrite length_seq].
    apply Permutation_app_tail.
    eapply Permutation_trans; [apply Permutation_sym, Permutation_rev | ].
    eapply Permutation_trans; [ | apply Permutation_sym, Permutation_rev].
    apply permuted_positions. now rewrite Hcount.
  - rewrite map_app, map_rev, map_map, Hread_nan.
    apply descending_then_nan.
    + apply StronglySorted_rev.
      assert (Heq : map (fun p => nth (nth p (rev (select_mask (map negb mask) idx)) O)
                                      items nan) positions
                    = map (fun p => nth p (rev numbers) nan) positions).
      { apply map_ext_in. intros p Hp.
        rewrite Forall_forall in Hin. specialize (Hin p Hp).
        rewrite <- Hread, <- map_rev.
        now rewrite (nth_map_within _ _ p O nan Hin). }
      rewrite Heq. now apply StronglySorted_map.
    + apply Forall_rev, Forall_map, Forall_forall. intros p Hp.
      rewrite Forall_forall in Hin. specialize (Hin p Hp).
      assert (Hmem : In (nth (nth p (rev (select_mask (map negb mask) idx)) O) items nan)
                        numbers).
      { rewrite <- Hread.
        apply (in_map (fun i => nth i items nan) _
                      (nth p (rev (select_mask (map negb mask) idx)) O)).
        apply in_rev. now apply nth_In. }
      apply filter_In in Hmem. now apply negb_true_iff.
    + apply Forall_forall. intros k Hk. now apply filter_In in Hk.
Qed.

(** A descending [sort_values] returns the rows of the frame, each once,
    in descending order of the key with the NaN keys last, when [argsort]
    sorts what it is given. *)
Lemma sort_values_descending {A : Type} (key : A -> float) (frame : list A) :
  sorts argsort (rev (filter (fun k => negb (Num.isnan k)) (map key frame))) ->
  exists out,
    sort_values argsort key false frame = ok out /\
    Permutation frame out /\
    descending_nan_last (map key out).
Proof.
  intros H. destruct (nargsort_descending _ H) as [indexer [Hidx [Hperm Hdesc]]].
  unfold sort_values. rewrite Hidx, bind_ok_l.
  rewrite length_map in Hperm.
  destruct frame as [ | d frame'].
  { cbn in Hperm. apply Permutation_sym, Permutation_nil in Hperm. subst indexer.
    exists []. repeat split; constructor. }
  remember (d :: frame') as frame eqn:Eframe. clear Eframe frame'.
  rewrite (take_within d frame indexer (permutation_within _ _ Hperm)).
  eexists. split; [reflexivity | ]. split.
  - apply Permutation_sym. now apply permuted_positions.
  - rewrite map_map.
    erewrite map_ext_in; [exact Hdesc | ].
    intros i Hi. cbn.
    apply (Permutation_in _ Hperm), in_seq in Hi.
    symmetry. apply (nth_map_within key frame i d nan). lia.
Qed.

End SortValues.

(** The test [sortsb] is sound for [sorts]. *)
Lemma ascending_from_sound (items : list float) (k : float) (positions : list nat) :
  ascending_from items k positions = true ->
  Forall (fun j => (k <=? nth j items nan) = true) positions.
Proof.
  induction positions as [ | j positions IH]; cbn; [constructor | ].
  intros H. apply andb_true_iff in H. destruct H. constructor; auto.
Qed.

Lemma ascending_sound (items : list float) (positions : list nat) :
  ascending items positions = true ->
  StronglySorted (fun i j => (nth i items nan <=? nth j items nan) = true)
                 positions.
Proof.
  induction positions as [ | i positions IH]; cbn; [constructor | ].
  intros H. apply andb_true_iff in H. destruct H as [Hi Hrest].
  constructor; [now apply IH | now apply ascending_from_sound].
Qed.

Lemma sortsb_sound (argsort : list float -> list nat) (items : list float) :
  sortsb argsort items = true -> sorts argsort items.
Proof.
  unfold sortsb, sorts. cbv zeta. rewrite !andb_true_iff.
  intros [[Hlen Hall] Hasc]. split; [ | now apply ascending_sound].
  apply Nat.eqb_eq in Hlen.
  apply Permutation_sym, NoDup_Permutation_bis.
  - apply seq_NoDup.
  - rewrite length_seq. lia.
  - intros i Hi. rewrite forallb_forall in Hall. specialize (Hall i Hi).
    apply existsb_exists in Hall. destruct Hall as [j [Hj Hij]].
    apply Nat.eqb_eq in Hij. now subst.
Qed.

Lemma descending_firstn (k : nat) (l : list float) :
  descending_nan_last l -> descending_nan_last (firstn k l).
Proof.
  intros H. revert k.
  induction H as [ | x l Hx Hrest _ IH | x l Hx Hrest]; intros k.
  - rewrite firstn_nil. constructor.
  - destruct k as [ | k]; [constructor | ]. cbn [firstn].
    apply desc_number; [assumption | | apply IH].
    rewrite Forall_forall in *. intros y Hy. apply Hrest.
    rewrite <- (firstn_skipn k l). apply in_or_app. now left.
  - destruct k as [ | k]; [constructor | ]. cbn [firstn].
    apply desc_nan; [assumption | ].
    rewrite Forall_forall in *. intros y Hy. apply Hrest.
    rewrite <- (firstn_skipn k l). apply in_or_app. now left.
Qed.

(** C7, as the code has it: in a run of the script that ends well,
    [results_df] and [detailed_df] hold the rows of [results] and
    [detailed_results], each once, in descending order of the absolute
    (rounded) t-statistic with the undefined ones last, and so does the top
    ten of [detailed_df]; this for any [argsort] that sorts what it is
    given, and with no promise on the order of rows of equal key.  The sort
    of a frame with a row succeeds; the frame made from no row has no column
    to sort on, and the script stops with a [KeyError]. *)
Theorem top_correlations_descending (t_cdf t_ppf : float -> Z -> float)
    (format_3f : float -> string) (argsort : list float -> list nat) :
  (forall (indicators : list string) (names : list (string * string))
          (relationships : list (string * string * string))
          (pivoted : Wide) (report : Report),
      analysis t_cdf t_ppf format_3f argsort indicators names relationships pivoted
      = ok report ->
      sorts argsort
            (rev (filter (fun k => negb (Num.isnan k))
                         (map (fun row => abs (t_value row)) (results report)))) ->
      sorts argsort
            (rev (filter (fun k => negb (Num.isnan k))
                         (map (fun row => abs (det_t row))
                              (detailed_results report)))) ->
      Permutation (results report) (results_df report) /\
      descending_nan_last (map (fun row => abs (t_value row)) (results_df report)) /\
      Permutation (detailed_results report) (detailed_df report) /\
      descending_nan_last (map (fun row => abs (det_t row)) (detailed_df report)) /\
      descending_nan_last
        (map (fun row => abs (det_t row)) (top10 (detailed_df report)))) /\
  (forall (A : Type) (column : string) (key : A -> float) (rows : list A),
      rows <> [] ->
      sorts argsort (rev (filter (fun k => negb (Num.isnan k)) (map key rows))) ->
      exists out, sort_frame argsort column key rows = ok out /\
                  Permutation rows out /\
                  descending_nan_last (map key out)) /\
  (forall (A : Type) (column : string) (key : A -> float),
      sort_frame argsort column key (@nil A) = raise (KeyError column)).
Proof.
  split; [ | split].
  - intros indicators names relationships pivoted report Hrun Hres Hdet.
    apply analysis_inv in Hrun. cbv zeta in Hrun.
    destruct Hrun as [_ [_ [_ [_ [_ [Hsort_res [_ Hsort_det]]]]]]].
    destruct (sort_values_descending argsort (fun row => abs (t_value row))
                                     (results report) Hres)
      as [res_df [Hres_df [Hperm_res Hdesc_res]]].
    destruct (sort_values_descending argsort (fun row => abs (det_t row))
                                     (detailed_results report) Hdet)
      as [det_df [Hdet_df [Hperm_det Hdesc_det]]].
    rewrite Hsort_res in Hres_df. injection Hres_df as <-.
    rewrite Hsort_det in Hdet_df. injection Hdet_df as <-.
    repeat (split; [assumption | ]).
    unfold top10. rewrite <- firstn_map. now apply descending_firstn.
  - intros A column key rows Hrows Hsorts.
    destruct rows as [ | a rows]; [congruence | ].
    now apply sort_values_descending.
  - reflexivity.
Qed.

Lemma top_correlations_descending_witness :
  exists report,
    varied_run = ok report /\
    Permutation (results report) (results_df report) /\
    descending_nan_last (map (fun row => abs (t_value row)) (results_df report)) /\
    Permutation (detailed_results report) (detailed_df report) /\
    descending_nan_last (map (fun row => abs (det_t row)) (detailed_df report)) /\
    descending_nan_last
      (map (fun row => abs (det_t row)) (top10 (detailed_df report))).
Proof.
  eexists. split; [vm_compute; reflexivity | ].
  apply (proj1 (top_correlations_descending
                  (fun _ _ => 0.5) (fun _ _ => 2) (fun _ => "0.500"%string)
                  Numpy.argsort)
               corr_indicators indicator_names key_relationships varied_wide).
  - vm_compute. reflexivity.
  - apply sortsb_sound. vm_compute. reflexivity.
  - apply sortsb_sound. vm_compute. reflexivity.
Defined.

(** On [varied_wide] the sort does reorder the rows: the seventeen key
    relationships go from the order of [key_relationships] to the descending
    order of [|t|], and the first of the top ten is the eighth pair of the
    loops. *)
Example varied_run_order :
  map (fun row => abs (t_value row)) (rows_of results varied_run)
  = [0.06; 1.58; 0.65; 1.06; 1.96; 1.04; 0.28; 5.51; 0.02; 0.24; 14.04; 0.63;
     0.08; 0.72; 0.3; 0.41; 1.62] /\
  map (fun row => abs (t_value row)) (rows_of results_df varied_run)
  = [14.04; 5.51; 1.96; 1.62; 1.58; 1.06; 1.04; 0.72; 0.65; 0.63; 0.41; 0.3;
     0.28; 0.24; 0.08; 0.06; 0.02] /\
  map (fun row => abs (det_t row)) (firstn 10 (rows_of detailed_results varied_run))
  = [1.62; 5.06; 2.14; 0.63; 0.24; 5.51; 0.98; 14.04; 1.15; 1.04] /\
  map (fun row => abs (det_t row)) (top10 (rows_of detailed_df varied_run))
  = [14.04; 6.08; 5.51; 5.06; 5.06; 3.1; 2.87; 2.87; 2.76; 2.58].
Proof. repeat split; vm_compute; reflexivity. Qed.

(** On [mixed_wide] the pairs with the constant column have no t-statistic
    and come last. *)
Example mixed_run_order :
  map (fun row => (Indicator_1 row, Indicator_2 row, det_t row))
      (rows_of detailed_results mixed_run)
  = [("t5", "fin14", nan); ("t5", "perf3", 1.31); ("fin14", "perf3", nan)]%string /\
  map (fun row => (Indicator_1 row, Indicator_2 row, det_t row))
      (rows_of detailed_df mixed_run)
  = [("t5", "perf3", 1.31); ("t5", "fin14", nan); ("fin14", "perf3", nan)]%string.
Proof. split; vm_compute; reflexivity. Qed.

(** On a pivoted table of two segments every pair has [|t| = inf], and the
    45 rows of [detailed_df] do not come out in the order of
    [detailed_results]: the second row already differs, although [argsort]
    did sort its items. *)
Lemma tie_order_counterexample :
  exists report,
    correlation_significance (fun _ _ => 0.5) (fun _ _ => nan)
                             (fun _ => "0.500"%string) Numpy.argsort
                             two_segment_wide = ok report /\
    sorts Numpy.argsort
          (rev (filter (fun k => negb (Num.isnan k))
                       (map (fun row => abs (det_t row)) (detailed_results report)))) /\
    map (fun row => abs (det_t row)) (detailed_results report) = repeat infinity 45 /\
    map (fun row => (Indicator_1 row, Indicator_2 row))
        (firstn 2 (detailed_results report))
    = [("t5", "t7"); ("t5", "t9")]%string /\
    map (fun row => (Indicator_1 row, Indicator_2 row))
        (firstn 2 (detailed_df report))
    = [("t5", "t7"); ("t9", "bready_fin31")]%string /\
    ~ ties_in_input_order (fun row => abs (det_t row))
                          (detailed_results report) (detailed_df report).
Proof.
  eexists. split; [vm_compute; reflexivity | ].
  split; [apply sortsb_sound; vm_compute; reflexivity | ].
  split; [vm_compute; reflexivity | ].
  split; [vm_compute; reflexivity | ].
  split; [vm_compute; reflexivity | ].
  intros H. specialize (H infinity).
  apply (f_equal (fun rows => map Indicator_2 (firstn 2 rows))) in H.
  vm_compute in H. discriminate H.
Qed.

(** In the same run the seventeen rows of [results_df], all of one key too,
    did come out in the order of [results]. *)
Example two_segment_results_order :
  rows_of results_df two_segment_run = rows_of results two_segment_run /\
  map (fun row => abs (t_value row)) (rows_of results two_segment_run)
  = repeat infinity 17.
Proof. split; vm_compute; reflexivity. Qed.

(** * Further properties of the code

    ** Extraction and Table 1 of [analyze_data.py] *)

Lemma filter_twice {A : Type} (f g : A -> bool) (l : list A) :
  filter f (filter g l) = filter (fun x => g x && f x) l.
Proof.
  induction l as [ | a l IH]; cbn; [reflexivity | ].
  destruct (g a); cbn; [destruct (f a) | ]; now rewrite IH.
Qed.

(** X1: cutting the table down to a cut and a subcut before calling
    [extract_metrics] for that cut and subcut, as lines 29-36 do, changes
    nothing of what it returns. *)
Theorem extract_metrics_prefiltered (df : list IndicatorRecord)
    (indicators : list string) (c s : string) :
  extract_metrics
    (filter (fun x => (subcut x =? s)%string)
            (filter (fun x => (cut x =? c)%string) df))
    indicators c s
  = extract_metrics df indicators c s.
Proof.
  unfold extract_metrics. f_equal. rewrite !filter_twice.
  apply filter_ext. intros x.
  destruct (cut x =? c)%string, (subcut x =? s)%string; reflexivity.
Qed.

(** The first metric of an indicator is the first matching row of the
    table. *)
Lemma first_metric_extract (df : list IndicatorRecord) (indicators : list string)
    (c s i : string) :
  In i indicators ->
  first_metric (extract_metrics df indicators c s) i
  = option_map (fun x => {| m_indicator := indicator x; m_value := value x;
                            m_se := se x; m_N := sample_N x |})
               (find (fun x => ((cut x =? c) && (subcut x =? s)
                                && (indicator x =? i))%string) df).
Proof.
  intros Hi. unfold first_metric, extract_metrics.
  assert (Hisin : isin i indicators = true).
  { unfold isin. apply existsb_exists. exists i. split; [assumption | ].
    apply String.eqb_refl. }
  induction df as [ | x df IH]; cbn; [reflexivity | ].
  destruct (cut x =? c)%string; cbn; [ | exact IH].
  destruct (subcut x =? s)%string; cbn; [ | exact IH].
  destruct (indicator x =? i)%string eqn:E.
  - assert (His : isin (indicator x) indicators = true)
      by (apply String.eqb_eq in E; now rewrite E).
    rewrite His. cbn. rewrite E. reflexivity.
  - destruct (isin (indicator x) indicators); cbn; [rewrite E | ]; exact IH.
Qed.

Lemma find_filter_head {A : Type} (f : A -> bool) (l : list A) :
  find f l = match filter f l with
             | x :: _ => Some x
             | [] => None
             end.
Proof.
  induction l as [ | a l IH]; cbn; [reflexivity | ].
  destruct (f a); [reflexivity | exact IH].
Qed.

(** X2: the two extractors agree: for a requested indicator, [get_value]
    returns the value of the first row [extract_metrics] returns for it, and
    [None] when there is no such row. *)
Theorem get_value_of_extract_metrics (df : list IndicatorRecord)
    (indicators : list string) (c s i : string) :
  In i indicators ->
  get_value df c s i
  = option_map m_value (first_metric (extract_metrics df indicators c s) i).
Proof.
  intros Hi. rewrite (first_metric_extract df indicators c s i Hi).
  rewrite get_value_filter, find_filter_head.
  now destruct (filter _ df).
Qed.

Lemma get_value_of_extract_metrics_witness :
  get_value scenario_table "Size" "Small (5-19)" "bready_t1"
  = option_map m_value
      (first_metric (extract_metrics scenario_table ["t5"; "bready_t1"]%string
                                     "Size" "Small (5-19)") "bready_t1").
Proof.
  apply (get_value_of_extract_metrics scenario_table ["t5"; "bready_t1"]%string).
  cbn. auto.
Defined.

(** What a pass of the loop of Table 1 does with the three rows it finds. *)
Lemma table1_row_found (small_inn medium_inn large_inn : list Metric) (ind : string)
    (s m l : Metric) :
  first_metric small_inn ind = Some s ->
  first_metric medium_inn ind = Some m ->
  first_metric large_inn ind = Some l ->
  table1_row small_inn medium_inn large_inn ind
  = ok {| t1_indicator := ind;
          t1_description := dict_get_default descriptions ind ind;
          small_value := rounded_cell (m_value s);
          small_se := rounded_cell (m_se s);
          small_N := number_cell (m_N s);
          medium_value := rounded_cell (m_value m);
          medium_se := rounded_cell (m_se m);
          medium_N := number_cell (m_N m);
          large_value := rounded_cell (m_value l);
          large_se := if negb (Num.isnan (m_se s))
                      then Number (round_1 (m_se l)) else Blank;
          large_N := number_cell (m_N l) |}.
Proof.
  intros Hs Hm Hl. unfold table1_row. rewrite Hs, Hm, Hl. cbn.
  now destruct (Num.isnan (m_se s)).
Qed.

Lemma table1_row_missing (small_inn medium_inn large_inn : list Metric)
    (ind : string) :
  first_metric small_inn ind = None \/ first_metric medium_inn ind = None
  \/ first_metric large_inn ind = None ->
  table1_row small_inn medium_inn large_inn ind = raise (KeyError "value").
Proof.
  unfold table1_row.
  destruct (first_metric small_inn ind) as [s | ]; [ | reflexivity].
  destruct (first_metric medium_inn ind) as [m | ]; [ | reflexivity].
  destruct (first_metric large_inn ind) as [l | ]; [ | reflexivity].
  intros [H | [H | H]]; discriminate.
Qed.

Lemma mapM_all_ok {A B : Type} (f : A -> result B) (l : list A) :
  (forall a, In a l -> exists b, f a = ok b) ->
  exists bs, mapM f l = ok bs.
Proof.
  induction l as [ | a l IH]; cbn; intros H; [eauto | ].
  destruct (H a (or_introl eq_refl)) as [b ->]. cbn.
  destruct IH as [bs ->]; [intros; apply H; now right | ]. cbn. eauto.
Qed.

Lemma mapM_one_error {A B : Type} (f : A -> result B) (l : list A) (e : error) :
  (forall a, In a l -> (exists b, f a = ok b) \/ f a = raise e) ->
  (exists a, In a l /\ f a = raise e) ->
  mapM f l = raise e.
Proof.
  induction l as [ | a l IH]; cbn; intros Hall [a' [Hin Ha']]; [contradiction | ].
  destruct (Hall a (or_introl eq_refl)) as [[b Hb] | Hb]; rewrite Hb; [ | reflexivity].
  cbn. rewrite IH; [reflexivity | intros; apply Hall; now right | ].
  destruct Hin as [<- | Hin].
  - rewrite Hb in Ha'. discriminate.
  - eauto.
Qed.

Lemma first_metric_size (data : list IndicatorRecord) (size ind : string) :
  In ind inn_indicators ->
  first_metric (size_metrics data size) ind = None
  <-> get_value data "Size" size ind = None.
Proof.
  intros Hind. unfold size_metrics.
  assert (Hwhole : forall group,
             group = filter (fun x => (subcut x =? size)%string)
                            (filter (fun x => (cut x =? "Size")%string) data) ->
             extract_metrics group inn_indicators "Size" size
             = extract_metrics data inn_indicators "Size" size).
  { intros group ->. unfold extract_metrics. f_equal. rewrite !filter_twice.
    apply filter_ext. intros x.
    destruct (cut x =? "Size")%string, (subcut x =? size)%string; reflexivity. }
  rewrite (Hwhole _ eq_refl). clear Hwhole.
  rewrite (first_metric_extract data inn_indicators "Size" size ind Hind).
  rewrite get_value_filter, find_filter_head.
  destruct (filter _ data) as [ | x rest]; cbn.
  - split; intros _; reflexivity.
  - split; intros H; discriminate H.
Qed.

(** X3: Table 1 is built when each of its four indicators has a row in each
    of the three size groups, one row per indicator in the order of
    [inn_indicators]; when an indicator has no row in a group the script
    stops with [KeyError: 'value'], the placeholder of four NaN having no
    field of that name. *)
Theorem table1_needs_every_cell (data : list IndicatorRecord) :
  ((forall ind size,
       In ind inn_indicators ->
       In size ["Small (5-19)"; "Medium (20-99)"; "Large (100+)"]%string ->
       get_value data "Size" size ind <> None) ->
   exists rows, table1 data = ok rows /\ map t1_indicator rows = inn_indicators) /\
  (forall ind size,
       In ind inn_indicators ->
       In size ["Small (5-19)"; "Medium (20-99)"; "Large (100+)"]%string ->
       get_value data "Size" size ind = None ->
       table1 data = raise (KeyError "value")).
Proof.
  assert (Hpass : forall ind, In ind inn_indicators ->
            (exists row, table1_row (size_metrics data "Small (5-19)")
                                    (size_metrics data "Medium (20-99)")
                                    (size_metrics data "Large (100+)") ind = ok row
                         /\ t1_indicator row = ind)
            \/ table1_row (size_metrics data "Small (5-19)")
                          (size_metrics data "Medium (20-99)")
                          (size_metrics data "Large (100+)") ind
               = raise (KeyError "value")).
  { intros ind Hind.
    destruct (first_metric (size_metrics data "Small (5-19)") ind) as [s | ] eqn:Es;
      [ | right; apply table1_row_missing; auto].
    destruct (first_metric (size_metrics data "Medium (20-99)") ind) as [m | ] eqn:Em;
      [ | right; apply table1_row_missing; auto].
    destruct (first_metric (size_metrics data "Large (100+)") ind) as [l | ] eqn:El;
      [ | right; apply table1_row_missing; auto].
    left. rewrite (table1_row_found _ _ _ ind s m l Es Em El). eauto. }
  split.
  - intros Hall. unfold table1. cbv zeta.
    assert (Hok : forall ind, In ind inn_indicators ->
              exists row, table1_row (size_metrics data "Small (5-19)")
                                     (size_metrics data "Medium (20-99)")
                                     (size_metrics data "Large (100+)") ind = ok row
                          /\ t1_indicator row = ind).
    { intros ind Hind. destruct (Hpass ind Hind) as [H | H]; [exact H | exfalso].
      unfold table1_row in H.
      destruct (first_metric (size_metrics data "Small (5-19)") ind) eqn:Es.
      2:{ apply first_metric_size in Es; [ | assumption].
          apply (Hall ind "Small (5-19)"%string Hind); cbn; auto. }
      destruct (first_metric (size_metrics data "Medium (20-99)") ind) eqn:Em.
      2:{ apply first_metric_size in Em; [ | assumption].
          apply (Hall ind "Medium (20-99)"%string Hind); cbn; auto. }
      destruct (first_metric (size_metrics data "Large (100+)") ind) eqn:El.
      2:{ apply first_metric_size in El; [ | assumption].
          apply (Hall ind "Large (100+)"%string Hind); cbn; auto. }
      cbn in H. destruct (Num.isnan (m_se m)); discriminate. }
    revert Hok. generalize inn_indicators as inds.
    induction inds as [ | ind inds IH]; intros Hok; cbn; [eauto | ].
    destruct (Hok ind (or_introl eq_refl)) as [row [-> Hrow]]. cbn.
    destruct IH as [rows [-> Hrows]]; [intros; apply Hok; now right | ].
    cbn. eexists. split; [reflexivity | ]. cbn. congruence.
  - intros ind size Hind Hsize Hnone. unfold table1. cbv zeta.
    apply mapM_one_error.
    + intros a Ha. destruct (Hpass a Ha) as [[row [H _]] | H]; eauto.
    + exists ind. split; [assumption | ]. apply table1_row_missing.
      apply first_metric_size in Hnone; [ | assumption].
      cbn in Hsize.
      destruct Hsize as [<- | [<- | [<- | []]]]; auto.
Qed.

Lemma table1_needs_every_cell_witness :
  (exists rows, table1 size_table = ok rows
                /\ map t1_indicator rows = inn_indicators) /\
  table1 (tl size_table) = raise (KeyError "value").
Proof.
  split.
  - apply (proj1 (table1_needs_every_cell size_table)).
    intros ind size Hind Hsize.
    cbn in Hind, Hsize.
    destruct Hind as [<- | [<- | [<- | [<- | []]]]];
      destruct Hsize as [<- | [<- | [<- | []]]]; vm_compute; discriminate.
  - apply (proj2 (table1_needs_every_cell (tl size_table))
                 "t5"%string "Small (5-19)"%string).
    + cbn. auto.
    + cbn. auto.
    + vm_compute. reflexivity.
Defined.

(** X4: in every row of Table 1 the cell of the large firms' standard error
    is blank exactly when the cell of the small firms' is: line 55 tests the
    small firms' standard error, not the large firms'. *)
Theorem table1_large_se_follows_small (data : list IndicatorRecord)
    (rows : list Table1Row) (row : Table1Row) :
  table1 data = ok rows -> In row rows ->
  (large_se row = Blank <-> small_se row = Blank) /\
  exists s l,
    first_metric (size_metrics data "Small (5-19)") (t1_indicator row) = Some s /\
    first_metric (size_metrics data "Large (100+)") (t1_indicator row) = Some l /\
    small_se row = rounded_cell (m_se s) /\
    large_se row = (if Num.isnan (m_se s) then Blank
                    else Number (round_1 (m_se l))).
Proof.
  unfold table1. cbv zeta. intros H Hrow.
  destruct (mapM_In _ _ _ _ H Hrow) as [ind [_ Hpass]].
  destruct (first_metric (size_metrics data "Small (5-19)") ind) as [s | ] eqn:Es;
    [ | rewrite table1_row_missing in Hpass by auto; discriminate].
  destruct (first_metric (size_metrics data "Medium (20-99)") ind) as [m | ] eqn:Em;
    [ | rewrite table1_row_missing in Hpass by auto; discriminate].
  destruct (first_metric (size_metrics data "Large (100+)") ind) as [l | ] eqn:El;
    [ | rewrite table1_row_missing in Hpass by auto; discriminate].
  rewrite (table1_row_found _ _ _ ind s m l Es Em El) in Hpass.
  injection Hpass as <-. cbn. rewrite Es, El. unfold rounded_cell.
  split.
  - destruct (Num.isnan (m_se s)); cbn; split; intros; congruence.
  - exists s, l. repeat split. now destruct (Num.isnan (m_se s)).
Qed.

Lemma table1_large_se_follows_small_witness :
  exists rows row,
    table1 size_table = ok rows /\ In row rows /\
    t1_indicator row = "t7"%string /\
    (large_se row = Blank <-> small_se row = Blank) /\
    large_se row = Blank /\
    exists s l,
      first_metric (size_metrics size_table "Small (5-19)") (t1_indicator row)
      = Some s /\
      first_metric (size_metrics size_table "Large (100+)") (t1_indicator row)
      = Some l /\
      small_se row = rounded_cell (m_se s) /\
      large_se row = (if Num.isnan (m_se s) then Blank
                      else Number (round_1 (m_se l))).
Proof.
  eexists. eexists.
  split; [vm_compute; reflexivity | ].
  split; [right; left; reflexivity | ].
  split; [reflexivity | ].
  assert (H := table1_large_se_follows_small size_table).
  split; [ | split; [reflexivity | ] ].
  - eapply H; [vm_compute; reflexivity | right; left; reflexivity].
  - eapply H; [vm_compute; reflexivity | right; left; reflexivity].
Defined.

(** ** Deduplication and the shape of [pivoted] *)

Lemma drop_duplicates_from_distinct (rows seen : list IndicatorRecord) :
  has_duplicates rows = false ->
  (forall x, In x rows -> existsb (key_eqb x) seen = false) ->
  drop_duplicates_from seen rows = rows.
Proof.
  revert seen. induction rows as [ | x rows IH]; intros seen; cbn; [reflexivity | ].
  intros Hdup Hseen. apply orb_false_iff in Hdup. destruct Hdup as [Hx Hdup].
  rewrite (Hseen x (or_introl eq_refl)). f_equal.
  apply IH; [assumption | ].
  intros y Hy. cbn. rewrite (Hseen y (or_intror Hy)), orb_false_r.
  rewrite key_eqb_sym.
  destruct (key_eqb x y) eqn:E; [ | reflexivity].
  assert (existsb (key_eqb x) rows = true)
    by (apply existsb_exists; eauto).
  congruence.
Qed.

Lemma drop_duplicates_from_In (rows seen : list IndicatorRecord)
    (y : IndicatorRecord) :
  In y (drop_duplicates_from seen rows) -> In y rows.
Proof.
  revert seen. induction rows as [ | x rest IH]; intros seen; cbn; [tauto | ].
  destruct (existsb (key_eqb x) seen).
  - intros H. right. now apply (IH seen).
  - intros [-> | H]; [now left | right; now apply (IH (x :: seen))].
Qed.

(** Every key of the table that was not seen before survives. *)
Lemma drop_duplicates_from_keeps_keys (rows seen : list IndicatorRecord)
    (x : IndicatorRecord) :
  In x rows -> existsb (key_eqb x) seen = false ->
  exists y, In y (drop_duplicates_from seen rows) /\ key_eqb x y = true.
Proof.
  revert seen. induction rows as [ | a rows IH]; intros seen; cbn; [tauto | ].
  intros Hin Hseen.
  destruct (existsb (key_eqb a) seen) eqn:Ea.
  - destruct Hin as [-> | Hin]; [congruence | now apply IH].
  - destruct (key_eqb x a) eqn:Exa.
    + exists a. split; [now left | assumption].
    + destruct Hin as [-> | Hin].
      * exists x. split; [now left | ]. apply key_eqb_iff. auto.
      * destruct (IH (a :: seen) Hin) as [y [Hy Hxy]];
          [cbn; now rewrite Exa, Hseen | ].
        exists y. split; [now right | assumption].
Qed.

(** X5: [drop_duplicates] leaves no two rows with one key, keeps a row for
    every key of the table, returns a table without repeated keys as it is,
    and so does nothing when applied a second time. *)
Theorem drop_duplicates_once (rows : list IndicatorRecord) :
  has_duplicates (drop_duplicates rows) = false /\
  (forall x, In x rows ->
     exists y, In y (drop_duplicates rows) /\ In y rows /\ key_eqb x y = true) /\
  (has_duplicates rows = false -> drop_duplicates rows = rows) /\
  drop_duplicates (drop_duplicates rows) = drop_duplicates rows.
Proof.
  assert (Hdistinct : forall l, has_duplicates l = false -> drop_duplicates l = l).
  { intros l Hl. apply drop_duplicates_from_distinct; [assumption | reflexivity]. }
  split; [apply has_duplicates_drop_from | ].
  split; [ | split; [apply Hdistinct | apply Hdistinct, has_duplicates_drop_from]].
  intros x Hx.
  destruct (drop_duplicates_from_keeps_keys rows [] x Hx eq_refl) as [y [Hy Hxy]].
  exists y. repeat split; try assumption.
  now apply (drop_duplicates_from_In rows []).
Qed.

(** *** The axis labels *)

Section LabelFacts.

Context {A : Type} (compare : A -> A -> comparison).

Hypothesis compare_eq : forall a b, compare a b = Eq -> a = b.
Hypothesis compare_antisym : forall a b, compare b a = CompOpp (compare a b).
Hypothesis compare_trans :
  forall a b c, compare a b = Lt -> compare b c = Lt -> compare a c = Lt.

Lemma insert_label_In (a x : A) (l : list A) :
  In x (insert_label compare a l) <-> x = a \/ In x l.
Proof.
  induction l as [ | b l IH]; cbn; [intuition | ].
  destruct (compare a b) eqn:E; cbn.
  - apply compare_eq in E. subst. intuition.
  - intuition.
  - rewrite IH. intuition.
Qed.

Lemma sorted_labels_In (x : A) (l : list A) :
  In x (sorted_labels compare l) <-> In x l.
Proof.
  unfold sorted_labels. induction l as [ | a l IH]; cbn; [tauto | ].
  rewrite insert_label_In, IH. intuition.
Qed.

Lemma insert_label_sorted (a : A) (l : list A) :
  StronglySorted (fun x y => compare x y = Lt) l ->
  StronglySorted (fun x y => compare x y = Lt) (insert_label compare a l).
Proof.
  induction 1 as [ | b l Hl IH Hb]; cbn; [repeat constructor | ].
  destruct (compare a b) eqn:E.
  - now constructor.
  - constructor; [now constructor | ].
    constructor; [assumption | ].
    eapply Forall_impl; [ | exact Hb]. cbn. intros c Hc. now apply (compare_trans a b c).
  - constructor; [assumption | ].
    apply Forall_forall. intros x Hx. apply insert_label_In in Hx.
    destruct Hx as [-> | Hx].
    + rewrite compare_antisym, E. reflexivity.
    + rewrite Forall_forall in Hb. now apply Hb.
Qed.

Lemma sorted_labels_sorted (l : list A) :
  StronglySorted (fun x y => compare x y = Lt) (sorted_labels compare l).
Proof.
  unfold sorted_labels. induction l as [ | a l IH]; cbn; [constructor | ].
  now apply insert_label_sorted.
Qed.

Lemma sorted_NoDup (l : list A) :
  StronglySorted (fun x y => compare x y = Lt) l -> NoDup l.
Proof.
  induction 1 as [ | a l _ IH Ha]; constructor; [ | assumption].
  intros Hin. rewrite Forall_forall in Ha. specialize (Ha a Hin).
  pose proof (compare_antisym a a) as H. rewrite Ha in H. discriminate.
Qed.

End LabelFacts.

Lemma ascii_compare_trans (a b c : Ascii.ascii) :
  Ascii.compare a b = Lt -> Ascii.compare b c = Lt -> Ascii.compare a c = Lt.
Proof.
  unfold Ascii.compare. rewrite !N.compare_lt_iff. apply N.lt_trans.
Qed.

Lemma string_compare_trans (a b c : string) :
  String.compare a b = Lt -> String.compare b c = Lt -> String.compare a c = Lt.
Proof.
  revert b c. induction a as [ | x a IH]; intros [ | y b] [ | z c]; cbn;
    try discriminate; try reflexivity.
  destruct (Ascii.compare x y) eqn:Exy; try discriminate;
    destruct (Ascii.compare y z) eqn:Eyz; try discriminate; intros Hab Hbc.
  - apply Ascii.compare_eq_iff in Exy, Eyz. subst.
    assert (E : Ascii.compare z z = Eq)
      by (unfold Ascii.compare; apply N.compare_refl).
    rewrite E. now apply (IH b c).
  - apply Ascii.compare_eq_iff in Exy. subst. now rewrite Eyz.
  - apply Ascii.compare_eq_iff in Eyz. subst. now rewrite Exy.
  - now rewrite (ascii_compare_trans x y z Exy Eyz).
Qed.

Lemma string_compare_antisym (a b : string) :
  String.compare b a = CompOpp (String.compare a b).
Proof. apply String.compare_antisym. Qed.

Lemma string_compare_refl (a : string) : String.compare a a = Eq.
Proof.
  pose proof (String.compare_antisym a a) as H.
  destruct (String.compare a a); try reflexivity; discriminate.
Qed.

Lemma segment_compare_eq (a b : Segment) : segment_compare a b = Eq -> a = b.
Proof.
  unfold segment_compare. destruct a as [a1 a2], b as [b1 b2]. cbn.
  destruct (String.compare a1 b1) eqn:E1; try discriminate.
  intros E2. apply String.compare_eq_iff in E1, E2. congruence.
Qed.

Lemma segment_compare_antisym (a b : Segment) :
  segment_compare b a = CompOpp (segment_compare a b).
Proof.
  unfold segment_compare. rewrite (String.compare_antisym (fst b) (fst a)).
  destruct (String.compare (fst a) (fst b)); cbn; try reflexivity.
  apply String.compare_antisym.
Qed.

Lemma segment_compare_trans (a b c : Segment) :
  segment_compare a b = Lt -> segment_compare b c = Lt -> segment_compare a c = Lt.
Proof.
  unfold segment_compare. destruct a as [a1 a2], b as [b1 b2], c as [c1 c2]. cbn.
  destruct (String.compare a1 b1) eqn:E1; try discriminate;
    destruct (String.compare b1 c1) eqn:E2; try discriminate; intros H1 H2.
  - apply String.compare_eq_iff in E1, E2. subst.
    rewrite string_compare_refl. now apply (string_compare_trans a2 b2 c2).
  - apply String.compare_eq_iff in E1. subst. now rewrite E2.
  - apply String.compare_eq_iff in E2. subst. now rewrite E1.
  - now rewrite (string_compare_trans a1 b1 c1 E1 E2).
Qed.

(** *** What [make_pivoted] needs and what it returns *)

Lemma isin_In (label : string) (labels : list string) :
  isin label labels = true <-> In label labels.
Proof.
  unfold isin. rewrite existsb_exists. split.
  - intros [l [Hl E]]. apply String.eqb_eq in E. now subst.
  - intros H. exists label. split; [assumption | apply String.eqb_refl].
Qed.

Lemma requested_In (data : list IndicatorRecord) (inds : list string)
    (x : IndicatorRecord) :
  In x (requested data inds)
  <-> In x data /\ subcut x <> ""%string /\ In (indicator x) inds.
Proof.
  unfold requested. cbv zeta. rewrite !filter_In, isin_In, negb_true_iff.
  rewrite String.eqb_neq. tauto.
Qed.

Lemma index_of_None (label : string) (columns : list string) :
  index_of label columns = None <-> ~ In label columns.
Proof.
  split.
  - intros H Hin. destruct (index_of_In _ _ Hin) as [i Hi]. congruence.
  - intros H. destruct (index_of label columns) as [i | ] eqn:E; [ | reflexivity].
    exfalso. apply H. apply index_of_nth_error in E. now apply nth_error_In in E.
Qed.

(** The indicator columns of a pivot are the indicators of its rows. *)
Lemma pivot_columns (rows : list IndicatorRecord) (w : Wide) (label : string) :
  pivot rows = ok w ->
  In label (w_columns w) <-> exists x, In x rows /\ indicator x = label.
Proof.
  unfold pivot. destruct (has_duplicates rows); [discriminate | ].
  intros [= <-]. cbn.
  rewrite (sorted_labels_In String.compare String.compare_eq_iff), in_map_iff.
  firstorder.
Qed.

Lemma drop_duplicates_indicators (rows : list IndicatorRecord) (label : string) :
  (exists x, In x (drop_duplicates rows) /\ indicator x = label)
  <-> exists x, In x rows /\ indicator x = label.
Proof.
  split.
  - intros [x [Hx E]]. exists x. split; [ | assumption].
    now apply (drop_duplicates_from_In rows []).
  - intros [x [Hx E]].
    destruct (drop_duplicates_from_keeps_keys rows [] x Hx eq_refl) as [y [Hy Hxy]].
    apply key_eqb_iff in Hxy. exists y. split; [assumption | ].
    destruct Hxy. congruence.
Qed.

(** X6: [make_pivoted] succeeds when every requested indicator has a row
    with a subcut in the table, and never stops on duplicate keys; when a
    requested indicator has no such row it stops with a [KeyError] that names
    a requested indicator without one ([dropna] is given a column the pivot
    did not make). *)
Theorem make_pivoted_needs_every_indicator (data : list IndicatorRecord)
    (inds : list string) :
  ((forall l, In l inds ->
      exists x, In x data /\ indicator x = l /\ subcut x <> ""%string) ->
   exists pivoted, make_pivoted data inds = ok pivoted) /\
  (forall l, In l inds ->
     (forall x, In x data -> indicator x = l -> subcut x = ""%string) ->
     exists l', make_pivoted data inds = raise (KeyError l') /\ In l' inds /\
                forall x, In x data -> indicator x = l' -> subcut x = ""%string).
Proof.
  unfold make_pivoted. cbv zeta.
  destruct (pivot_drop_duplicates (requested data inds)) as [w Hw].
  rewrite Hw, bind_ok_l.
  assert (Hcol : forall l, In l inds ->
            (In l (w_columns w)
             <-> exists x, In x data /\ indicator x = l /\ subcut x <> ""%string)).
  { intros l Hl. rewrite (pivot_columns _ w l Hw), drop_duplicates_indicators.
    split.
    - intros [x [Hx E]]. apply requested_In in Hx. exists x. tauto.
    - intros [x [Hx [E Hs]]]. exists x. split; [ | assumption].
      apply requested_In. rewrite E. tauto. }
  unfold dropna_all.
  destruct (missing_label w inds) as [l' | ] eqn:Emiss.
  - unfold missing_label in Emiss. apply find_some in Emiss.
    destruct Emiss as [Hl' Hnone].
    assert (Hnot : ~ In l' (w_columns w)).
    { apply index_of_None. now destruct (index_of l' (w_columns w)). }
    split.
    + intros Hall. exfalso. apply Hnot. apply (Hcol l' Hl'). now apply Hall.
    + intros l Hl Habsent. exists l'. split; [reflexivity | ]. split; [assumption | ].
      intros x Hx E.
      destruct (String.eqb_spec (subcut x) "") as [Hs | Hs]; [assumption | ].
      exfalso. apply Hnot. apply (Hcol l' Hl'). eauto.
  - split; [eauto | ].
    intros l Hl Habsent. exfalso.
    unfold missing_label in Emiss.
    pose proof (find_none _ _ Emiss l Hl) as Hsome. cbn in Hsome.
    destruct (index_of l (w_columns w)) as [i | ] eqn:Ei; [ | discriminate].
    assert (Hin : In l (w_columns w)).
    { apply index_of_nth_error in Ei. now apply nth_error_In in Ei. }
    apply (Hcol l Hl) in Hin. destruct Hin as [x [Hx [E Hs]]].
    apply Hs. now apply Habsent.
Qed.

Lemma make_pivoted_needs_every_indicator_witness :
  (exists pivoted, make_pivoted missing_table ["t5"; "perf3"]%string = ok pivoted) /\
  (exists l', make_pivoted missing_table ["t5"; "fin14"]%string = raise (KeyError l')
              /\ In l' ["t5"; "fin14"]%string
              /\ forall x, In x missing_table -> indicator x = l' ->
                           subcut x = ""%string).
Proof.
  split.
  - apply (proj1 (make_pivoted_needs_every_indicator missing_table
                                                     ["t5"; "perf3"]%string)).
    intros l [<- | [<- | []]].
    + eexists. split; [left; reflexivity | split; [reflexivity | discriminate]].
    + eexists. split; [right; right; left; reflexivity
                      | split; [reflexivity | discriminate]].
  - apply (proj2 (make_pivoted_needs_every_indicator missing_table
                                                     ["t5"; "fin14"]%string)
                 "fin14"%string).
    + cbn. auto.
    + intros x Hx E. cbn in Hx.
      destruct Hx as [<- | [<- | [<- | [<- | []]]]]; discriminate.
Defined.

Lemma pivot_inv (rows : list IndicatorRecord) (w : Wide) :
  pivot rows = ok w ->
  w_columns w = sorted_labels String.compare (map indicator rows) /\
  w_rows w
  = map (fun seg => {| w_cut := fst seg; w_subcut := snd seg;
                       w_values := map (lookup_value rows seg) (w_columns w) |})
        (sorted_labels segment_compare (map segment_of rows)).
Proof.
  unfold pivot. destruct (has_duplicates rows); [discriminate | ].
  intros [= <-]. split; reflexivity.
Qed.

Lemma StronglySorted_filter {B : Type} (R : B -> B -> Prop) (f : B -> bool)
    (l : list B) :
  StronglySorted R l -> StronglySorted R (filter f l).
Proof.
  induction 1 as [ | a l _ IH Ha]; cbn; [constructor | ].
  destruct (f a); [ | assumption].
  constructor; [assumption | ].
  apply Forall_forall. intros x Hx. apply filter_In in Hx.
  rewrite Forall_forall in Ha. now apply Ha.
Qed.

Lemma StronglySorted_unmap {B C : Type} (R : C -> C -> Prop) (f : B -> C)
    (l : list B) :
  StronglySorted R (map f l) -> StronglySorted (fun x y => R (f x) (f y)) l.
Proof.
  induction l as [ | a l IH]; cbn; [constructor | ].
  intros H. inversion H as [ | ? ? Hl Ha]; subst.
  constructor; [now apply IH | ].
  apply Forall_forall. intros x Hx. rewrite Forall_forall in Ha.
  apply Ha. now apply in_map.
Qed.

(** X7: the shape of [pivoted]: its indicator columns are the requested
    indicators, in ascending order and each once; every row has a value for
    every column; the rows are in ascending order of [(cut, subcut)], so that
    no segment has two rows and [len(pivoted)] counts segments. *)
Theorem pivoted_shape (data : list IndicatorRecord) (inds : list string)
    (pivoted : Wide) :
  make_pivoted data inds = ok pivoted ->
  (forall l, In l (w_columns pivoted) <-> In l inds) /\
  StronglySorted (fun a b => String.compare a b = Lt) (w_columns pivoted) /\
  NoDup (w_columns pivoted) /\
  (forall row, In row (w_rows pivoted) ->
     length (w_values row) = length (w_columns pivoted)) /\
  StronglySorted
    (fun a b => segment_compare (w_cut a, w_subcut a) (w_cut b, w_subcut b) = Lt)
    (w_rows pivoted) /\
  NoDup (map (fun row => (w_cut row, w_subcut row)) (w_rows pivoted)).
Proof.
  intros H.
  destruct (make_pivoted_inv _ _ _ H) as [w [Hp Hd]].
  destruct (dropna_all_inv _ _ _ Hd) as [Hc [Hr Hlabels]].
  assert (Hcols : forall l, In l (w_columns w) <-> In l inds).
  { intros l. split.
    - intros Hl. apply (pivot_columns _ w l Hp) in Hl.
      destruct Hl as [x [Hx <-]].
      apply (drop_duplicates_from_In _ []), requested_In in Hx. tauto.
    - intros Hl. destruct (Hlabels l Hl) as [i Hi].
      apply index_of_nth_error in Hi. now apply nth_error_In in Hi. }
  destruct (pivot_inv _ _ Hp) as [Ecols Erows].
  rewrite Hc, Hr.
  assert (Hsorted_cols :
            StronglySorted (fun a b => String.compare a b = Lt) (w_columns w)).
  { rewrite Ecols. apply sorted_labels_sorted.
    - exact String.compare_eq_iff.
    - exact string_compare_antisym.
    - exact string_compare_trans. }
  assert (Hsorted_rows :
            StronglySorted
              (fun a b => segment_compare (w_cut a, w_subcut a)
                                          (w_cut b, w_subcut b) = Lt)
              (filter (has_value w inds) (w_rows w))).
  { apply StronglySorted_filter.
    apply (StronglySorted_unmap (fun a b => segment_compare a b = Lt)
                                (fun row => (w_cut row, w_subcut row))).
    rewrite Erows, map_map. cbn.
    rewrite (map_ext _ (fun seg : Segment => seg)) by (intros [c s]; reflexivity).
    rewrite map_id.
    apply sorted_labels_sorted.
    - exact segment_compare_eq.
    - exact segment_compare_antisym.
    - exact segment_compare_trans. }
  split; [exact Hcols | ].
  split; [exact Hsorted_cols | ].
  split; [apply (sorted_NoDup String.compare string_compare_antisym _ Hsorted_cols) | ].
  split.
  - intros row Hrow. apply filter_In in Hrow. destruct Hrow as [Hrow _].
    rewrite Erows in Hrow.
    apply in_map_iff in Hrow. destruct Hrow as [seg [<- _]]. cbn.
    apply length_map.
  - split; [exact Hsorted_rows | ].
    apply (sorted_NoDup segment_compare segment_compare_antisym).
    now apply (StronglySorted_map (fun a b => segment_compare a b = Lt)
                                  (fun row => (w_cut row, w_subcut row))).
Qed.

Lemma pivoted_shape_witness :
  exists pivoted,
    make_pivoted missing_table ["t5"; "perf3"]%string = ok pivoted /\
    (forall l, In l (w_columns pivoted) <-> In l ["t5"; "perf3"]%string) /\
    StronglySorted (fun a b => String.compare a b = Lt) (w_columns pivoted) /\
    NoDup (w_columns pivoted) /\
    (forall row, In row (w_rows pivoted) ->
       length (w_values row) = length (w_columns pivoted)) /\
    StronglySorted
      (fun a b => segment_compare (w_cut a, w_subcut a) (w_cut b, w_subcut b) = Lt)
      (w_rows pivoted) /\
    NoDup (map (fun row => (w_cut row, w_subcut row)) (w_rows pivoted)).
Proof.
  eexists. split; [vm_compute; reflexivity | ].
  apply (pivoted_shape missing_table ["t5"; "perf3"]%string).
  vm_compute. reflexivity.
Defined.

(** X8: a segment has a row in [pivoted] as soon as the table holds a number
    for it under one requested indicator (the converse of the drop of the
    segments without any). *)
Theorem pivot_keeps_segments_with_a_value (data : list IndicatorRecord)
    (inds : list string) (pivoted : Wide) (seg : Segment) (label : string) :
  make_pivoted data inds = ok pivoted ->
  In label inds ->
  Num.isnan (lookup_value (requested data inds) seg label) = false ->
  exists row, In row (w_rows pivoted) /\ (w_cut row, w_subcut row) = seg /\
              cell pivoted row label
              = Some (lookup_value (requested data inds) seg label).
Proof.
  intros H Hlabel Hnum.
  destruct (make_pivoted_inv _ _ _ H) as [w [Hp Hd]].
  destruct (dropna_all_inv _ _ _ Hd) as [Hc [Hr Hlabels]].
  destruct (Hlabels label Hlabel) as [i Hi].
  (* the first row of the key *)
  assert (Hx : exists x, In x (requested data inds) /\ segment_of x = seg).
  { unfold lookup_value in Hnum.
    destruct (find (matches seg label) (requested data inds)) as [x | ] eqn:E;
      [ | discriminate].
    apply find_some in E. destruct E as [Hx Hm]. apply matches_iff in Hm.
    exists x. tauto. }
  destruct Hx as [x [Hx Hseg]].
  destruct (drop_duplicates_from_keeps_keys _ [] x Hx eq_refl) as [y [Hy Hxy]].
  apply key_eqb_iff in Hxy. destruct Hxy as [Hxy _].
  set (row := {| w_cut := fst seg; w_subcut := snd seg;
                 w_values := map (lookup_value (drop_duplicates (requested data inds)) seg)
                                 (w_columns w) |}).
  assert (Hrow : In row (w_rows w)).
  { destruct (pivot_inv _ _ Hp) as [_ Erows]. rewrite Erows. apply in_map_iff.
    exists seg. split; [reflexivity | ].
    apply (sorted_labels_In segment_compare segment_compare_eq).
    apply in_map_iff. exists y. split; [congruence | assumption]. }
  assert (Hcell : cell w row label
                  = Some (lookup_value (requested data inds) seg label)).
  { rewrite (pivot_cell _ w row label i Hp Hrow Hi).
    rewrite lookup_value_drop_duplicates. cbn. now destruct seg. }
  exists row. split; [ | split; [now destruct seg | ]].
  - rewrite Hr. apply filter_In. split; [assumption | ].
    unfold has_value. apply existsb_exists. exists label.
    split; [assumption | ]. rewrite Hcell. now rewrite Hnum.
  - now rewrite (cell_same_columns w pivoted row label Hc).
Qed.

Lemma pivot_keeps_segments_with_a_value_witness :
  exists pivoted row,
    make_pivoted missing_table ["t5"; "perf3"]%string = ok pivoted /\
    In row (w_rows pivoted) /\
    (w_cut row, w_subcut row) = ("Size", "Small (5-19)")%string /\
    cell pivoted row "perf3"
    = Some (lookup_value (requested missing_table ["t5"; "perf3"]%string)
                         ("Size", "Small (5-19)")%string "perf3").
Proof.
  destruct (pivot_keeps_segments_with_a_value
              missing_table ["t5"; "perf3"]%string
              {| w_columns := ["perf3"; "t5"]%string;
                 w_rows := [ {| w_cut := "Size"; w_subcut := "Small (5-19)";
                                w_values := [3; 40] |} ] |}
              ("Size", "Small (5-19)")%string "perf3"%string)
    as [row [H1 [H2 H3]]].
  - vm_compute. reflexivity.
  - cbn. auto.
  - vm_compute. reflexivity.
  - exists {| w_columns := ["perf3"; "t5"]%string;
              w_rows := [ {| w_cut := "Size"; w_subcut := "Small (5-19)";
                             w_values := [3; 40] |} ] |}, row.
    split; [vm_compute; reflexivity | auto].
Defined.

(** ** The first occurrence of a key *)

(** Without the deduplication the pivot refuses the table. *)
Example pivot_refuses_duplicates :
  pivot duplicate_table
  = raise (ValueError "Index contains duplicate entries, cannot reshape").
Proof. reflexivity. Qed.

Lemma key_eqb_seen (x a : IndicatorRecord) (seen : list IndicatorRecord) :
  key_eqb x a = true -> existsb (key_eqb x) seen = existsb (key_eqb a) seen.
Proof.
  intros H. apply key_eqb_iff in H. destruct H as [Hs Hi].
  induction seen as [ | b seen IH]; cbn; [reflexivity | ].
  rewrite IH. f_equal. unfold key_eqb. now rewrite Hs, Hi.
Qed.

(** No row is kept whose key was seen. *)
Lemma drop_duplicates_from_seen (rows seen : list IndicatorRecord)
    (x : IndicatorRecord) :
  existsb (key_eqb x) seen = true ->
  filter (key_eqb x) (drop_duplicates_from seen rows) = [].
Proof.
  revert seen. induction rows as [ | a rows IH]; intros seen Hseen;
    cbn [drop_duplicates_from]; [reflexivity | ].
  destruct (existsb (key_eqb a) seen) eqn:Ea; [now apply IH | ].
  cbn [filter]. destruct (key_eqb x a) eqn:Exa.
  - rewrite (key_eqb_seen x a seen Exa) in Hseen. congruence.
  - apply IH. cbn. now rewrite Exa.
Qed.

(** Of the rows of a key that was not seen, the first is kept and no
    other. *)
Lemma drop_duplicates_from_first (rows seen : list IndicatorRecord)
    (x : IndicatorRecord) :
  existsb (key_eqb x) seen = false ->
  filter (key_eqb x) (drop_duplicates_from seen rows)
  = match find (key_eqb x) rows with
    | Some y => [y]
    | None => []
    end.
Proof.
  revert seen. induction rows as [ | a rows IH]; intros seen Hseen;
    cbn [drop_duplicates_from find]; [reflexivity | ].
  destruct (existsb (key_eqb a) seen) eqn:Ea.
  - destruct (key_eqb x a) eqn:Exa; [ | now apply IH].
    rewrite (key_eqb_seen x a seen Exa) in Hseen. congruence.
  - cbn [filter]. destruct (key_eqb x a) eqn:Exa.
    + f_equal. apply drop_duplicates_from_seen. cbn. now rewrite Exa.
    + apply IH. cbn. now rewrite Exa.
Qed.

Lemma find_key (rows : list IndicatorRecord) (x : IndicatorRecord) :
  In x rows -> exists y, find (key_eqb x) rows = Some y.
Proof.
  intros Hx. destruct (find (key_eqb x) rows) as [y | ] eqn:E; [eauto | ].
  pose proof (find_none _ _ E x Hx) as Hnone.
  assert (Hrefl : key_eqb x x = true) by (apply key_eqb_iff; auto).
  congruence.
Qed.

(** The lookup of a row's segment and indicator is the value of the first
    row with its key. *)
Lemma lookup_value_first (rows : list IndicatorRecord) (x y : IndicatorRecord) :
  find (key_eqb x) rows = Some y ->
  lookup_value rows (segment_of x) (indicator x) = value y.
Proof.
  unfold lookup_value. intros H.
  assert (Hsame : find (matches (segment_of x) (indicator x)) rows
                  = find (key_eqb x) rows).
  { clear H. induction rows as [ | z rows IH]; cbn; [reflexivity | ].
    assert (E : matches (segment_of x) (indicator x) z = key_eqb x z).
    { apply eq_true_iff_eq. rewrite matches_iff, key_eqb_iff.
      intuition congruence. }
    rewrite E, IH. reflexivity. }
  now rewrite Hsame, H.
Qed.

(** The segment of a requested row has a row in the pivot of the
    deduplicated table. *)
Lemma pivot_has_segment (rows : list IndicatorRecord) (w : Wide)
    (x : IndicatorRecord) :
  pivot (drop_duplicates rows) = ok w -> In x rows ->
  In {| w_cut := fst (segment_of x); w_subcut := snd (segment_of x);
        w_values := map (lookup_value (drop_duplicates rows) (segment_of x))
                        (w_columns w) |}
     (w_rows w).
Proof.
  intros Hp Hx.
  destruct (drop_duplicates_from_keeps_keys _ [] x Hx eq_refl) as [y [Hy Hxy]].
  apply key_eqb_iff in Hxy. destruct Hxy as [Hxy _].
  destruct (pivot_inv _ _ Hp) as [_ Erows]. rewrite Erows. apply in_map_iff.
  exists (segment_of x). split; [reflexivity | ].
  apply (sorted_labels_In segment_compare segment_compare_eq).
  apply in_map_iff. exists y. split; [congruence | assumption].
Qed.

(** C4: of the rows with one [(cut, subcut, indicator)] key the
    deduplication keeps the first and no other; every cell of [pivoted]
    holds the value of the first row of its key; every key of the input has
    its first value in [pivoted]: in each row of its segment, and in a row
    that is there as soon as that value is a number; the deduplicated table
    is never refused by the pivot; the two-row table of the specification
    pivots to the value [1], and a table whose second segment comes twice
    keeps both segments, the second with its first value. *)
Theorem pivot_keeps_first_occurrence :
  (forall (rows : list IndicatorRecord) (x : IndicatorRecord),
      In x rows ->
      exists y, find (key_eqb x) rows = Some y /\
                filter (key_eqb x) (drop_duplicates rows) = [y]) /\
  (forall (data : list IndicatorRecord) (inds : list string) (pivoted : Wide)
          (row : WideRow) (label : string),
      make_pivoted data inds = ok pivoted ->
      In row (w_rows pivoted) ->
      In label (w_columns pivoted) ->
      cell pivoted row label
      = Some (lookup_value (requested data inds) (w_cut row, w_subcut row) label)) /\
  (forall (data : list IndicatorRecord) (inds : list string) (pivoted : Wide)
          (x : IndicatorRecord),
      make_pivoted data inds = ok pivoted ->
      In x (requested data inds) ->
      exists y, find (key_eqb x) (requested data inds) = Some y /\
        (forall row, In row (w_rows pivoted) ->
           (w_cut row, w_subcut row) = segment_of x ->
           cell pivoted row (indicator x) = Some (value y)) /\
        (Num.isnan (value y) = false ->
         exists row, In row (w_rows pivoted) /\
                     (w_cut row, w_subcut row) = segment_of x /\
                     cell pivoted row (indicator x) = Some (value y))) /\
  (forall rows : list IndicatorRecord, exists w, pivot (drop_duplicates rows) = ok w) /\
  make_pivoted duplicate_table ["X"]%string
  = ok {| w_columns := ["X"]%string;
          w_rows := [ {| w_cut := "A"; w_subcut := "B"; w_values := [1] |} ] |} /\
  make_pivoted later_duplicate_table ["X"]%string
  = ok {| w_columns := ["X"]%string;
          w_rows := [ {| w_cut := "A"; w_subcut := "B"; w_values := [1] |};
                      {| w_cut := "A"; w_subcut := "C"; w_values := [2] |} ] |}.
Proof.
  split; [ | split; [ | split; [ | split; [exact pivot_drop_duplicates | ]]]].
  - intros rows x Hx. destruct (find_key rows x Hx) as [y Hy].
    exists y. split; [assumption | ].
    unfold drop_duplicates.
    now rewrite (drop_duplicates_from_first rows [] x eq_refl), Hy.
  - intros data inds pivoted row label H Hrow Hlabel.
    destruct (index_of_In _ _ Hlabel) as [i Hi].
    now apply (make_pivoted_cell data inds pivoted row label i).
  - intros data inds pivoted x H Hx.
    destruct (find_key _ x Hx) as [y Hy]. exists y.
    split; [assumption | ].
    pose proof (lookup_value_first _ x y Hy) as Hvalue.
    destruct (make_pivoted_inv _ _ _ H) as [w [Hp Hd]].
    destruct (dropna_all_inv _ _ _ Hd) as [Hc [Hr Hlabels]].
    assert (Hlabel : In (indicator x) inds) by (apply requested_In in Hx; tauto).
    destruct (Hlabels _ Hlabel) as [i Hi].
    split.
    + intros row Hrow Hseg.
      rewrite (make_pivoted_cell data inds pivoted row (indicator x) i H Hrow)
        by now rewrite Hc.
      now rewrite Hseg, Hvalue.
    + intros Hnum.
      pose proof (pivot_has_segment _ w x Hp Hx) as Hrow.
      set (row := {| w_cut := fst (segment_of x); w_subcut := snd (segment_of x);
                     w_values := map (lookup_value
                                        (drop_duplicates (requested data inds))
                                        (segment_of x))
                                     (w_columns w) |}) in Hrow.
      assert (Hcell : cell w row (indicator x) = Some (value y)).
      { rewrite (pivot_cell _ w row (indicator x) i Hp Hrow Hi).
        rewrite lookup_value_drop_duplicates. cbn [w_cut w_subcut row].
        rewrite <- Hvalue. now destruct (segment_of x). }
      exists row. split; [ | split].
      * rewrite Hr. apply filter_In. split; [assumption | ].
        unfold has_value. apply existsb_exists. exists (indicator x).
        split; [assumption | ]. rewrite Hcell. now rewrite Hnum.
      * unfold row, segment_of. reflexivity.
      * now rewrite (cell_same_columns w pivoted row (indicator x) Hc).
  - split; reflexivity.
Qed.

Lemma pivot_keeps_first_occurrence_witness :
  exists y,
    find (key_eqb {| cut := "A"; subcut := "C"; indicator := "X";
                     value := 3; se := nan; sample_N := nan |})
         (requested later_duplicate_table ["X"]%string) = Some y /\
    value y = 2 /\
    exists row,
      In row [ {| w_cut := "A"; w_subcut := "B"; w_values := [1] |};
               {| w_cut := "A"; w_subcut := "C"; w_values := [2] |} ]%string /\
      (w_cut row, w_subcut row) = ("A", "C")%string /\
      cell {| w_columns := ["X"]%string;
              w_rows := [ {| w_cut := "A"; w_subcut := "B"; w_values := [1] |};
                          {| w_cut := "A"; w_subcut := "C"; w_values := [2] |} ] |}
           row "X" = Some 2.
Proof.
  destruct (proj1 (proj2 (proj2 pivot_keeps_first_occurrence))
              later_duplicate_table ["X"]%string
              {| w_columns := ["X"]%string;
                 w_rows := [ {| w_cut := "A"; w_subcut := "B"; w_values := [1] |};
                             {| w_cut := "A"; w_subcut := "C"; w_values := [2] |} ] |}
              {| cut := "A"; subcut := "C"; indicator := "X";
                 value := 3; se := nan; sample_N := nan |})
    as [y [Hy [_ Hrow]]].
  - reflexivity.
  - cbn. auto.
  - exists y. split; [exact Hy | ].
    assert (Ey : value y = 2).
    { vm_compute in Hy. injection Hy as <-. reflexivity. }
    split; [exact Ey | ].
    rewrite Ey in Hrow. apply Hrow. reflexivity.
Defined.

(** ** The sign of a coefficient *)

Lemma SFopp_involutive (x : spec_float) : SFopp (SFopp x) = x.
Proof. destruct x as [s | s | | s m e]; cbn; now rewrite ?negb_involutive. Qed.

Lemma opp_opp (x : float) : - (- x) = x.
Proof.
  apply Prim2SF_inj. rewrite !opp_spec. apply SFopp_involutive.
Qed.

Lemma abs_opp (x : float) : abs (- x) = abs x.
Proof.
  apply Prim2SF_inj. rewrite !FloatAxioms.abs_spec, opp_spec.
  now destruct (Prim2SF x).
Qed.

Lemma binary_round_aux_opp (s : bool) (m e : Z) (l : location) :
  binary_round_aux prec emax (negb s) m e l
  = SFopp (binary_round_aux prec emax s m e l).
Proof.
  unfold binary_round_aux.
  destruct (shr_fexp prec emax m e l) as [mrs' e'].
  destruct (shr_fexp prec emax _ e' loc_Exact) as [mrs'' e''].
  destruct (shr_m mrs''); try reflexivity.
  destruct (Z.leb _ _); reflexivity.
Qed.

Lemma mul_opp_l (x y : float) : (- x) * y = - (x * y).
Proof.
  apply Prim2SF_inj. rewrite opp_spec, !mul_spec, opp_spec.
  unfold SF64mul.
  destruct (Prim2SF x) as [sx | sx | | sx mx ex],
           (Prim2SF y) as [sy | sy | | sy my ey]; cbn;
    try reflexivity; try (now destruct sx, sy).
  rewrite <- binary_round_aux_opp. now destruct sx, sy.
Qed.

Lemma mul_opp_r (x y : float) : x * (- y) = - (x * y).
Proof.
  apply Prim2SF_inj. rewrite opp_spec, !mul_spec, opp_spec.
  unfold SF64mul.
  destruct (Prim2SF x) as [sx | sx | | sx mx ex],
           (Prim2SF y) as [sy | sy | | sy my ey]; cbn;
    try reflexivity; try (now destruct sx, sy).
  rewrite <- binary_round_aux_opp. now destruct sx, sy.
Qed.

Lemma div_opp_l (x y : float) : (- x) / y = - (x / y).
Proof.
  apply Prim2SF_inj. rewrite opp_spec, !div_spec, opp_spec.
  unfold SF64div.
  destruct (Prim2SF x) as [sx | sx | | sx mx ex],
           (Prim2SF y) as [sy | sy | | sy my ey]; cbn;
    try reflexivity; try (now destruct sx, sy).
  destruct (SFdiv_core_binary prec emax (Z.pos mx) ex (Z.pos my) ey) as [[mz ez] lz].
  rewrite <- binary_round_aux_opp. now destruct sx, sy.
Qed.

Lemma ltb_opp_zero (x : float) : (- x <? 0) = (0 <? x).
Proof.
  rewrite !FloatAxioms.ltb_spec, opp_spec.
  change (Prim2SF 0) with (S754_zero false).
  now destruct (Prim2SF x) as [s | s | | s m e]; try destruct s.
Qed.

Lemma zero_ltb_opp (x : float) : (0 <? - x) = (x <? 0).
Proof.
  rewrite !FloatAxioms.ltb_spec, opp_spec.
  change (Prim2SF 0) with (S754_zero false).
  now destruct (Prim2SF x) as [s | s | | s m e]; try destruct s.
Qed.

Lemma eqb_opp_zero (x : float) : (- x =? 0) = (x =? 0).
Proof.
  rewrite !FloatAxioms.eqb_spec, opp_spec.
  change (Prim2SF 0) with (S754_zero false).
  now destruct (Prim2SF x) as [s | s | | s m e]; try destruct s.
Qed.

(** A number is zero, above zero or below zero. *)
Lemma sign_cases (x : float) :
  (abs x <? Num.two52) = true -> (x =? 0) = false -> (0 <? x) = false ->
  (x <? 0) = true.
Proof.
  rewrite !FloatAxioms.ltb_spec, FloatAxioms.eqb_spec, FloatAxioms.abs_spec.
  change (Prim2SF 0) with (S754_zero false).
  change (Prim2SF Num.two52) with (S754_finite false 4503599627370496 0).
  destruct (Prim2SF x) as [s | s | | s m e]; try discriminate;
    try (destruct s; discriminate).
  intros _ _. now destruct s.
Qed.

Lemma rint_opp (y : float) : Num.rint (- y) = - Num.rint y.
Proof.
  unfold Num.rint. rewrite abs_opp.
  destruct (abs y <? Num.two52) eqn:Habs; [ | reflexivity].
  rewrite eqb_opp_zero, ltb_opp_zero, opp_opp.
  destruct (y =? 0) eqn:Hz; [reflexivity | ].
  destruct (0 <? y) eqn:Hpos.
  - assert (Hneg : (y <? 0) = false).
    { destruct (y <? 0) eqn:E; [ | reflexivity].
      rewrite FloatAxioms.ltb_spec in Hpos, E.
      change (Prim2SF 0) with (S754_zero false) in *.
      destruct (Prim2SF y) as [s | s | | s m e]; cbn in *; try discriminate;
        destruct s; discriminate. }
    now rewrite Hneg.
  - rewrite (sign_cases y Habs Hz Hpos). now rewrite opp_opp.
Qed.

(** [round(-x, 2)] is [-round(x, 2)]. *)
Lemma round2_opp (x : float) : Num.round2 (- x) = - Num.round2 x.
Proof.
  unfold Num.round2. now rewrite mul_opp_l, rint_opp, div_opp_l.
Qed.

(** X9: reversing the sign of a coefficient reverses the sign of its
    t-statistic, before and after the rounding of either, and leaves the
    p-value and the tier as they are. *)
Theorem sign_reversal (t_cdf : float -> Z -> float) (r : float) (n df : Z) :
  calculate_t_statistic (- r) n = - calculate_t_statistic r n /\
  calculate_t_statistic (Num.round2 (- r)) n
  = - calculate_t_statistic (Num.round2 r) n /\
  Num.round2 (calculate_t_statistic (Num.round2 (- r)) n)
  = - Num.round2 (calculate_t_statistic (Num.round2 r) n) /\
  get_p_value t_cdf (calculate_t_statistic (Num.round2 (- r)) n) df
  = get_p_value t_cdf (calculate_t_statistic (Num.round2 r) n) df /\
  get_significance (get_p_value t_cdf (calculate_t_statistic (Num.round2 (- r)) n) df)
  = get_significance (get_p_value t_cdf (calculate_t_statistic (Num.round2 r) n) df).
Proof.
  assert (Hodd : forall x, calculate_t_statistic (- x) n
                           = - calculate_t_statistic x n).
  { intros x. unfold calculate_t_statistic, calculate_t_statistic_pow.
    rewrite abs_opp.
    destruct (abs x =? 1) eqn:E.
    - rewrite FloatFacts.abs_eqb_one in E. apply orb_true_iff in E.
      destruct E as [E | E].
      + apply FloatFacts.eqb_one_inv in E. subst x. reflexivity.
      + apply FloatFacts.eqb_minus_one_inv in E. subst x. reflexivity.
    - assert (Hsquare : (- x) * (- x) = x * x).
      { now rewrite mul_opp_l, mul_opp_r, opp_opp. }
      rewrite Hsquare. apply mul_opp_l. }
  assert (Heven : forall t, get_p_value t_cdf (- t) df = get_p_value t_cdf t df).
  { intros t. unfold get_p_value, Num.isinf. now rewrite abs_opp. }
  rewrite (round2_opp r), !Hodd, round2_opp, Heven. auto.
Qed.

(** X10: the description of [-r] has the strength and the significance of
    the description of [r]; its direction is positive when [r] is below
    zero and negative otherwise, so that a coefficient of zero or an
    undefined one reads negative under both signs. *)
Theorem description_of_opposite (r p : float) :
  get_strength_description (- r) p
  = (strength_tier r ++ " "
       ++ (if (r <? 0)%float then "positive" else "negative")
       ++ " correlation, " ++ significance_phrase p)%string.
Proof.
  unfold get_strength_description, strength_tier, significance_phrase.
  cbv zeta. now rewrite abs_opp, zero_ltb_opp, (strength_ladder (abs r)).
Qed.

(** ** Properties of the correlation matrix *)

Lemma welford_skips (l : list (float * float)) (st : Welford) :
  fold_left welford_step l st
  = fold_left welford_step
              (filter (fun v => Num.isfinite (fst v) && Num.isfinite (snd v)) l) st.
Proof.
  revert st. induction l as [ | [vx vy] l IH]; intros st; cbn [filter fold_left];
    [reflexivity | ].
  cbn [fst snd]. destruct (Num.isfinite vx && Num.isfinite vy) eqn:E.
  - cbn [fold_left]. apply IH.
  - rewrite <- IH. f_equal. unfold welford_step. now rewrite E.
Qed.

Lemma combine_fst_snd {A B : Type} (l : list (A * B)) :
  combine (map fst l) (map snd l) = l.
Proof. induction l as [ | [a b] l IH]; cbn; congruence. Qed.

Lemma filter_idempotent {A : Type} (f : A -> bool) (l : list A) :
  filter f (filter f l) = filter f l.
Proof.
  induction l as [ | a l IH]; cbn; [reflexivity | ].
  destruct (f a) eqn:E; cbn; rewrite ?E, IH; reflexivity.
Qed.

(** X11: the correlation of two columns is pairwise complete: the rows where
    either value is missing or infinite count for nothing, the result being
    that of the two columns with those rows taken out. *)
Theorem nancorr_pairwise_complete (xs ys : list float) :
  let complete :=
    filter (fun v => Num.isfinite (fst v) && Num.isfinite (snd v)) (combine xs ys) in
  nancorr_pair xs ys = nancorr_pair (map fst complete) (map snd complete) /\
  complete_count (map fst complete) (map snd complete) = complete_count xs ys /\
  Forall (fun v => Num.isfinite v = true) (map fst complete) /\
  Forall (fun v => Num.isfinite v = true) (map snd complete).
Proof.
  intros complete.
  assert (Hpass : fold_left welford_step
                            (combine (map fst complete) (map snd complete))
                            welford_init
                  = fold_left welford_step (combine xs ys) welford_init).
  { rewrite combine_fst_snd. symmetry. apply welford_skips. }
  split; [unfold nancorr_pair; now rewrite Hpass | ].
  split.
  { unfold complete_count. rewrite combine_fst_snd. unfold complete.
    now rewrite filter_idempotent. }
  split; apply Forall_map, Forall_forall; intros v Hv;
    apply filter_In in Hv; destruct Hv as [_ Hv];
    apply andb_true_iff in Hv; tauto.
Qed.

Lemma clip_range (v : float) :
  Num.isnan (clip v) = true \/ ((-1 <=? clip v) && (clip v <=? 1)) = true.
Proof.
  unfold clip.
  destruct (1 <? v) eqn:H1; [right; reflexivity | ].
  destruct (v <? -1) eqn:H2; [right; reflexivity | ].
  destruct (v =? v) eqn:Hv.
  - right. apply andb_true_iff. split.
    + now apply FloatFacts.ltb_false_leb.
    + now apply FloatFacts.ltb_false_leb.
  - left. unfold Num.isnan. now rewrite Hv.
Qed.

Lemma nancorr_pair_range (xs ys : list float) :
  Num.isnan (nancorr_pair xs ys) = true
  \/ ((-1 <=? nancorr_pair xs ys) && (nancorr_pair xs ys <=? 1)) = true.
Proof.
  unfold nancorr_pair. cbv zeta.
  destruct (nobs _ <? 1)%Z; [now left | ].
  destruct (negb _); [apply clip_range | now left].
Qed.

(** X12: every entry of the matrix is undefined (NaN) or lies between [-1]
    and [1]; it is undefined when the two columns share no row with a finite
    value in both. *)
Theorem correlation_entries_in_range (mat : list (list float)) (i j : nat) :
  (Num.isnan (entry (nancorr mat) i j) = true
   \/ ((-1 <=? entry (nancorr mat) i j) && (entry (nancorr mat) i j <=? 1)) = true) /\
  (complete_count (nth i mat []) (nth j mat []) = 0%Z ->
   entry (nancorr mat) i j = nan).
Proof.
  rewrite nancorr_entry.
  destruct ((i <? length mat)%nat && (j <? length mat)%nat);
    [ | split; [now left | reflexivity]].
  split; [apply nancorr_pair_range | ].
  intros Hnone.
  assert (Hsame : complete_count (nth (Nat.max i j) mat []) (nth (Nat.min i j) mat [])
                  = 0%Z).
  { destruct (Nat.max_spec i j) as [[Hlt ->] | [Hle ->]].
    - rewrite Nat.min_l by lia.
      unfold complete_count in *.
      rewrite <- Hnone. f_equal.
      generalize (nth i mat []) as xs, (nth j mat []) as ys.
      induction xs as [ | x xs IH]; intros [ | y ys]; cbn; try reflexivity.
      rewrite (andb_comm (Num.isfinite y)).
      destruct (Num.isfinite x && Num.isfinite y); cbn; now rewrite IH.
    - rewrite Nat.min_r by lia. exact Hnone. }
  unfold nancorr_pair. cbv zeta. rewrite welford_nobs.
  unfold complete_count in Hsame. cbn [nobs welford_init Z.add].
  now rewrite Hsame.
Qed.

Lemma mapM_raise_In {A B : Type} (f : A -> result B) (l : list A) (e : error) :
  mapM f l = raise e -> exists a, In a l /\ f a = raise e.
Proof.
  induction l as [ | a l IH]; cbn; [discriminate | ].
  destruct (f a) as [e' | b] eqn:Efa; cbn.
  - intros [= <-]. eauto.
  - destruct (mapM f l) as [e' | bs]; cbn; [ | discriminate].
    intros [= <-]. destruct (IH eq_refl) as [a' [Hin Ha']]. eauto.
Qed.

Lemma mapM_length {A B : Type} (f : A -> result B) (l : list A) (l' : list B) :
  mapM f l = ok l' -> length l' = length l.
Proof.
  intros H. apply mapM_Forall2 in H. symmetry. now apply (Forall2_length H).
Qed.

(** X13: the correlation matrix is computed when every requested label is a
    column of the table, as a square matrix over the labels; with a label
    that is no column, [corr] stops with a [KeyError] that names such a
    label. *)
Theorem corr_needs_every_column (w : Wide) (labels : list string) :
  ((forall l, In l labels -> In l (w_columns w)) ->
   exists m, corr w labels = ok m /\ c_labels m = labels /\
             length (c_entries m) = length labels /\
             Forall (fun row => length row = length labels) (c_entries m)) /\
  (forall l, In l labels -> ~ In l (w_columns w) ->
   exists l', corr w labels = raise (KeyError l') /\ In l' labels /\
              ~ In l' (w_columns w)).
Proof.
  unfold corr.
  destruct (select_columns w labels) as [e | mat] eqn:Esel.
  - (* a label was refused *)
    destruct (mapM_raise_In _ _ _ Esel) as [l' [Hl' Hraise]].
    destruct (index_of l' (w_columns w)) as [i | ] eqn:Ei; [discriminate | ].
    injection Hraise as <-. apply index_of_None in Ei.
    split.
    + intros Hall. exfalso. apply Ei. now apply Hall.
    + intros l _ _. exists l'. cbn. auto.
  - split.
    + intros _. eexists. rewrite bind_ok_l. split; [reflexivity | ]. cbn.
      pose proof (mapM_length _ _ _ Esel) as Hlen.
      split; [reflexivity | ].
      unfold nancorr. rewrite length_map, length_seq. split; [assumption | ].
      apply Forall_map, Forall_forall. intros k _.
      now rewrite length_map, length_seq.
    + intros l Hl Hnot. exfalso.
      destruct (index_of_In _ _ Hl) as [k Hk].
      apply index_of_nth_error in Hk.
      destruct (mapM_nth_error _ _ _ _ _ Esel Hk) as [col [Hcol _]].
      apply index_of_None in Hnot. rewrite Hnot in Hcol. discriminate.
Qed.

Lemma corr_needs_every_column_witness :
  (exists m, corr constant_wide ["t5"; "perf3"]%string = ok m
             /\ c_labels m = ["t5"; "perf3"]%string
             /\ length (c_entries m) = length ["t5"; "perf3"]%string
             /\ Forall (fun row => length row = length ["t5"; "perf3"]%string)
                       (c_entries m)) /\
  (exists l', corr constant_wide ["t5"; "fin14"]%string = raise (KeyError l')
              /\ In l' ["t5"; "fin14"]%string
              /\ ~ In l' (w_columns constant_wide)).
Proof.
  split.
  - apply (proj1 (corr_needs_every_column constant_wide ["t5"; "perf3"]%string)).
    intros l [<- | [<- | []]]; cbn; auto.
  - apply (proj2 (corr_needs_every_column constant_wide ["t5"; "fin14"]%string)
                 "fin14"%string).
    + cbn. auto.
    + cbn. intros [H | [H | []]]; discriminate.
Defined.

(** ** Properties of the two loops and of the summaries *)

Lemma isnan_inv (r : float) : Num.isnan r = true -> r = nan.
Proof.
  unfold Num.isnan. rewrite FloatAxioms.eqb_spec. intros H.
  apply Prim2SF_inj. change (Prim2SF nan) with S754_nan.
  destruct (Prim2SF r) as [s | s | | s m e] eqn:E; try reflexivity; exfalso;
    rewrite FloatFacts.SFeqb_refl in H by discriminate; discriminate.
Qed.

Lemma mul_nan_l (x : float) : nan * x = nan.
Proof.
  apply Prim2SF_inj. rewrite FloatAxioms.mul_spec.
  change (Prim2SF nan) with S754_nan. reflexivity.
Qed.

Lemma ltb_nan_r (c : float) : (c <? nan) = false.
Proof.
  rewrite FloatAxioms.ltb_spec. change (Prim2SF nan) with S754_nan.
  unfold SFltb. destruct (Prim2SF c) as [s | s | | s m e]; try reflexivity;
    destruct s; reflexivity.
Qed.

Lemma calculate_t_statistic_nan (n : Z) : calculate_t_statistic nan n = nan.
Proof.
  unfold calculate_t_statistic, calculate_t_statistic_pow. apply mul_nan_l.
Qed.

Lemma loc_unique (m : CorrMatrix) (a b : string) (r r' : float) :
  loc m a b = ok r -> loc m a b = ok r' -> r = r'.
Proof. intros H H'. rewrite H in H'. now injection H'. Qed.

(** X14: a pair whose correlation is undefined (NaN in the matrix) is still
    reported: its coefficient and its t-statistic are NaN, its p-value is the
    one scipy gives for a NaN statistic, it is never marked significant by
    the critical value, and its interpretation reads as a weak negative
    correlation. *)
Theorem undefined_correlation_rows (t_cdf t_ppf : float -> Z -> float)
    (format_3f : float -> string) (argsort : list float -> list nat)
    (indicators : list string) (names : list (string * string))
    (relationships : list (string * string * string))
    (pivoted : Wide) (report : Report) :
  analysis t_cdf t_ppf format_3f argsort indicators names relationships pivoted
  = ok report ->
  (forall row, In row (results report) \/ In row (results_df report) ->
     exists rel r, In rel relationships /\ Relationship row = snd rel /\
       loc (corr_matrix report) (fst (fst rel)) (snd (fst rel)) = ok r /\
       (Num.isnan r = true ->
        Num.isnan (res_r row) = true /\ Num.isnan (t_value row) = true /\
        p_numeric row = 2 * (1 - t_cdf nan (df report)) /\
        Interpretation row
        = ("Weak negative correlation, " ++ significance_phrase (p_numeric row))%string)) /\
  (forall row r, In row (detailed_results report) \/ In row (detailed_df report) ->
     loc (corr_matrix report) (Indicator_1 row) (Indicator_2 row) = ok r ->
     Num.isnan r = true ->
     Num.isnan (det_r row) = true /\ Num.isnan (det_t row) = true /\
     det_p row = 2 * (1 - t_cdf nan (df report)) /\
     det_significant row = "No"%string).
Proof.
  intros Hrun. split.
  - intros row Hrow.
    destruct (results_rows _ _ _ _ _ _ _ _ _ _ Hrun Hrow) as [rel [Hrel Hmake]].
    apply result_row_inv in Hmake. destruct Hmake as [r [Hloc Hfields]].
    cbv zeta in Hfields.
    destruct Hfields as [Hname [Hr [Ht [Hp [_ Hint]]]]].
    exists rel, r. repeat (split; [assumption | ]).
    intros Hnan. apply isnan_inv in Hnan. subst r.
    change (Num.round2 nan) with nan in *.
    rewrite calculate_t_statistic_nan in *.
    change (Num.round2 nan) with nan in *.
    rewrite Hr, Ht, Hint, Hp.
    repeat split; reflexivity.
  - intros row r Hrow Hloc Hnan.
    destruct (detailed_rows _ _ _ _ _ _ _ _ _ _ Hrun Hrow) as [pair [Hpair Hmake]].
    apply detailed_row_inv in Hmake. destruct Hmake as [r' [Hloc' Hfields]].
    cbv zeta in Hfields.
    destruct Hfields as [H1 [H2 [Hr [Ht [Hp [_ Hsig]]]]]].
    rewrite H1, H2 in Hloc. rewrite (loc_unique _ _ _ _ _ Hloc' Hloc) in *.
    apply isnan_inv in Hnan. subst r.
    change (Num.round2 nan) with nan in *.
    rewrite calculate_t_statistic_nan in *.
    change (Num.round2 nan) with nan in *.
    change (abs nan) with nan in Hsig. rewrite ltb_nan_r in Hsig.
    rewrite Hr, Ht, Hp, Hsig. repeat split; reflexivity.
Qed.

Lemma undefined_correlation_rows_witness :
  exists report,
    analysis (fun _ _ => 0.5) (fun _ _ => 2) (fun _ => "0.500"%string) Numpy.argsort
             three_indicators three_names two_relationships mixed_wide = ok report /\
    loc (corr_matrix report) "t5" "fin14" = ok nan /\
    (forall row r, In row (detailed_results report) \/ In row (detailed_df report) ->
       loc (corr_matrix report) (Indicator_1 row) (Indicator_2 row) = ok r ->
       Num.isnan r = true ->
       Num.isnan (det_r row) = true /\ Num.isnan (det_t row) = true /\
       det_p row = 2 * (1 - (fun _ _ => 0.5) nan (df report)) /\
       det_significant row = "No"%string).
Proof.
  eexists. split; [vm_compute; reflexivity | ].
  split; [vm_compute; reflexivity | ].
  apply (proj2 (undefined_correlation_rows
                  (fun _ _ => 0.5) (fun _ _ => 2) (fun _ => "0.500"%string)
                  Numpy.argsort three_indicators three_names two_relationships
                  mixed_wide _ ltac:(vm_compute; reflexivity))).
Defined.

(** *** The pairs of the nested loops *)

Lemma flat_map_ext_In {A B : Type} (f g : A -> list B) (l : list A) :
  (forall a, In a l -> f a = g a) -> flat_map f l = flat_map g l.
Proof.
  induction l as [ | a l IH]; intros H; [reflexivity | ].
  cbn [flat_map]. rewrite (H a (or_introl eq_refl)), IH; [reflexivity | ].
  intros a' Ha'. apply H. now right.
Qed.

Lemma upper_row_above (a : string) (i s : nat) (l : list string) :
  (i < s)%nat ->
  flat_map (fun '(j, ind2) => if (i <? j)%nat then [(a, ind2)] else [])
           (combine (seq s (length l)) l)
  = map (pair a) l.
Proof.
  revert s. induction l as [ | b l IH]; intros s Hs; [reflexivity | ].
  cbn [length seq combine flat_map map].
  destruct (Nat.ltb_spec i s) as [_ | Hge]; [ | lia].
  cbn [app]. f_equal. apply IH. lia.
Qed.

(** The loops started at any position [s]: the head with each later label,
    then the loops over the tail. *)
Lemma pairs_step (s : nat) (x : string) (l : list string) :
  flat_map (fun '(i, ind1) =>
              flat_map (fun '(j, ind2) =>
                          if (i <? j)%nat then [(ind1, ind2)] else [])
                       (combine (seq s (length (x :: l))) (x :: l)))
           (combine (seq s (length (x :: l))) (x :: l))
  = map (pair x) l
    ++ flat_map (fun '(i, ind1) =>
                   flat_map (fun '(j, ind2) =>
                               if (i <? j)%nat then [(ind1, ind2)] else [])
                            (combine (seq (S s) (length l)) l))
                (combine (seq (S s) (length l)) l).
Proof.
  cbn [length seq combine]. cbn [flat_map].
  rewrite Nat.ltb_irrefl. cbn [app]. f_equal.
  - apply upper_row_above. lia.
  - apply flat_map_ext_In. intros [i a] Hp.
    apply in_combine_l, in_seq in Hp.
    destruct (Nat.ltb_spec i s) as [Hlt | _]; [lia | reflexivity].
Qed.

Lemma pairs_shift (s : nat) (l : list string) :
  flat_map (fun '(i, ind1) =>
              flat_map (fun '(j, ind2) =>
                          if (i <? j)%nat then [(ind1, ind2)] else [])
                       (combine (seq s (length l)) l))
           (combine (seq s (length l)) l)
  = upper_pairs l.
Proof.
  revert s. induction l as [ | x l IH]; intros s; [reflexivity | ].
  rewrite pairs_step, IH. symmetry.
  unfold upper_pairs at 1, enumerate. now rewrite pairs_step, IH.
Qed.

(** The pairs of a list are those of its head with each later label, then
    those of its tail. *)
Lemma upper_pairs_cons (x : string) (l : list string) :
  upper_pairs (x :: l) = map (pair x) l ++ upper_pairs l.
Proof.
  unfold upper_pairs at 1, enumerate. now rewrite pairs_step, pairs_shift.
Qed.

Lemma upper_pairs_length (labels : list string) :
  (2 * length (upper_pairs labels) = length labels * (length labels - 1))%nat.
Proof.
  induction labels as [ | x l IH]; [reflexivity | ].
  rewrite upper_pairs_cons, length_app, length_map. cbn [length].
  replace (S (length l) - 1)%nat with (length l) by lia.
  destruct (length l) as [ | k] eqn:E; [cbn in *; lia | ].
  replace (S k - 1)%nat with k in IH by lia. lia.
Qed.

Lemma upper_pairs_In (labels : list string) (a b : string) :
  In (a, b) (upper_pairs labels) <->
  exists i j, (i < j)%nat /\ nth_error labels i = Some a /\ nth_error labels j = Some b.
Proof.
  induction labels as [ | x l IH].
  - split; [contradiction | ]. intros [i [j [_ [H _]]]]. destruct i; discriminate.
  - rewrite upper_pairs_cons, in_app_iff, in_map_iff. split.
    + intros [[b' [[= <- <-] Hb]] | Hin].
      * apply In_nth_error in Hb. destruct Hb as [j Hj].
        exists 0%nat, (S j). split; [lia | ]. split; [reflexivity | exact Hj].
      * apply IH in Hin. destruct Hin as [i [j [Hij [Hi Hj]]]].
        exists (S i), (S j). split; [lia | ]. split; assumption.
    + intros [i [j [Hij [Hi Hj]]]].
      destruct j as [ | j]; [lia | ]. cbn in Hj.
      destruct i as [ | i].
      * injection Hi as <-. left. exists b. split; [reflexivity | ].
        now apply nth_error_In in Hj.
      * right. apply IH. exists i, j. split; [lia | ]. split; assumption.
Qed.

(** X15: the nested loops over the indicators reach every pair of positions
    [i < j] and nothing else, k(k-1)/2 pairs for k indicators; over
    indicators that are all different, no pair comes twice, none with its
    two labels equal, and never a pair together with its mirror. *)
Theorem upper_triangle_pairs (labels : list string) :
  (forall a b, In (a, b) (upper_pairs labels) <->
     exists i j, (i < j)%nat /\ nth_error labels i = Some a
                 /\ nth_error labels j = Some b) /\
  (2 * length (upper_pairs labels) = length labels * (length labels - 1))%nat /\
  (NoDup labels ->
   NoDup (upper_pairs labels) /\
   forall a b, In (a, b) (upper_pairs labels) ->
               a <> b /\ ~ In (b, a) (upper_pairs labels)).
Proof.
  split; [apply upper_pairs_In | ]. split; [apply upper_pairs_length | ].
  intros Hnodup. split.
  - induction Hnodup as [ | x l Hx Hnodup IH]; [constructor | ].
    rewrite upper_pairs_cons. apply NoDup_app.
    + clear IH Hx. induction Hnodup as [ | y l Hy _ IH]; [constructor | ].
      cbn. constructor; [ | exact IH].
      rewrite in_map_iff. intros [b [[= ->] Hb]]. contradiction.
    + exact IH.
    + intros [a b] Hin Hin'. apply in_map_iff in Hin.
      destruct Hin as [b' [[= <- <-] _]].
      apply upper_pairs_In in Hin'. destruct Hin' as [i [_ [_ [Hi _]]]].
      apply nth_error_In in Hi. contradiction.
  - intros a b Hin. apply upper_pairs_In in Hin.
    destruct Hin as [i [j [Hij [Hi Hj]]]].
    assert (Hlen : (i < length labels)%nat).
    { apply nth_error_Some. congruence. }
    pose proof (proj1 (NoDup_nth_error labels) Hnodup) as Hinj.
    split.
    + intros ->. specialize (Hinj i j Hlen). rewrite Hi, Hj in Hinj.
      specialize (Hinj eq_refl). lia.
    + intros Hmirror. apply upper_pairs_In in Hmirror.
      destruct Hmirror as [i' [j' [Hij' [Hi' Hj']]]].
      assert (E1 : i = j').
      { apply Hinj; [assumption | congruence]. }
      assert (E2 : j = i').
      { apply Hinj; [apply nth_error_Some; congruence | congruence]. }
      lia.
Qed.

Lemma mapM_map {A B C : Type} (f : A -> result B) (g : B -> C) (h : A -> C)
    (l : list A) (l' : list B) :
  (forall a b, f a = ok b -> g b = h a) ->
  mapM f l = ok l' -> map g l' = map h l.
Proof.
  intros Hgh H. apply mapM_Forall2 in H.
  induction H as [ | a b l l' Hab _ IH]; [reflexivity | ].
  cbn. now rewrite (Hgh a b Hab), IH.
Qed.

(** X16: a run that ends well has stored one row per key relationship, in
    the order of [key_relationships], and one row per pair [i < j] of
    indicators, in the order of the loops: k(k-1)/2 rows; there is at least
    one relationship and there are at least two indicators, a frame built
    from no row having no column to sort on. *)
Theorem one_row_per_pass (t_cdf t_ppf : float -> Z -> float)
    (format_3f : float -> string) (argsort : list float -> list nat)
    (indicators : list string) (names : list (string * string))
    (relationships : list (string * string * string))
    (pivoted : Wide) (report : Report) :
  analysis t_cdf t_ppf format_3f argsort indicators names relationships pivoted
  = ok report ->
  map Relationship (results report) = map snd relationships /\
  map (fun row => (Indicator_1 row, Indicator_2 row)) (detailed_results report)
  = upper_pairs indicators /\
  (2 * length (detailed_results report)
   = length indicators * (length indicators - 1))%nat /\
  relationships <> [] /\
  (2 <= length indicators)%nat.
Proof.
  intros Hrun.
  assert (Hres : map Relationship (results report) = map snd relationships).
  { apply analysis_inv in Hrun. cbv zeta in Hrun.
    destruct Hrun as [_ [_ [_ [_ [Hres _]]]]].
    refine (mapM_map _ _ _ _ _ _ Hres).
    intros rel row Hrow. apply result_row_inv in Hrow.
    destruct Hrow as [r [_ H]]. cbv zeta in H. tauto. }
  assert (Hdet : map (fun row => (Indicator_1 row, Indicator_2 row))
                     (detailed_results report) = upper_pairs indicators).
  { apply analysis_inv in Hrun. cbv zeta in Hrun.
    destruct Hrun as [_ [_ [_ [_ [_ [_ [Hdet _]]]]]]].
    rewrite <- (map_id (upper_pairs indicators)).
    refine (mapM_map _ _ _ _ _ _ Hdet).
    intros pair row Hrow. apply detailed_row_inv in Hrow.
    destruct Hrow as [r [_ H]]. cbv zeta in H.
    destruct H as [H1 [H2 _]]. rewrite H1, H2. now destruct pair. }
  split; [exact Hres | ]. split; [exact Hdet | ].
  assert (Hlen : length (detailed_results report) = length (upper_pairs indicators)).
  { rewrite <- Hdet. now rewrite length_map. }
  split; [rewrite Hlen; apply upper_pairs_length | ].
  unfold analysis in Hrun.
  apply bind_ok in Hrun. destruct Hrun as [cm [_ Hrun]].
  apply bind_ok in Hrun. destruct Hrun as [res [Hmk Hrun]].
  apply bind_ok in Hrun. destruct Hrun as [res_df [Hsort Hrun]].
  apply bind_ok in Hrun. destruct Hrun as [det [Hmk' Hrun]].
  apply bind_ok in Hrun. destruct Hrun as [det_df [Hsort' Hrun]].
  injection Hrun as <-. cbn in Hlen.
  split.
  - intros ->. cbn in Hmk. injection Hmk as <-. discriminate.
  - destruct det as [ | d det]; [discriminate | ].
    pose proof (upper_pairs_length indicators) as Hcount.
    rewrite <- Hlen in Hcount. cbn [length] in Hcount.
    destruct (length indicators) as [ | [ | k]]; cbn in Hcount; lia.
Qed.

Lemma one_row_per_pass_witness :
  exists report,
    analysis (fun _ _ => 0.5) (fun _ _ => 2) (fun _ => "0.500"%string) Numpy.argsort
             three_indicators three_names two_relationships mixed_wide = ok report /\
    map Relationship (results report) = map snd two_relationships /\
    map (fun row => (Indicator_1 row, Indicator_2 row)) (detailed_results report)
    = upper_pairs three_indicators /\
    (2 * length (detailed_results report)
     = length three_indicators * (length three_indicators - 1))%nat /\
    two_relationships <> [] /\
    (2 <= length three_indicators)%nat.
Proof.
  eexists. split; [vm_compute; reflexivity | ].
  apply (one_row_per_pass (fun _ _ => 0.5) (fun _ _ => 2) (fun _ => "0.500"%string)
                          Numpy.argsort three_indicators three_names
                          two_relationships mixed_wide).
  vm_compute. reflexivity.
Defined.

(** ** Properties of the summaries *)

Lemma count_sig_cons (tier : string) (row : DetailedRow) (rows : list DetailedRow) :
  count_sig tier (row :: rows)
  = ((if (det_sig row =? tier)%string then 1 else 0) + count_sig tier rows)%nat.
Proof.
  unfold count_sig. cbn [filter].
  destruct (det_sig row =? tier)%string; reflexivity.
Qed.

Lemma count_sig_tiers (rows : list DetailedRow) :
  Forall (fun row => det_sig row = get_significance (det_p row)) rows ->
  (count_sig "***" rows + count_sig "**" rows + count_sig "*" rows
   + count_sig "ns" rows = length rows)%nat /\
  count_sig "***" rows = length (filter (fun row => det_p row <? 0.001) rows).
Proof.
  induction 1 as [ | row rows Hrow _ [IHsum IHtop]]; [split; reflexivity | ].
  rewrite !count_sig_cons, Hrow. cbn [filter length].
  unfold get_significance.
  destruct (det_p row <? 0.001); cbn [String.eqb Ascii.eqb Bool.eqb length];
    [split; lia | ].
  destruct (det_p row <? 0.01); cbn [String.eqb Ascii.eqb Bool.eqb];
    [split; lia | ].
  destruct (det_p row <? 0.05); cbn [String.eqb Ascii.eqb Bool.eqb];
    split; lia.
Qed.

(** X17: in the summary of a run, the four counts by significance mark add
    up to the number of pairs analysed, every pair falling under one mark;
    the count of ["***"] is the number of pairs with [p < 0.001]. *)
Theorem significance_counts_add_up (t_cdf t_ppf : float -> Z -> float)
    (format_3f : float -> string) (argsort : list float -> list nat)
    (indicators : list string) (names : list (string * string))
    (relationships : list (string * string * string))
    (pivoted : Wide) (report : Report) :
  analysis t_cdf t_ppf format_3f argsort indicators names relationships pivoted
  = ok report ->
  (count_sig "***" (detailed_df report) + count_sig "**" (detailed_df report)
   + count_sig "*" (detailed_df report) + count_sig "ns" (detailed_df report)
   = length (detailed_df report))%nat /\
  count_sig "***" (detailed_df report)
  = length (filter (fun row => det_p row <? 0.001) (detailed_df report)).
Proof.
  intros Hrun. apply count_sig_tiers, Forall_forall. intros row Hrow.
  destruct (detailed_rows _ _ _ _ _ _ _ _ _ _ Hrun (or_intror Hrow))
    as [pair [_ Hmake]].
  apply detailed_row_inv in Hmake. destruct Hmake as [r [_ H]].
  cbv zeta in H. destruct H as [_ [_ [_ [_ [Hp [Hsig _]]]]]].
  now rewrite Hsig, Hp.
Qed.

Lemma significance_counts_add_up_witness :
  exists report,
    two_segment_run = ok report /\
    (count_sig "***" (detailed_df report) + count_sig "**" (detailed_df report)
     + count_sig "*" (detailed_df report) + count_sig "ns" (detailed_df report)
     = length (detailed_df report))%nat /\
    count_sig "***" (detailed_df report)
    = length (filter (fun row => det_p row <? 0.001) (detailed_df report)).
Proof.
  eexists. split; [vm_compute; reflexivity | ].
  apply (significance_counts_add_up
           (fun _ _ => 0.5) (fun _ _ => nan) (fun _ => "0.500"%string)
           Numpy.argsort corr_indicators indicator_names key_relationships
           two_segment_wide).
  vm_compute. reflexivity.
Defined.

Lemma strength_tier_ladder (r : float) :
  strength_tier r
  = (if 0.70 <? abs r then "Very strong"%string
     else if 0.50 <? abs r then "Strong"%string
     else if 0.30 <? abs r then "Moderate"%string
     else "Weak"%string).
Proof. unfold strength_tier. symmetry. apply strength_ladder. Qed.

Lemma count_strength_row (counts : StrengthCounts) (row : ResultRow) :
  let hit name :=
    if (strength_tier (res_r row) =? name)%string then 1%nat else 0%nat in
  very_strong (count_strength counts row)
  = (very_strong counts + hit "Very strong"%string)%nat /\
  strong (count_strength counts row) = (strong counts + hit "Strong"%string)%nat /\
  moderate (count_strength counts row)
  = (moderate counts + hit "Moderate"%string)%nat /\
  weak (count_strength counts row) = (weak counts + hit "Weak"%string)%nat.
Proof.
  cbv zeta. rewrite strength_tier_ladder. unfold count_strength. cbv zeta.
  destruct (0.70 <? abs (res_r row)); [cbn; repeat split; lia | ].
  destruct (0.50 <? abs (res_r row)); [cbn; repeat split; lia | ].
  destruct (0.30 <? abs (res_r row)); cbn; repeat split; lia.
Qed.

Lemma length_filter_cons {A : Type} (f : A -> bool) (a : A) (l : list A) :
  length (filter f (a :: l))
  = ((if f a then 1 else 0) + length (filter f l))%nat.
Proof. cbn [filter]. destruct (f a); reflexivity. Qed.

Lemma count_strength_fold (rows : list ResultRow) (counts : StrengthCounts) :
  let tier_count name :=
    length (filter (fun row => (strength_tier (res_r row) =? name)%string) rows) in
  let total := fold_left count_strength rows counts in
  very_strong total = (very_strong counts + tier_count "Very strong"%string)%nat /\
  strong total = (strong counts + tier_count "Strong"%string)%nat /\
  moderate total = (moderate counts + tier_count "Moderate"%string)%nat /\
  weak total = (weak counts + tier_count "Weak"%string)%nat.
Proof.
  cbv zeta. revert counts. induction rows as [ | row rows IH]; intros counts.
  - cbn. repeat split; lia.
  - cbn [fold_left]. rewrite !length_filter_cons.
    destruct (IH (count_strength counts row)) as [H1 [H2 [H3 H4]]].
    destruct (count_strength_row counts row) as [R1 [R2 [R3 R4]]].
    cbv zeta in R1, R2, R3, R4.
    rewrite H1, H2, H3, H4, R1, R2, R3, R4. repeat split; lia.
Qed.

(** X18: the loop over [results_df] counts each key relationship once, under
    the tier of its stored coefficient: the four counts are the numbers of
    rows of each tier and add up to the number of rows; an undefined
    coefficient is counted as weak. *)
Theorem strength_counts_by_tier (rows : list ResultRow) :
  let tier_count name :=
    length (filter (fun row => (strength_tier (res_r row) =? name)%string) rows) in
  very_strong (strength_counts rows) = tier_count "Very strong"%string /\
  strong (strength_counts rows) = tier_count "Strong"%string /\
  moderate (strength_counts rows) = tier_count "Moderate"%string /\
  weak (strength_counts rows) = tier_count "Weak"%string /\
  (very_strong (strength_counts rows) + strong (strength_counts rows)
   + moderate (strength_counts rows) + weak (strength_counts rows)
   = length rows)%nat /\
  (length (filter (fun row => Num.isnan (res_r row)) rows)
   <= weak (strength_counts rows))%nat.
Proof.
  cbv zeta. unfold strength_counts.
  destruct (count_strength_fold rows
              {| very_strong := 0; strong := 0; moderate := 0; weak := 0 |})
    as [H1 [H2 [H3 H4]]].
  cbv zeta in H1, H2, H3, H4. cbn [very_strong strong moderate weak] in H1, H2, H3, H4.
  rewrite H1, H2, H3, H4. cbn [Nat.add].
  repeat (split; [reflexivity | ]).
  clear H1 H2 H3 H4. split.
  - induction rows as [ | row rows IH]; [reflexivity | ].
    rewrite !length_filter_cons. cbn [length].
    rewrite strength_tier_ladder.
    destruct (0.70 <? abs (res_r row)); [cbn; lia | ].
    destruct (0.50 <? abs (res_r row)); [cbn; lia | ].
    destruct (0.30 <? abs (res_r row)); cbn; lia.
  - induction rows as [ | row rows IH]; [reflexivity | ].
    rewrite !length_filter_cons.
    destruct (Num.isnan (res_r row)) eqn:Hnan.
    + apply isnan_inv in Hnan. rewrite Hnan.
      change (strength_tier nan =? "Weak")%string with true.
      cbv iota. lia.
    + destruct (strength_tier (res_r row) =? "Weak")%string; cbv iota; lia.
Qed.

Lemma descending_app (l1 l2 : list float) :
  descending_nan_last (l1 ++ l2) ->
  forall a b, In a l1 -> In b l2 ->
              Num.isnan b = true \/ (b <=? a) = true.
Proof.
  induction l1 as [ | k l1 IH]; intros H a b Ha Hb; [contradiction | ].
  cbn in H. inversion H as [ | k' l' Hk Hrest Htail | k' l' Hk Hrest]; subst.
  - destruct Ha as [<- | Ha].
    + rewrite Forall_forall in Hrest. apply Hrest, in_or_app. now right.
    + now apply (IH Htail a b).
  - left. rewrite Forall_forall in Hrest. apply Hrest, in_or_app. now right.
Qed.

(** X19: the ten rows shown as the strongest correlations are rows of
    [detailed_results], ten of them or all when there are fewer, and none of
    the rows left out has a larger absolute t-statistic than one shown; this
    when [argsort] sorts what it is given. *)
Theorem top10_dominates_the_rest (t_cdf t_ppf : float -> Z -> float)
    (format_3f : float -> string) (argsort : list float -> list nat)
    (indicators : list string) (names : list (string * string))
    (relationships : list (string * string * string))
    (pivoted : Wide) (report : Report) :
  analysis t_cdf t_ppf format_3f argsort indicators names relationships pivoted
  = ok report ->
  sorts argsort
        (rev (filter (fun k => negb (Num.isnan k))
                     (map (fun row => abs (det_t row)) (detailed_results report)))) ->
  length (top10 (detailed_df report))
  = Nat.min 10 (length (detailed_results report)) /\
  (forall row, In row (top10 (detailed_df report)) ->
               In row (detailed_results report)) /\
  (forall row rest,
      In row (top10 (detailed_df report)) ->
      In rest (skipn 10 (detailed_df report)) ->
      Num.isnan (abs (det_t rest)) = true
      \/ (abs (det_t rest) <=? abs (det_t row)) = true).
Proof.
  intros Hrun Hsorts.
  apply analysis_inv in Hrun. cbv zeta in Hrun.
  destruct Hrun as [_ [_ [_ [_ [_ [_ [_ Hsort]]]]]]].
  destruct (sort_values_descending argsort (fun row => abs (det_t row))
                                   (detailed_results report) Hsorts)
    as [out [Hout [Hperm Hdesc]]].
  rewrite Hsort in Hout. injection Hout as <-.
  unfold top10. split; [ | split].
  - rewrite length_firstn. now rewrite (Permutation_length Hperm).
  - intros row Hrow.
    apply (Permutation_in _ (Permutation_sym Hperm)).
    rewrite <- (firstn_skipn 10 (detailed_df report)). apply in_or_app. now left.
  - intros row rest Hrow Hrest.
    rewrite <- (firstn_skipn 10 (detailed_df report)), map_app in Hdesc.
    apply (descending_app _ _ Hdesc).
    + now apply (in_map (fun row => abs (det_t row))).
    + now apply (in_map (fun row => abs (det_t row))).
Qed.

Lemma top10_dominates_the_rest_witness :
  exists report,
    varied_run = ok report /\
    length (top10 (detailed_df report)) = Nat.min 10 (length (detailed_results report)) /\
    (forall row, In row (top10 (detailed_df report)) ->
                 In row (detailed_results report)) /\
    (forall row rest,
        In row (top10 (detailed_df report)) ->
        In rest (skipn 10 (detailed_df report)) ->
        Num.isnan (abs (det_t rest)) = true
        \/ (abs (det_t rest) <=? abs (det_t row)) = true).
Proof.
  eexists. split; [vm_compute; reflexivity | ].
  apply (top10_dominates_the_rest
           (fun _ _ => 0.5) (fun _ _ => 2) (fun _ => "0.500"%string)
           Numpy.argsort corr_indicators indicator_names key_relationships
           varied_wide).
  - vm_compute. reflexivity.
  - apply sortsb_sound. vm_compute. reflexivity.
Defined.

(** On [varied_wide] the ten rows shown have absolute t-statistics from
    14.04 down to 2.58, the thirty-five left out from 2.14 down to 0.02. *)
Example varied_run_top10 :
  map (fun row => abs (det_t row)) (top10 (rows_of detailed_df varied_run))
  = [14.04; 6.08; 5.51; 5.06; 5.06; 3.1; 2.87; 2.87; 2.76; 2.58] /\
  map (fun row => abs (det_t row)) (skipn 10 (rows_of detailed_df varied_run))
  = [2.14; 1.96; 1.85; 1.76; 1.71; 1.62; 1.62; 1.62; 1.58; 1.58; 1.42; 1.25;
     1.15; 1.06; 1.04; 0.98; 0.87; 0.8; 0.77; 0.72; 0.72; 0.65; 0.63; 0.47;
     0.41; 0.3; 0.28; 0.26; 0.24; 0.16; 0.08; 0.08; 0.06; 0.02; 0.02].
Proof. split; vm_compute; reflexivity. Qed.

Lemma loc_labels (m : CorrMatrix) (a b : string) (r : float) :
  loc m a b = ok r -> In a (c_labels m) /\ In b (c_labels m).
Proof.
  unfold loc.
  destruct (index_of a (c_labels m)) as [i | ] eqn:Ea; [ | discriminate].
  destruct (index_of b (c_labels m)) as [j | ] eqn:Eb; [ | discriminate].
  intros _. split.
  - apply index_of_nth_error in Ea. now apply nth_error_In in Ea.
  - apply index_of_nth_error in Eb. now apply nth_error_In in Eb.
Qed.

Lemma corr_columns (w : Wide) (labels : list string) (m : CorrMatrix) :
  corr w labels = ok m ->
  c_labels m = labels /\ forall l, In l labels -> In l (w_columns w).
Proof.
  intros H. apply corr_inv in H. destruct H as [mat [Hsel ->]].
  split; [reflexivity | ]. intros l Hl.
  apply In_nth_error in Hl. destruct Hl as [k Hk].
  destruct (mapM_nth_error _ _ _ _ _ Hsel Hk) as [col [Hcol _]].
  destruct (index_of l (w_columns w)) as [i | ] eqn:Ei; [ | discriminate].
  apply index_of_nth_error in Ei. now apply nth_error_In in Ei.
Qed.

Lemma detailed_row_names (t_cdf : float -> Z -> float) (names : list (string * string))
    (cm : CorrMatrix) (n df : Z) (critical_t : float) (pair : string * string)
    (row : DetailedRow) :
  detailed_row t_cdf names cm n df critical_t pair = ok row ->
  dict_get names (fst pair) = ok (Name_1 row) /\
  dict_get names (snd pair) = ok (Name_2 row).
Proof.
  destruct pair as [ind1 ind2]. unfold detailed_row.
  intros H. apply bind_ok in H. destruct H as [r [_ H]].
  apply bind_ok in H. destruct H as [name1 [H1 H]].
  apply bind_ok in H. destruct H as [name2 [H2 H]].
  injection H as <-. cbn. auto.
Qed.

(** X20: what a run that ends well has found: every indicator is a column
    of the pivoted table, every key relationship is between two of the
    indicators, and every indicator has a display name. *)
Theorem run_requirements (t_cdf t_ppf : float -> Z -> float)
    (format_3f : float -> string) (argsort : list float -> list nat)
    (indicators : list string) (names : list (string * string))
    (relationships : list (string * string * string))
    (pivoted : Wide) (report : Report) :
  analysis t_cdf t_ppf format_3f argsort indicators names relationships pivoted
  = ok report ->
  (forall l, In l indicators -> In l (w_columns pivoted)) /\
  (forall ind1 ind2 description,
      In (ind1, ind2, description) relationships ->
      In ind1 indicators /\ In ind2 indicators) /\
  (forall l, In l indicators -> exists name, dict_get names l = ok name).
Proof.
  intros Hrun. unfold analysis in Hrun.
  apply bind_ok in Hrun. destruct Hrun as [cm [Hcorr Hrun]].
  apply bind_ok in Hrun. destruct Hrun as [res [Hres Hrun]].
  apply bind_ok in Hrun. destruct Hrun as [res_df [_ Hrun]].
  apply bind_ok in Hrun. destruct Hrun as [det [Hdet Hrun]].
  apply bind_ok in Hrun. destruct Hrun as [det_df [Hsort _]].
  apply corr_columns in Hcorr. destruct Hcorr as [Hlabels Hcolumns].
  split; [exact Hcolumns | ]. split.
  - intros ind1 ind2 description Hrel.
    apply In_nth_error in Hrel. destruct Hrel as [k Hk].
    destruct (mapM_nth_error _ _ _ _ _ Hres Hk) as [row [Hrow _]].
    apply result_row_inv in Hrow. destruct Hrow as [r [Hloc _]].
    apply loc_labels in Hloc. now rewrite Hlabels in Hloc.
  - assert (Hnamed : forall a b, In (a, b) (upper_pairs indicators) ->
                                 (exists name, dict_get names a = ok name)
                                 /\ (exists name, dict_get names b = ok name)).
    { intros a b Hpair. apply In_nth_error in Hpair. destruct Hpair as [k Hk].
      destruct (mapM_nth_error _ _ _ _ _ Hdet Hk) as [row [Hrow _]].
      apply detailed_row_names in Hrow. cbn in Hrow. destruct Hrow; eauto. }
    assert (Htwo : (2 <= length indicators)%nat).
    { destruct det as [ | d det]; [discriminate | ].
      apply mapM_Forall2, Forall2_length in Hdet.
      pose proof (upper_pairs_length indicators) as Hcount.
      rewrite Hdet in Hcount. cbn [length] in Hcount.
      destruct (length indicators) as [ | [ | k]]; cbn in Hcount; lia. }
    intros l Hl. apply In_nth_error in Hl. destruct Hl as [k Hk].
    destruct k as [ | k].
    + destruct (nth_error indicators 1) as [b | ] eqn:Eb.
      * apply (Hnamed l b), upper_pairs_In. exists 0%nat, 1%nat. auto.
      * apply nth_error_None in Eb. lia.
    + destruct (nth_error indicators 0) as [a | ] eqn:Ea.
      * apply (Hnamed a l), upper_pairs_In. exists 0%nat, (S k).
        split; [lia | auto].
      * apply nth_error_None in Ea. lia.
Qed.

Lemma run_requirements_witness :
  (forall l, In l corr_indicators -> In l (w_columns two_segment_wide)) /\
  (forall ind1 ind2 description,
      In (ind1, ind2, description) key_relationships ->
      In ind1 corr_indicators /\ In ind2 corr_indicators) /\
  (forall l, In l corr_indicators -> exists name, dict_get indicator_names l = ok name).
Proof.
  eapply (run_requirements
            (fun _ _ => 0.5) (fun _ _ => nan) (fun _ => "0.500"%string)
            Numpy.argsort corr_indicators indicator_names key_relationships
            two_segment_wide).
  vm_compute. reflexivity.
Defined.

Lemma result_row_display (t_cdf : float -> Z -> float) (format_3f : float -> string)
    (cm : CorrMatrix) (n df : Z) (rel : string * string * string) (row : ResultRow) :
  result_row t_cdf format_3f cm n df rel = ok row ->
  p_value row
  = (if p_numeric row <? 0.001 then "<0.001"%string
     else if p_numeric row <? 0.01 then "<0.01"%string
     else if p_numeric row <? 0.05 then "<0.05"%string
     else format_3f (p_numeric row)) /\
  Significance row = get_significance (p_numeric row).
Proof.
  destruct rel as [[ind1 ind2] description]. unfold result_row.
  intros H. apply bind_ok in H. destruct H as [r [_ H]].
  injection H as <-. cbn. auto.
Qed.

(** X21: in every row of the key relationships the displayed p-value and the
    stars go together: ["<0.001"] with ["***"], ["<0.01"] with ["**"],
    ["<0.05"] with ["*"], and the p-value printed to three decimals with
    ["ns"]. *)
Theorem displayed_p_value_matches_stars (t_cdf t_ppf : float -> Z -> float)
    (format_3f : float -> string) (argsort : list float -> list nat)
    (indicators : list string) (names : list (string * string))
    (relationships : list (string * string * string))
    (pivoted : Wide) (report : Report) (row : ResultRow) :
  analysis t_cdf t_ppf format_3f argsort indicators names relationships pivoted
  = ok report ->
  In row (results report) \/ In row (results_df report) ->
  (p_value row, Significance row) = ("<0.001", "***")%string
  \/ (p_value row, Significance row) = ("<0.01", "**")%string
  \/ (p_value row, Significance row) = ("<0.05", "*")%string
  \/ (p_value row, Significance row) = (format_3f (p_numeric row), "ns"%string).
Proof.
  intros Hrun Hrow.
  destruct (results_rows _ _ _ _ _ _ _ _ _ _ Hrun Hrow) as [rel [_ Hmake]].
  apply result_row_display in Hmake. destruct Hmake as [-> ->].
  unfold get_significance.
  destruct (p_numeric row <? 0.001); [now left | ].
  destruct (p_numeric row <? 0.01); [now right; left | ].
  destruct (p_numeric row <? 0.05); [now right; right; left | ].
  now right; right; right.
Qed.

Lemma displayed_p_value_matches_stars_witness :
  exists row,
    hd_error (rows_of results mixed_run) = Some row /\
    ((p_value row, Significance row) = ("<0.001", "***")%string
     \/ (p_value row, Significance row) = ("<0.01", "**")%string
     \/ (p_value row, Significance row) = ("<0.05", "*")%string
     \/ (p_value row, Significance row)
        = ((fun _ => "0.500"%string) (p_numeric row), "ns"%string)).
Proof.
  eexists. split; [vm_compute; reflexivity | ].
  eapply (displayed_p_value_matches_stars
            (fun _ _ => 0.5) (fun _ _ => 2) (fun _ => "0.500"%string)
            Numpy.argsort three_indicators three_names two_relationships
            mixed_wide).
  - vm_compute. reflexivity.
  - left. cbn [results]. left. reflexivity.
Defined.
